(** * The analysis pipeline of the HR platform backend

    A shallow embedding of [OpenAIService] (prompt compiler, model
    invocation adapter, response interpreter), of [DataService] (subject
    store and analysis record log) and of the handlers of
    [routes/employees.js], followed by the properties of the pipeline.

    JavaScript values are embedded as an inductive type of JSON data: the
    values that the pipeline handles are parsed from JSON texts, so they
    hold no function.  A string is the UTF-8 text of its characters, and
    is cut and measured in UTF-16 code units as the engine does; a Number
    is the rational that its binary64 value denotes.  Code that can throw
    lives in an exception monad, code that touches the data files in a
    state-and-exception monad over the two files.  The conversion of a
    value to a string can throw, and so can every template literal,
    [console.log] of one included. *)

From Stdlib Require Import Bool Ascii String List ZArith QArith Lia Lqa.
From Stdlib Require Import Permutation Sorted DecimalString.
Import ListNotations.

#[local] Set Warnings "-register-all,-abstract-large-number".

Local Close Scope Q_scope.
Local Open Scope list_scope.
Local Open Scope string_scope.

(* ===================================================================== *)
(** ** Exceptions *)

(** A thrown [Error] object: its constructor name and its [message]. *)
Record exn : Type := mkExn { ename : string; message : string }.

Definition TypeError (m : string) : exn := mkExn "TypeError" m.
Definition SyntaxError (m : string) : exn := mkExn "SyntaxError" m.
Definition PlainError (m : string) : exn := mkExn "Error" m.

(** Computations that return or throw. *)
Definition M (A : Type) : Type := (exn + A)%type.

Definition ret {A} (a : A) : M A := inr a.
Definition throw {A} (e : exn) : M A := inl e.
Definition bind {A B} (m : M A) (k : A -> M B) : M B :=
  match m with
  | inl e => inl e
  | inr a => k a
  end.
Definition try_catch {A} (body : M A) (handler : exn -> M A) : M A :=
  match body with
  | inl e => handler e
  | inr a => inr a
  end.

(** Whether the computation returns. *)
Definition returns {A} (m : M A) : bool :=
  match m with
  | inr _ => true
  | inl _ => false
  end.

Declare Scope js_scope.
Delimit Scope js_scope with js.
Notation "x <- m ;; k" := (bind m (fun x => k))
  (at level 61, m at next level, right associativity) : js_scope.

(* ===================================================================== *)
(** ** Numbers

    A JavaScript Number is a binary64 value.  The finite ones are kept as
    the rational they denote; a number is built from a decimal text or
    literal by [binary64], which rounds to the nearest binary64 value,
    ties to the even significand.  The two zeros are one: the pipeline
    never divides by a number nor looks at its sign. *)

Inductive number : Type :=
| NaN
| PosInf
| NegInf
| Fin (q : Q).

(** [n / d] rounded to the nearest integer, ties to the even one, for
    [0 <= n] and [0 < d]. *)
Definition round_half_even (n d : Z) : Z :=
  let q := (n / d)%Z in
  match (2 * (n mod d) ?= d)%Z with
  | Lt => q
  | Gt => (q + 1)%Z
  | Eq => if Z.even q then q else (q + 1)%Z
  end.

(** The binary64 value nearest to [n / d], for positive [n] and [d]: the
    significand has 53 bits, or fewer below 2^-1022 where the exponent
    stops at -1074; what rounds to 2^1024 or more is infinite. *)
Definition nearest_double (n d : Z) : number :=
  let e0 := (Z.log2 n - Z.log2 d)%Z in
  let fl := if (d * 2 ^ Z.max 0 e0 <=? n * 2 ^ Z.max 0 (- e0))%Z then e0 else (e0 - 1)%Z in
  let e := Z.max (fl - 52) (-1074) in
  let m := round_half_even (n * 2 ^ Z.max 0 (- e)) (d * 2 ^ Z.max 0 e) in
  if (971 <? e)%Z || ((e =? 971)%Z && (2 ^ 53 <=? m)%Z) then PosInf
  else Fin (Qred (Qmake (m * 2 ^ Z.max 0 e) (Z.to_pos (2 ^ Z.max 0 (- e))))).

Definition negate (n : number) : number :=
  match n with
  | NaN => NaN
  | PosInf => NegInf
  | NegInf => PosInf
  | Fin q => Fin (Qred (- q))
  end.

(** The Number value for the real number [q]. *)
Definition binary64 (q : Q) : number :=
  match Qnum q with
  | Z0 => Fin 0
  | Zpos n => nearest_double (Zpos n) (Zpos (Qden q))
  | Zneg n => negate (nearest_double (Zpos n) (Zpos (Qden q)))
  end.

(** [Math.max(1, Math.min(10, num))] on a number that is not NaN. *)
Definition Math_min (a b : number) : number :=
  match a, b with
  | NaN, _ | _, NaN => NaN
  | NegInf, _ | _, NegInf => NegInf
  | PosInf, x | x, PosInf => x
  | Fin p, Fin q => if Qle_bool p q then Fin p else Fin q
  end.

Definition Math_max (a b : number) : number :=
  match a, b with
  | NaN, _ | _, NaN => NaN
  | PosInf, _ | _, PosInf => PosInf
  | NegInf, x | x, NegInf => x
  | Fin p, Fin q => if Qle_bool p q then Fin q else Fin p
  end.

Definition isNaN (n : number) : bool :=
  match n with
  | NaN => true
  | _ => false
  end.

(** [lo <= n <= hi] on numbers; false on NaN and the infinities. *)
Definition in_range (lo hi : Q) (n : number) : Prop :=
  match n with
  | Fin q => (lo <= q /\ q <= hi)%Q
  | _ => False
  end.

(** Two numbers that are the same number: finite ones are compared as
    rationals, whatever fraction represents them. *)
Definition same_number_b (a b : number) : bool :=
  match a, b with
  | NaN, NaN | PosInf, PosInf | NegInf, NegInf => true
  | Fin p, Fin q => Qeq_bool p q
  | _, _ => false
  end.

(** [ToIntegerOrInfinity] of a finite number: truncation towards zero. *)
Definition truncate (q : Q) : Z := Z.quot (Qnum q) (Zpos (Qden q)).

(* ===================================================================== *)
(** ** Strings

    A string of the model is the UTF-8 text of the JavaScript string, as
    the literals of the source file are; a surrogate that stands alone in
    the JavaScript string is written in the three-byte form of its code.
    JavaScript counts and cuts strings in UTF-16 code units: a character
    of one to three bytes is one unit, a character of four bytes is two (a
    surrogate pair).  The functions that count or cut ([js_length],
    [js_slice0], [js_char_at]) go through the units; searching for an
    ASCII text and matching the two patterns of [extractJSON] come to the
    same on the bytes. *)

Definition code (c : ascii) : N := N_of_ascii c.

Definition is_digit (c : ascii) : bool :=
  (48 <=? code c)%N && (code c <=? 57)%N.

Definition digit_val (c : ascii) : Z := (Z.of_N (code c) - 48)%Z.

Fixpoint strip_prefix (p s : string) : option string :=
  match p, s with
  | EmptyString, _ => Some s
  | String a p', String b s' =>
      if Ascii.eqb a b then strip_prefix p' s' else None
  | String _ _, EmptyString => None
  end.

Definition starts_with (p s : string) : bool :=
  match strip_prefix p s with
  | Some _ => true
  | None => false
  end.

(** [s.includes(p)]. *)
Fixpoint includes (p s : string) : bool :=
  starts_with p s ||
  match s with
  | EmptyString => false
  | String _ t => includes p t
  end.

(** The first [n] bytes, and the text after them. *)
Fixpoint take (n : nat) (s : string) : string :=
  match n, s with
  | S n', String c t => String c (take n' t)
  | _, _ => EmptyString
  end.

Fixpoint drop (n : nat) (s : string) : string :=
  match n, s with
  | S n', String _ t => drop n' t
  | _, _ => s
  end.

(** The number of bytes of the character that starts with the byte [c]. *)
Definition char_width (c : ascii) : nat :=
  let n := code c in
  if (n <? 192)%N then 1
  else if (n <? 224)%N then 2
  else if (n <? 240)%N then 3
  else if (n <? 248)%N then 4
  else 1.

(** The characters of a text, in order. *)
Fixpoint split_chars (fuel : nat) (s : string) : list string :=
  match fuel with
  | O => []
  | S f =>
      match s with
      | EmptyString => []
      | String c _ => take (char_width c) s :: split_chars f (drop (char_width c) s)
      end
  end.

Definition chars (s : string) : list string := split_chars (String.length s) s.

(** The UTF-8 text of the code unit [cp] (below 65536). *)
Definition encode_unit (cp : N) : string :=
  if (cp <? 128)%N then String (ascii_of_N cp) ""
  else if (cp <? 2048)%N then
    String (ascii_of_N (192 + cp / 64)) (String (ascii_of_N (128 + cp mod 64)) "")
  else
    String (ascii_of_N (224 + cp / 4096))
      (String (ascii_of_N (128 + (cp / 64) mod 64))
         (String (ascii_of_N (128 + cp mod 64)) "")).

(** The UTF-8 text of a code point from 65536 on. *)
Definition encode_astral (cp : N) : string :=
  String (ascii_of_N (240 + cp / 262144))
    (String (ascii_of_N (128 + (cp / 4096) mod 64))
       (String (ascii_of_N (128 + (cp / 64) mod 64))
          (String (ascii_of_N (128 + cp mod 64)) ""))).

(** The code that a character of three or of four bytes holds. *)
Definition decode3 (ch : string) : N :=
  match ch with
  | String a (String b (String c _)) =>
      (code a mod 16) * 4096 + (code b mod 64) * 64 + code c mod 64
  | _ => 0
  end%N.

Definition decode4 (ch : string) : N :=
  match ch with
  | String a (String b (String c (String d _))) =>
      (code a mod 8) * 262144 + (code b mod 64) * 4096 + (code c mod 64) * 64 + code d mod 64
  | _ => 0
  end%N.

(** The code units of a character: itself, or the two surrogates of a
    character of four bytes. *)
Definition char_units (ch : string) : list string :=
  if (String.length ch =? 4)%nat then
    let v := (decode4 ch - 65536)%N in
    [ encode_unit (55296 + v / 1024)%N; encode_unit (56320 + v mod 1024)%N ]
  else [ch].

Definition js_units (s : string) : list string := flat_map char_units (chars s).

Definition is_high_surrogate (u : string) : bool :=
  (String.length u =? 3)%nat && (55296 <=? decode3 u)%N && (decode3 u <? 56320)%N.

Definition is_low_surrogate (u : string) : bool :=
  (String.length u =? 3)%nat && (56320 <=? decode3 u)%N && (decode3 u <? 57344)%N.

(** The text of a run of code units: a high surrogate followed by a low
    one is one character of four bytes. *)
Fixpoint of_units (l : list string) : string :=
  match l with
  | [] => ""
  | u :: rest =>
      match rest with
      | v :: rest' =>
          if is_high_surrogate u && is_low_surrogate v
          then encode_astral (65536 + (decode3 u - 55296) * 1024 + (decode3 v - 56320))%N
                 ++ of_units rest'
          else u ++ of_units rest
      | [] => u
      end
  end.

(** [s.length], [s.slice(0, n)] for a non-negative [n], and [s[i]]. *)
Definition js_length (s : string) : nat := length (js_units s).

Definition js_slice0 (n : nat) (s : string) : string := of_units (firstn n (js_units s)).

Definition js_char_at (i : nat) (s : string) : option string := nth_error (js_units s) i.

(** White space: the class [\s] of regular expressions, which is also
    what [parseFloat] and [parseInt] skip.  Its characters are U+0009 to
    U+000D, U+0020, U+00A0, U+1680, U+2000 to U+200A, U+2028, U+2029,
    U+202F, U+205F, U+3000 and U+FEFF. *)
Definition is_space1 (a : ascii) : bool :=
  ((9 <=? code a)%N && (code a <=? 13)%N) || (code a =? 32)%N.

Definition is_space2 (a b : ascii) : bool :=
  (code a =? 194)%N && (code b =? 160)%N.

Definition is_space3 (a b c : ascii) : bool :=
  let ch := String a (String b (String c "")) in
  let cp := decode3 ch in
  ((cp =? 5760) || ((8192 <=? cp) && (cp <=? 8202)) ||
   (cp =? 8232) || (cp =? 8233) || (cp =? 8239) || (cp =? 8287) ||
   (cp =? 12288) || (cp =? 65279))%N &&
  String.eqb (encode_unit cp) ch.

(** The text after the white-space character at the head of [s], if [s]
    starts with one. *)
Definition strip_space (s : string) : option string :=
  match s with
  | String a t =>
      if is_space1 a then Some t
      else
        match t with
        | String b u =>
            if is_space2 a b then Some u
            else
              match u with
              | String c v => if is_space3 a b c then Some v else None
              | EmptyString => None
              end
        | EmptyString => None
        end
  | EmptyString => None
  end.

Fixpoint skip_space (s : string) : string :=
  match s with
  | String a t =>
      if is_space1 a then skip_space t
      else
        match t with
        | String b u =>
            if is_space2 a b then skip_space u
            else
              match u with
              | String c v => if is_space3 a b c then skip_space v else s
              | EmptyString => s
              end
        | EmptyString => s
        end
  | EmptyString => s
  end.

(** The text is white space only. *)
Definition blank (w : string) : bool := String.eqb (skip_space w) "".

(** Reads a run of decimal digits, accumulating its value and length. *)
Fixpoint scan_digits (acc : Z) (cnt : nat) (s : string) : Z * nat * string :=
  match s with
  | String c t =>
      if is_digit c then scan_digits (acc * 10 + digit_val c)%Z (S cnt) t
      else (acc, cnt, s)
  | EmptyString => (acc, cnt, s)
  end.

(** An exponent part [e[+-]digits] at the head of [s], or none: the
    exponent read (0 when there is none) and the rest of the text. *)
Definition scan_exponent (s : string) : Z * string :=
  match s with
  | String c t =>
      if Ascii.eqb c "e" || Ascii.eqb c "E" then
        let '(neg, t') :=
          match t with
          | String "-" u => (true, u)
          | String "+" u => (false, u)
          | _ => (false, t)
          end in
        let '(e, n, rest) := scan_digits 0%Z 0 t' in
        match n with
        | O => (0%Z, s)
        | S _ => (if neg then (- e)%Z else e, rest)
        end
      else (0%Z, s)
  | EmptyString => (0%Z, s)
  end.

(** The Number value for [m * 10^e]. *)
Definition decimal (neg : bool) (m e : Z) : number :=
  binary64 (inject_Z (if neg then (- m)%Z else m) * Qpower 10%Q e).

(** [parseFloat] on a string: skip white space, then the longest prefix
    that is a decimal literal; NaN when there is none. *)
Definition parseFloat_string (s : string) : number :=
  let s0 := skip_space s in
  let '(neg, s1) :=
    match s0 with
    | String "-" t => (true, t)
    | String "+" t => (false, t)
    | _ => (false, s0)
    end in
  if starts_with "Infinity" s1 then (if neg then NegInf else PosInf)
  else
    let '(ip, ni, r1) := scan_digits 0%Z 0 s1 in
    let '(m, nf, r2) :=
      match r1 with
      | String "." t => scan_digits ip 0 t
      | _ => (ip, O, r1)
      end in
    match (ni + nf)%nat with
    | O => NaN
    | S _ =>
        let '(e, _) := scan_exponent r2 in
        decimal neg m (e - Z.of_nat nf)%Z
    end.

Definition hex_val (c : ascii) : option N :=
  let n := code c in
  if is_digit c then Some (n - 48)%N
  else if (97 <=? n)%N && (n <=? 102)%N then Some (n - 87)%N
  else if (65 <=? n)%N && (n <=? 70)%N then Some (n - 55)%N
  else None.

Fixpoint scan_hex (acc : Z) (cnt : nat) (s : string) : Z * nat :=
  match s with
  | String c t =>
      match hex_val c with
      | Some d => scan_hex (acc * 16 + Z.of_N d)%Z (S cnt) t
      | None => (acc, cnt)
      end
  | EmptyString => (acc, cnt)
  end.

(** [parseInt(s)] with no radix: white space, a sign, then digits in base
    10, or in base 16 after the prefix 0x; NaN when there is no digit.
    The integer read is rounded to a Number. *)
Definition parseInt_string (s : string) : number :=
  let s0 := skip_space s in
  let '(neg, s1) :=
    match s0 with
    | String "-" t => (true, t)
    | String "+" t => (false, t)
    | _ => (false, s0)
    end in
  let '(magnitude, digits) :=
    match s1 with
    | String "0" (String x t) =>
        if Ascii.eqb x "x" || Ascii.eqb x "X" then scan_hex 0%Z 0 t
        else let '(m, n, _) := scan_digits 0%Z 0 s1 in (m, n)
    | _ => let '(m, n, _) := scan_digits 0%Z 0 s1 in (m, n)
    end in
  match digits with
  | O => NaN
  | S _ => binary64 (inject_Z (if neg then (- magnitude)%Z else magnitude))
  end.

Definition Z_to_string (z : Z) : string := NilZero.string_of_int (Z.to_int z).

(** ** Printing a number

    [String(x)] for a finite [x] other than zero takes the shortest
    decimal [s * 10^(n-k)], with [k] digits in [s], whose Number value is
    [x], the nearest to [x] when several have that length, and writes it
    plainly when [-6 < n <= 21] and with an exponent otherwise. *)

(** The [n] with [10^(n-1) <= a / b < 10^n], for positive [a] and [b]. *)
Definition decimal_exponent (a b : Z) : Z :=
  let g := (Z.of_nat (String.length (Z_to_string a))
            - Z.of_nat (String.length (Z_to_string b)))%Z in
  if (b * 10 ^ Z.max 0 g <=? a * 10 ^ Z.max 0 (- g))%Z then (g + 1)%Z else g.

(** The decimal of [k] digits at exponent [n] that prints [a / b], if one
    of the two nearest does: its digits as an integer. *)
Definition decimal_candidate (a b n : Z) (k : nat) : option Z :=
  let t := (n - Z.of_nat k)%Z in
  let num := (a * 10 ^ Z.max 0 (- t))%Z in
  let den := (b * 10 ^ Z.max 0 t)%Z in
  let lo := (num / den)%Z in
  let hi := (lo + 1)%Z in
  let value (c : Z) := (inject_Z c * Qpower 10%Q t)%Q in
  let prints (c : Z) := same_number_b (binary64 (value c)) (binary64 (Qmake a (Z.to_pos b))) in
  let lo_first :=
    match (2 * (num mod den) ?= den)%Z with
    | Lt => true
    | Gt => false
    | Eq => Z.even lo
    end in
  match prints lo, prints hi with
  | true, true => Some (if lo_first then lo else hi)
  | true, false => Some lo
  | false, true => Some hi
  | false, false => None
  end.

Fixpoint shortest_decimal (fuel : nat) (a b n : Z) (k : nat) : Z * nat :=
  match fuel with
  | O => (round_half_even (a * 10 ^ Z.max 0 (- (n - Z.of_nat k)))
                          (b * 10 ^ Z.max 0 (n - Z.of_nat k)), k)
  | S f =>
      match decimal_candidate a b n k with
      | Some c => (c, k)
      | None => shortest_decimal f a b n (S k)
      end
  end.

Fixpoint zeros (n : nat) : string :=
  match n with
  | O => ""
  | S m => String "0" (zeros m)
  end.

Fixpoint strip_zeros_rev (s : list ascii) : list ascii :=
  match s with
  | c :: rest => if Ascii.eqb c "0" then strip_zeros_rev rest else s
  | [] => []
  end.

(** The digits of a positive integer without its trailing zeros. *)
Definition significant_digits (c : Z) : string :=
  string_of_list_ascii (rev (strip_zeros_rev (rev (list_ascii_of_string (Z_to_string c))))).

Definition positive_to_string (a b : Z) : string :=
  let n0 := decimal_exponent a b in
  let '(c, k0) := shortest_decimal 16 a b n0 1 in
  let ds := significant_digits c in
  let k := Z.of_nat (String.length ds) in
  (* a candidate of [k0 + 1] digits is a power of ten one place up *)
  let n := (n0 + (Z.of_nat (String.length (Z_to_string c)) - Z.of_nat k0))%Z in
  if (k <=? n)%Z && (n <=? 21)%Z then ds ++ zeros (Z.to_nat (n - k))
  else if (0 <? n)%Z && (n <=? 21)%Z then
    take (Z.to_nat n) ds ++ "." ++ drop (Z.to_nat n) ds
  else if (-6 <? n)%Z && (n <=? 0)%Z then "0." ++ zeros (Z.to_nat (- n)) ++ ds
  else
    let e := (n - 1)%Z in
    let exponent := (if (e <? 0)%Z then "-" else "+") ++ Z_to_string (Z.abs e) in
    if (k =? 1)%Z then ds ++ "e" ++ exponent
    else take 1 ds ++ "." ++ drop 1 ds ++ "e" ++ exponent.

Definition number_to_string (n : number) : string :=
  match n with
  | NaN => "NaN"
  | PosInf => "Infinity"
  | NegInf => "-Infinity"
  | Fin q =>
      match binary64 q with
      | Fin x =>
          match Qnum x with
          | Z0 => "0"
          | Zpos a => positive_to_string (Zpos a) (Zpos (Qden x))
          | Zneg a => "-" ++ positive_to_string (Zpos a) (Zpos (Qden x))
          end
      | NaN => "NaN"
      | PosInf => "Infinity"
      | NegInf => "-Infinity"
      end
  end.

(* ===================================================================== *)
(** ** Values *)

Inductive value : Type :=
| VUndefined
| VNull
| VBool (b : bool)
| VNum (n : number)
| VStr (s : string)
| VArr (items : list value)
| VObj (props : list (string * value)).

(** A plain object: own properties, the first binding of a key wins.
    The values of the pipeline are parsed from JSON texts, so no property
    holds a function. *)
Definition obj : Type := list (string * value).

Fixpoint lookup (k : string) (o : obj) : option value :=
  match o with
  | [] => None
  | (k', v) :: rest => if String.eqb k k' then Some v else lookup k rest
  end.

(** [o.k] on an object: an absent property reads as [undefined]. *)
Definition prop (o : obj) (k : string) : value :=
  match lookup k o with
  | Some v => v
  | None => VUndefined
  end.

(** The object literal [{...base, ...over}]: later spreads override. *)
Definition spread (base over : obj) : obj := (over ++ base)%list.

(** Truthiness, as tested by [||], [!] and [if]. *)
Definition truthy (v : value) : bool :=
  match v with
  | VUndefined | VNull => false
  | VBool b => b
  | VNum NaN => false
  | VNum (Fin q) => negb (Qeq_bool q 0%Q)
  | VNum _ => true
  | VStr s => negb (String.eqb s "")
  | VArr _ | VObj _ => true
  end.

(** [a || b]. *)
Definition or_else (a b : value) : value := if truthy a then a else b.

Definition isArray (v : value) : bool :=
  match v with
  | VArr _ => true
  | _ => false
  end.

(** Strict equality [===].  Two arrays or objects are equal only when
    they are the same reference; the values compared by the pipeline are
    parsed from different texts, so they never are. *)
Definition strict_eq (a b : value) : bool :=
  match a, b with
  | VUndefined, VUndefined => true
  | VNull, VNull => true
  | VBool x, VBool y => Bool.eqb x y
  | VNum (Fin p), VNum (Fin q) => Qeq_bool p q
  | VNum PosInf, VNum PosInf => true
  | VNum NegInf, VNum NegInf => true
  | VStr s, VStr t => String.eqb s t
  | _, _ => false
  end.

(** The TypeError of a conversion to a primitive that finds no method to
    call. *)
Definition not_primitive : exn := TypeError "Cannot convert object to primitive value".

(** [items.join(sep)] given the conversion [f] of an item; [null] and
    [undefined] items give the empty string; the first item that throws
    ends the join. *)
Definition join_with (f : value -> M string) (sep : string) : list value -> M string :=
  fix go (l : list value) : M string :=
    let item (x : value) : M string :=
      match x with
      | VUndefined | VNull => ret ""
      | _ => f x
      end in
    match l with
    | [] => ret ""
    | [x] => item x
    | x :: rest => (a <- item x ;; b <- go rest ;; ret (a ++ sep ++ b))%js
    end.

(** [ToString(v)], the conversion applied by template literals, by [+]
    with a string, by [parseFloat] and by [parseInt].  An array is joined
    with commas.  A plain object calls the method [toString] that it
    inherits, which gives [[object Object]]; a property of its own with
    that name hides the method and, being no function, cannot be called,
    and [valueOf] gives no primitive either: the conversion throws. *)
Fixpoint to_string (v : value) : M string :=
  match v with
  | VUndefined => ret "undefined"
  | VNull => ret "null"
  | VBool true => ret "true"
  | VBool false => ret "false"
  | VNum n => ret (number_to_string n)
  | VStr s => ret s
  | VArr l => join_with to_string "," l
  | VObj o =>
      match lookup "toString" o with
      | Some _ => throw not_primitive
      | None => ret "[object Object]"
      end
  end.

Definition join (sep : string) (l : list value) : M string :=
  join_with to_string sep l.

(** The value converts to a string. *)
Definition printable (v : value) : bool := returns (to_string v).

(** [parseFloat(v)]: the argument is converted to a string and parsed.
    For a Number argument the round trip through its shortest printing
    gives the number back, so the conversion is not replayed. *)
Definition parseFloat (v : value) : M number :=
  match v with
  | VNum n => ret n
  | _ => (s <- to_string v ;; ret (parseFloat_string s))%js
  end.

(** [parseInt(v)]. *)
Definition parseInt (v : value) : M number :=
  (s <- to_string v ;; ret (parseInt_string s))%js.

(** The Number of the integer [z], and of the decimal literal [q]; a
    literal that binary64 holds exactly, such as 8 or 7.5, is written
    [Fin q] straight away. *)
Definition int (z : Z) : value := VNum (Fin (inject_Z z)).
Definition num (q : Q) : number := binary64 q.

(** [v.k] on an arbitrary value, for the property names that the pipeline
    reads (none of them is a member of a built-in prototype): reading a
    property of [null] or [undefined] throws. *)
Definition get (v : value) (k : string) : M value :=
  match v with
  | VUndefined => throw (TypeError ("Cannot read properties of undefined (reading '" ++ k ++ "')"))
  | VNull => throw (TypeError ("Cannot read properties of null (reading '" ++ k ++ "')"))
  | VObj o => ret (prop o k)
  | VArr l => ret (if String.eqb k "length" then int (Z.of_nat (length l)) else VUndefined)
  | VStr s => ret (if String.eqb k "length" then int (Z.of_nat (js_length s)) else VUndefined)
  | _ => ret VUndefined
  end.

(** [v[i]] for an index [i]. *)
Definition get_index (v : value) (i : nat) : M value :=
  match v with
  | VUndefined =>
      throw (TypeError ("Cannot read properties of undefined (reading '"
                        ++ Z_to_string (Z.of_nat i) ++ "')"))
  | VNull =>
      throw (TypeError ("Cannot read properties of null (reading '"
                        ++ Z_to_string (Z.of_nat i) ++ "')"))
  | VArr l => ret (nth i l VUndefined)
  | VStr s => ret (match js_char_at i s with
                   | Some c => VStr c
                   | None => VUndefined
                   end)
  | VObj o => ret (prop o (Z_to_string (Z.of_nat i)))
  | _ => ret VUndefined
  end.

(** A template literal: fixed texts and substitutions.  A substitution
    is evaluated, which can throw, and converted to a string, which can
    throw too, before the next one is looked at. *)
Inductive piece : Type :=
| Text (s : string)
| Hole (v : M value).

Fixpoint render (t : list piece) : M string :=
  match t with
  | [] => ret ""
  | Text s :: rest => (r <- render rest ;; ret (s ++ r))%js
  | Hole mv :: rest =>
      (v <- mv ;; s <- to_string v ;; r <- render rest ;; ret (s ++ r))%js
  end.

(** [console.log] of a template literal: what matters of it is that the
    literal is evaluated. *)
Definition console_log (t : list piece) : M unit :=
  (_ <- render t ;; ret tt)%js.

(* ===================================================================== *)
(** ** Regular expressions

    The two patterns of [extractJSON] are written with backtracking
    combinators in continuation-passing style: a matcher takes the
    continuation that matches the rest of the pattern, so a greedy
    quantifier gives characters back exactly when the rest fails, as the
    JavaScript engine does. *)

(** The class [[\s\S]]: every character. *)
Definition any_char (c : ascii) : bool := true.

Section Backtracking.
Context {R : Type}.

Definition cont : Type := string -> option R.

(** A literal text. *)
Definition lit (l : string) (k : cont) : cont :=
  fun s =>
    match strip_prefix l s with
    | Some rest => k rest
    | None => None
    end.

(** [(?:m)?]: with [m] first, without it when that fails. *)
Definition opt (m : cont -> cont) (k : cont) : cont :=
  fun s =>
    match m k s with
    | Some r => Some r
    | None => k s
    end.

(** [[cls]*], greedy: as many characters as possible first. *)
Fixpoint star (cls : ascii -> bool) (k : cont) (s : string) : option R :=
  match s with
  | String c t =>
      if cls c then
        match star cls k t with
        | Some r => Some r
        | None => k s
        end
      else k s
  | EmptyString => k s
  end.

(** [\s*], greedy: as many white-space characters as possible first. *)
Fixpoint spaces (k : cont) (s : string) : option R :=
  match s with
  | String a t =>
      if is_space1 a then
        match spaces k t with
        | Some r => Some r
        | None => k s
        end
      else
        match t with
        | String b u =>
            if is_space2 a b then
              match spaces k u with
              | Some r => Some r
              | None => k s
              end
            else
              match u with
              | String c v =>
                  if is_space3 a b c then
                    match spaces k v with
                    | Some r => Some r
                    | None => k s
                    end
                  else k s
              | EmptyString => k s
              end
        | EmptyString => k s
        end
  | EmptyString => k s
  end.

(** A capturing group: the continuation receives the captured text. *)
Definition group (m : cont -> cont) (k : string -> cont) : cont :=
  fun s => m (fun rest => k (take (String.length s - String.length rest) s) rest) s.

(** An unanchored match: the leftmost start position that matches. *)
Fixpoint search (m : cont) (s : string) : option R :=
  match m s with
  | Some r => Some r
  | None =>
      match s with
      | String _ t => search m t
      | EmptyString => None
      end
  end.
End Backtracking.

(** An opening brace, any characters (greedy), a closing brace. *)
Definition braces {R} (k : @cont R) : @cont R :=
  lit "{" (star any_char (lit "}" k)).

(** [content.match(re)[1]] for the fenced-block pattern: three backticks,
    an optional [json], white space, the captured braces, white space,
    three backticks. *)
Definition match_fenced (content : string) : option string :=
  search
    (lit "```" (opt (lit "json") (spaces
       (group braces (fun g => spaces (lit "```" (fun _ => Some g)))))))
    content.

(** [content.match(re)[0]] for the pattern of [braces] alone. *)
Definition match_object (content : string) : option string :=
  search (group braces (fun g _ => Some g)) content.

(* ===================================================================== *)
(** ** JSON.parse

    A recursive-descent reading of the JSON grammar.  Of two bindings of
    one key the later wins, so members are accumulated most recent
    first.  The messages of the syntax errors are not the engine's, which
    name the position; the pipeline only logs them. *)

Definition is_json_space (c : ascii) : bool :=
  (code c =? 32)%N || (code c =? 9)%N || (code c =? 10)%N || (code c =? 13)%N.

Fixpoint skip_json_space (s : string) : string :=
  match s with
  | String c t => if is_json_space c then skip_json_space t else s
  | EmptyString => s
  end.

Definition dquote : ascii := ascii_of_N 34.
Definition backslash : ascii := ascii_of_N 92.

(** A code unit written as an escape, before the text [r] that follows
    it: a high surrogate and the low surrogate at the head of [r] are one
    character. *)
Definition glue (u r : string) : string :=
  if is_high_surrogate u && is_low_surrogate (take 3 r)
  then of_units [u; take 3 r] ++ drop 3 r
  else u ++ r.

(** The characters of a string literal after its opening quote. *)
Fixpoint json_string (s : string) : option (string * string) :=
  match s with
  | EmptyString => None
  | String c t =>
      if Ascii.eqb c dquote then Some (EmptyString, t)
      else if (code c <? 32)%N then None
      else if Ascii.eqb c backslash then
        match t with
        | String e u =>
            let simple (x : ascii) :=
              match json_string u with
              | Some (r, rest) => Some (String x r, rest)
              | None => None
              end in
            if Ascii.eqb e dquote then simple dquote
            else if Ascii.eqb e backslash then simple backslash
            else if Ascii.eqb e "/" then simple "/"%char
            else if Ascii.eqb e "b" then simple (ascii_of_N 8)
            else if Ascii.eqb e "f" then simple (ascii_of_N 12)
            else if Ascii.eqb e "n" then simple (ascii_of_N 10)
            else if Ascii.eqb e "r" then simple (ascii_of_N 13)
            else if Ascii.eqb e "t" then simple (ascii_of_N 9)
            else if Ascii.eqb e "u" then
              match u with
              | String h1 (String h2 (String h3 (String h4 v))) =>
                  match hex_val h1, hex_val h2, hex_val h3, hex_val h4 with
                  | Some a, Some b, Some c', Some d =>
                      match json_string v with
                      | Some (r, rest) =>
                          Some (glue (encode_unit (((a * 16 + b) * 16 + c') * 16 + d)%N) r, rest)
                      | None => None
                      end
                  | _, _, _, _ => None
                  end
              | _ => None
              end
            else None
        | EmptyString => None
        end
      else
        match json_string t with
        | Some (r, rest) => Some (String c r, rest)
        | None => None
        end
  end.

(** A JSON number at the head of [s]: an optional minus sign, then 0 or
    digits that do not start with 0, then an optional fraction (a dot and
    at least one digit) and an optional exponent (e or E, an optional
    sign, at least one digit). *)
Definition json_number (s : string) : option (number * string) :=
  let '(neg, s1) :=
    match s with
    | String "-" t => (true, t)
    | _ => (false, s)
    end in
  let int_part :=
    match s1 with
    | String "0" t => Some (0%Z, t)
    | _ =>
        let '(ip, ni, r) := scan_digits 0%Z 0 s1 in
        match ni with
        | O => None
        | S _ => Some (ip, r)
        end
    end in
  match int_part with
  | None => None
  | Some (ip, r1) =>
      let frac :=
        match r1 with
        | String "." t =>
            let '(m, nf, r) := scan_digits ip 0 t in
            match nf with
            | O => None
            | S _ => Some (m, nf, r)
            end
        | _ => Some (ip, O, r1)
        end in
      match frac with
      | None => None
      | Some (m, nf, r2) =>
          match r2 with
          | String c t =>
              if Ascii.eqb c "e" || Ascii.eqb c "E" then
                let '(e, r3) := scan_exponent r2 in
                if String.eqb r3 r2 then None
                else Some (decimal neg m (e - Z.of_nat nf)%Z, r3)
              else Some (decimal neg m (- Z.of_nat nf)%Z, r2)
          | EmptyString => Some (decimal neg m (- Z.of_nat nf)%Z, r2)
          end
      end
  end.

(** What the parser is reading: a value, the items of an array after its
    bracket or a comma, or the members of an object likewise. *)
Inductive json_goal : Type :=
| GValue
| GItems (acc : list value)
| GMembers (acc : obj).

Fixpoint json_parse (fuel : nat) (g : json_goal) (s : string) : option (value * string) :=
  match fuel with
  | O => None
  | S f =>
      let s := skip_json_space s in
      match g with
      | GValue =>
          match s with
          | String c t =>
              if Ascii.eqb c "{" then
                match skip_json_space t with
                | String "}" u => Some (VObj [], u)
                | _ => json_parse f (GMembers []) t
                end
              else if Ascii.eqb c "[" then
                match skip_json_space t with
                | String "]" u => Some (VArr [], u)
                | _ => json_parse f (GItems []) t
                end
              else if Ascii.eqb c dquote then
                match json_string t with
                | Some (str, rest) => Some (VStr str, rest)
                | None => None
                end
              else
                match strip_prefix "true" s, strip_prefix "false" s, strip_prefix "null" s with
                | Some rest, _, _ => Some (VBool true, rest)
                | _, Some rest, _ => Some (VBool false, rest)
                | _, _, Some rest => Some (VNull, rest)
                | _, _, _ =>
                    match json_number s with
                    | Some (n, rest) => Some (VNum n, rest)
                    | None => None
                    end
                end
          | EmptyString => None
          end
      | GItems acc =>
          match json_parse f GValue s with
          | Some (v, rest) =>
              match skip_json_space rest with
              | String "," u => json_parse f (GItems (v :: acc)) u
              | String "]" u => Some (VArr (rev (v :: acc)), u)
              | _ => None
              end
          | None => None
          end
      | GMembers acc =>
          match s with
          | String c t =>
              if negb (Ascii.eqb c dquote) then None else
              match json_string t with
              | Some (key, rest) =>
                  match skip_json_space rest with
                  | String ":" u =>
                      match json_parse f GValue u with
                      | Some (v, rest') =>
                          match skip_json_space rest' with
                          | String "," w => json_parse f (GMembers ((key, v) :: acc)) w
                          | String "}" w => Some (VObj ((key, v) :: acc), w)
                          | _ => None
                          end
                      | None => None
                      end
                  | _ => None
                  end
              | None => None
              end
          | EmptyString => None
          end
      end
  end.

(** [JSON.parse(text)]: one value, white space around it, nothing else. *)
Definition JSON_parse (text : string) : M value :=
  match json_parse (3 * String.length text + 3) GValue text with
  | Some (v, rest) =>
      match skip_json_space rest with
      | EmptyString => ret v
      | _ => throw (SyntaxError "Unexpected non-whitespace character after JSON")
      end
  | None => throw (SyntaxError "Unexpected token in JSON")
  end.

(* ===================================================================== *)
(** ** OpenAIService *)

(** The request of [client.chat.completions.create]. *)
Record ChatRequest : Type := mkChatRequest {
  req_model : string;
  req_messages : list (string * string);   (* role, content *)
  req_max_tokens : Z;
  req_temperature : number
}.

(** The service object.  [client] is [None] when no API key is configured;
    otherwise it is the provider call, which returns a response value or
    throws an error object. *)
Record OpenAIService : Type := mkOpenAIService {
  client : option (ChatRequest -> M value);
  model : string;
  maxTokens : Z;
  temperature : number
}.

Record EmployeeAnalysis : Type := mkEmployeeAnalysis {
  overallScore : number;
  performanceScore : number;
  skillsScore : number;
  potentialScore : number;
  strengths : list value;
  improvements : list value;
  developmentPlan : value;
  riskAssessment : value;
  careerPath : value
}.

(** What [analyzeEmployee] resolves to: [{success, data, source}]. *)
Record AnalysisResult : Type := mkAnalysisResult {
  success : bool;
  data : EmployeeAnalysis;
  source : string
}.

(** Texts of the source that hold double quotes are written with an
    apostrophe in their place; [quoted] puts the quotes back. *)
Fixpoint quoted (s : string) : string :=
  match s with
  | String c t => String (if Ascii.eqb c "'" then dquote else c) (quoted t)
  | EmptyString => EmptyString
  end.

Definition getEmployeeSystemPrompt : string := quoted
"你是一位專業的HR分析專家，具備以下專長：
1. 員工績效評估與分析
2. 職涯發展規劃
3. 技能評估與培訓建議
4. 人才保留策略

請基於提供的員工資料，進行深度分析並提供專業建議。
回應必須是有效的JSON格式，包含以下結構：
{
  'overallScore': 數字(1-10),
  'performanceScore': 數字(1-10),
  'skillsScore': 數字(1-10),
  'potentialScore': 數字(1-10),
  'strengths': [字串數組],
  'improvements': [字串數組],
  'developmentPlan': '字串',
  'riskAssessment': '字串',
  'careerPath': '字串'
}

確保分析客觀、專業且具有建設性。".

(** The template literal of [buildEmployeePrompt]. *)
Definition employee_template (employee : obj) : list piece :=
  [ Text "請分析以下員工的詳細資料：

基本資訊：
- 姓名："; Hole (ret (prop employee "name")); Text "
- 職位："; Hole (ret (prop employee "position")); Text "
- 部門："; Hole (ret (prop employee "department")); Text "
- 工作年資："; Hole (ret (or_else (prop employee "experience") (VStr "未提供"))); Text "年
- 入職日期："; Hole (ret (or_else (prop employee "joinDate") (VStr "未提供"))); Text "

技能與能力：
- 核心技能："; Hole (match prop employee "skills" with
                     | VArr l => (joined <- join ", " l ;; ret (VStr joined))%js
                     | _ => ret (VStr "未提供")
                     end); Text "
- 專業領域："; Hole (ret (or_else (prop employee "specialization") (prop employee "position")));
    Text "

績效表現：
- 近期表現："; Hole (ret (or_else (prop employee "recentPerformance")
                                  (VStr "穩定表現，持續成長"))); Text "
- 團隊反饋："; Hole (ret (or_else (prop employee "feedback") (VStr "積極參與，協作良好")));
    Text "
- 項目貢獻："; Hole (ret (or_else (prop employee "projectContribution")
                                  (VStr "按時完成任務，品質良好"))); Text "

分析類型："; Hole (ret (or_else (prop employee "analysisType") (VStr "綜合分析"))); Text "
時間範圍："; Hole (ret (or_else (prop employee "timeRange") (VStr "近6個月"))); Text "

請提供全面的員工分析，包括績效評估、發展潛力、技能強弱項分析，以及具體的發展建議和風險評估。" ].

Definition buildEmployeePrompt (employee : obj) : M string :=
  render (employee_template employee).

(** [items.map(f)] for an [f] that can throw: the first throw wins. *)
Fixpoint mapM {A B} (f : A -> M B) (l : list A) : M (list B) :=
  match l with
  | [] => ret []
  | x :: rest =>
      bind (f x) (fun y => bind (mapM f rest) (fun ys => ret (y :: ys)))
  end.

(** The item of [membersList] for the member [m]: the template literal
    with [m.name] and [m.role || m.position]. *)
Definition member_entry (m : value) : M string :=
  render [ Hole (get m "name"); Text " (";
           Hole (role <- get m "role" ;;
                 if truthy role then ret role else get m "position")%js;
           Text ")" ].

(** [team.members?.length] *)
Definition members_length (members : value) : value :=
  match members with
  | VUndefined | VNull => VUndefined
  | _ => match get members "length" with
         | inr v => v
         | inl _ => VUndefined
         end
  end.

(** [membersList] of [buildTeamPrompt]. *)
Definition members_list (team : obj) : M string :=
  match prop team "members" with
  | VArr l => (entries <- mapM member_entry l ;; ret (String.concat ", " entries))%js
  | _ => ret "團隊成員資訊未提供"
  end.

(** The template literal of [buildTeamPrompt]. *)
Definition team_template (team : obj) (membersList : string) : list piece :=
  [ Text "請分析以下團隊的詳細資料：

團隊基本資訊：
- 團隊名稱："; Hole (ret (prop team "name")); Text "
- 所屬部門："; Hole (ret (or_else (prop team "department") (VStr "未提供"))); Text "
- 成員數量："; Hole (ret (or_else (or_else (prop team "memberCount")
                                           (members_length (prop team "members")))
                                  (VStr "未知"))); Text "
- 團隊類型："; Hole (ret (or_else (prop team "teamType") (VStr "專案團隊"))); Text "

團隊組成：
- 成員列表："; Hole (ret (VStr membersList)); Text "
- 領導者："; Hole (ret (or_else (prop team "leader") (VStr "未指定"))); Text "
- 團隊經驗："; Hole (ret (or_else (prop team "teamExperience") (VStr "2-3年"))); Text "

工作模式：
- 協作方式："; Hole (ret (or_else (prop team "collaborationMode") (VStr "混合工作模式")));
    Text "
- 溝通頻率："; Hole (ret (or_else (prop team "communicationFrequency")
                                  (VStr "每日站會 + 週會"))); Text "
- 決策模式："; Hole (ret (or_else (prop team "decisionMaking") (VStr "共識決策"))); Text "

績效狀況：
- 近期項目："; Hole (ret (or_else (prop team "recentProjects") (VStr "持續進行多個專案")));
    Text "
- 團隊績效："; Hole (ret (or_else (prop team "teamPerformance") (VStr "整體表現良好")));
    Text "
- 協作效率："; Hole (ret (or_else (prop team "collaborationEfficiency") (VStr "高效協作")));
    Text "

分析深度："; Hole (ret (or_else (prop team "analysisDepth") (VStr "標準分析"))); Text "
分析週期："; Hole (ret (or_else (prop team "analysisPeriod") (VStr "近3個月"))); Text "

請提供團隊動力分析，包括協作效率、溝通模式、潛在風險識別，以及具體的團隊優化建議和行動計劃。" ].

Definition buildTeamPrompt (team : obj) : M string :=
  (membersList <- members_list team ;;
   render (team_template team membersList))%js.

(** [content.match(re)] is a method of strings only. *)
Definition extractJSON (content : value) : M string :=
  match content with
  | VStr s =>
      match match_fenced s with
      | Some jsonMatch => ret jsonMatch
      | None =>
          match match_object s with
          | Some objectMatch => ret objectMatch
          | None => ret s
          end
      end
  | VUndefined => throw (TypeError "Cannot read properties of undefined (reading 'match')")
  | VNull => throw (TypeError "Cannot read properties of null (reading 'match')")
  | _ => throw (TypeError "content.match is not a function")
  end.

Definition validateScore (score : value) : M number :=
  (parsed <- parseFloat score ;;
   ret (if isNaN parsed then Fin (15 # 2)
        else Math_max (Fin 1) (Math_min (Fin 10) parsed)))%js.

Definition array_or (v : value) (default : list value) : list value :=
  match v with
  | VArr l => l
  | _ => default
  end.

(** The properties of the object literal are evaluated in order. *)
Definition validateEmployeeAnalysis (analysis : value) : M EmployeeAnalysis :=
  (overall <- bind (get analysis "overallScore") validateScore ;;
   performance <- bind (get analysis "performanceScore") validateScore ;;
   skills <- bind (get analysis "skillsScore") validateScore ;;
   potential <- bind (get analysis "potentialScore") validateScore ;;
   strengths <- get analysis "strengths" ;;
   improvements <- get analysis "improvements" ;;
   plan <- get analysis "developmentPlan" ;;
   risk <- get analysis "riskAssessment" ;;
   career <- get analysis "careerPath" ;;
   ret {| overallScore := overall;
          performanceScore := performance;
          skillsScore := skills;
          potentialScore := potential;
          strengths := array_or strengths [VStr "技能表現良好"];
          improvements := array_or improvements [VStr "持續學習新技能"];
          developmentPlan := or_else plan (VStr "建議制定個人發展計劃");
          riskAssessment := or_else risk (VStr "整體風險較低");
          careerPath := or_else career (VStr "建議逐步提升專業能力") |})%js.

(** [content.slice(0, n)]: a method of strings and of arrays. *)
Definition slice_prefix (content : value) (n : nat) : M value :=
  match content with
  | VStr s => ret (VStr (js_slice0 n s))
  | VArr l => ret (VArr (firstn n l))
  | VUndefined => throw (TypeError "Cannot read properties of undefined (reading 'slice')")
  | VNull => throw (TypeError "Cannot read properties of null (reading 'slice')")
  | _ => throw (TypeError "content.slice is not a function")
  end.

(** [content.slice(0, n) + "..."]: the slice is converted to a string. *)
Definition excerpt (content : value) (n : nat) : M string :=
  (prefix <- slice_prefix content n ;;
   text <- to_string prefix ;;
   ret (text ++ "..."))%js.

Definition parseEmployeeTextResponse (content : value) : M EmployeeAnalysis :=
  (plan <- excerpt content 200 ;;
   ret {| overallScore := Fin 8;
          performanceScore := num (41 # 5);
          skillsScore := num (39 # 5);
          potentialScore := Fin (17 # 2);
          strengths := [VStr "基於AI分析的優勢識別"];
          improvements := [VStr "基於AI分析的改進建議"];
          developmentPlan := VStr plan;
          riskAssessment := VStr "需要進一步評估";
          careerPath := VStr "建議諮詢專業顧問" |})%js.

Definition parseEmployeeAnalysis (content : value) : M AnalysisResult :=
  try_catch
    (cleanContent <- extractJSON content ;;
     analysis <- JSON_parse cleanContent ;;
     validated <- validateEmployeeAnalysis analysis ;;
     ret {| success := true; data := validated; source := "openai" |})%js
    (fun error =>
       (parsed <- parseEmployeeTextResponse content ;;
        ret {| success := true; data := parsed; source := "openai-parsed" |})%js).

(** The three template literals of the mock are evaluated in the order
    of the object literal. *)
Definition getMockEmployeeAnalysis (employee : obj) : M AnalysisResult :=
  (strength <- render [ Text "在"; Hole (ret (prop employee "position")); Text "領域表現突出" ] ;;
   plan <- render [ Text "建議"; Hole (ret (prop employee "name"));
                    Text "在接下來6個月內重點發展技術領導力，參與更多跨功能項目，並考慮進修相關認證課程。" ] ;;
   career <- render [ Text "適合往資深"; Hole (ret (prop employee "position"));
                      Text "或技術管理方向發展。" ] ;;
   ret {| success := true;
          data :=
            {| overallScore := num (41 # 5);
               performanceScore := Fin (17 # 2);
               skillsScore := num (39 # 5);
               potentialScore := num (87 # 10);
               strengths :=
                 [ VStr strength;
                   VStr "學習能力強，適應性好";
                   VStr "團隊協作積極主動";
                   VStr "問題解決能力優秀" ];
               improvements :=
                 [ VStr "可進一步提升技術深度";
                   VStr "建議加強跨部門協作經驗";
                   VStr "可考慮承擔更多領導責任" ];
               developmentPlan := VStr plan;
               riskAssessment := VStr "整體風險較低，建議定期關注職涯發展需求和工作滿意度。";
               careerPath := VStr career |};
          source := "mock" |})%js.

Definition getFallbackEmployeeAnalysis (employee : obj) : M AnalysisResult :=
  getMockEmployeeAnalysis employee.

(** [response.choices[0].message.content] *)
Definition reply_content (response : value) : M value :=
  (choices <- get response "choices" ;;
   first <- get_index choices 0 ;;
   msg <- get first "message" ;;
   get msg "content")%js.

(** The request that [analyzeEmployee] sends for a prompt. *)
Definition employee_request (this : OpenAIService) (prompt : string) : ChatRequest :=
  {| req_model := model this;
     req_messages := [ ("system", getEmployeeSystemPrompt); ("user", prompt) ];
     req_max_tokens := maxTokens this;
     req_temperature := temperature this |}.

(** The first line logs the name of the employee with a template
    literal, before the client is looked at; the prompt is built before
    the [try]. *)
Definition analyzeEmployee (this : OpenAIService) (employeeData : obj) : M AnalysisResult :=
  (_ <- console_log [ Text "🤖 開始分析員工: "; Hole (ret (prop employeeData "name")) ] ;;
   match client this with
   | None => getMockEmployeeAnalysis employeeData
   | Some create =>
       prompt <- buildEmployeePrompt employeeData ;;
       try_catch
         (response <- create (employee_request this prompt) ;;
          content <- reply_content response ;;
          parseEmployeeAnalysis content)
         (fun error => getFallbackEmployeeAnalysis employeeData)
   end)%js.

(* ===================================================================== *)
(** ** OpenAIService: the team side *)

Record TeamAnalysis : Type := mkTeamAnalysis {
  teamScore : number;
  collaborationScore : number;
  communicationScore : number;
  productivityScore : number;
  team_strengths : list value;
  risks : list value;
  suggestions : list value;
  actionPlan : list value
}.

(** What [analyzeTeam] resolves to: [{success, data, source}]. *)
Record TeamResult : Type := mkTeamResult {
  team_success : bool;
  team_data : TeamAnalysis;
  team_source : string
}.

Definition getTeamSystemPrompt : string := quoted
"你是一位團隊動力分析專家，專精於：
1. 團隊協作模式分析
2. 組織行為研究
3. 團隊效能優化
4. 衝突預防與解決

請基於提供的團隊資料，分析團隊動力並提供優化建議。
回應必須是有效的JSON格式，包含以下結構：
{
  'teamScore': 數字(1-10),
  'collaborationScore': 數字(1-10),
  'communicationScore': 數字(1-10),
  'productivityScore': 數字(1-10),
  'strengths': [字串數組],
  'risks': [字串數組],
  'suggestions': [字串數組],
  'actionPlan': [{'title': '字串', 'description': '字串', 'timeline': '字串'}]
}

確保分析基於團隊動力學理論，提供實用且可執行的建議。".

(** A step of an action plan: [{title, description, timeline}]. *)
Definition plan_step (title description timeline : string) : value :=
  VObj [("title", VStr title); ("description", VStr description); ("timeline", VStr timeline)].

Definition validateTeamAnalysis (analysis0 : value) : M TeamAnalysis :=
  (team <- bind (get analysis0 "teamScore") validateScore ;;
   collaboration <- bind (get analysis0 "collaborationScore") validateScore ;;
   communication <- bind (get analysis0 "communicationScore") validateScore ;;
   productivity <- bind (get analysis0 "productivityScore") validateScore ;;
   strengths0 <- get analysis0 "strengths" ;;
   risks0 <- get analysis0 "risks" ;;
   suggestions0 <- get analysis0 "suggestions" ;;
   plan <- get analysis0 "actionPlan" ;;
   ret {| teamScore := team;
          collaborationScore := collaboration;
          communicationScore := communication;
          productivityScore := productivity;
          team_strengths := array_or strengths0 [VStr "團隊合作良好"];
          risks := array_or risks0 [VStr "需要關注工作負荷"];
          suggestions := array_or suggestions0 [VStr "加強團隊溝通"];
          actionPlan := array_or plan [plan_step "提升協作效率" "定期檢討工作流程" "1個月"] |})%js.

Definition parseTeamTextResponse (content : value) : M TeamAnalysis :=
  (description <- excerpt content 100 ;;
   ret {| teamScore := Fin 8;
          collaborationScore := num (41 # 5);
          communicationScore := Fin (15 # 2);
          productivityScore := num (83 # 10);
          team_strengths := [VStr "基於AI分析的團隊優勢"];
          risks := [VStr "需要關注的潛在風險"];
          suggestions := [VStr "AI生成的優化建議"];
          actionPlan := [plan_step "團隊優化計劃" description "2-4週"] |})%js.

Definition parseTeamAnalysis (content : value) : M TeamResult :=
  try_catch
    (cleanContent <- extractJSON content ;;
     analysis0 <- JSON_parse cleanContent ;;
     validated <- validateTeamAnalysis analysis0 ;;
     ret {| team_success := true; team_data := validated; team_source := "openai" |})%js
    (fun error =>
       (parsed <- parseTeamTextResponse content ;;
        ret {| team_success := true; team_data := parsed; team_source := "openai-parsed" |})%js).

(** The mock analysis of a team does not read the team. *)
Definition getMockTeamAnalysis (team : obj) : TeamResult :=
  {| team_success := true;
     team_data :=
       {| teamScore := num (42 # 5);
          collaborationScore := num (87 # 10);
          communicationScore := num (81 # 10);
          productivityScore := num (43 # 5);
          team_strengths :=
            [ VStr "團隊凝聚力強，協作氛圍良好";
              VStr "技能互補性高，分工明確";
              VStr "溝通效率佳，決策速度快";
              VStr "持續學習意願強" ];
          risks :=
            [ VStr "關鍵成員工作負荷可能過重";
              VStr "缺乏備援人員安排";
              VStr "跨部門協作經驗相對不足" ];
          suggestions :=
            [ VStr "建立知識分享機制";
              VStr "定期進行工作負荷評估";
              VStr "增加跨部門合作機會";
              VStr "設立團隊導師制度" ];
          actionPlan :=
            [ plan_step "知識分享機制建立" "每週安排技術分享會，促進團隊知識交流" "2週內啟動";
              plan_step "工作負荷優化" "評估並重新分配工作任務，避免單點風險" "1個月內完成";
              plan_step "跨部門協作計劃" "安排與其他部門的聯合項目或交流活動" "2個月內實施" ] |};
     team_source := "mock" |}.

Definition getFallbackTeamAnalysis (team : obj) : TeamResult :=
  getMockTeamAnalysis team.

Definition team_request (this : OpenAIService) (prompt : string) : ChatRequest :=
  {| req_model := model this;
     req_messages := [ ("system", getTeamSystemPrompt); ("user", prompt) ];
     req_max_tokens := maxTokens this;
     req_temperature := temperature this |}.

(** As for an employee: the name is logged first, and the prompt is built
    before the [try], so what it throws is not caught. *)
Definition analyzeTeam (this : OpenAIService) (teamData : obj) : M TeamResult :=
  (_ <- console_log [ Text "🤖 開始分析團隊: "; Hole (ret (prop teamData "name")) ] ;;
   match client this with
   | None => ret (getMockTeamAnalysis teamData)
   | Some create =>
       prompt <- buildTeamPrompt teamData ;;
       try_catch
         (response <- create (team_request this prompt) ;;
          content <- reply_content response ;;
          parseTeamAnalysis content)
         (fun error => ret (getFallbackTeamAnalysis teamData))
   end)%js.

(* ===================================================================== *)
(** ** DataService *)

(** [metadata] of a record: [{source, success, timestamp, ...metadata}].
    The timestamp is the number of milliseconds that its ISO text parses
    back to; [extra] holds the other properties of the caller. *)
Record Metadata : Type := mkMetadata {
  meta_source : string;
  meta_success : bool;
  timestamp : Z;
  extra : obj
}.

Record AnalysisRecord : Type := mkAnalysisRecord {
  id : string;
  type : string;
  targetId : value;
  analysis : EmployeeAnalysis;
  metadata : Metadata
}.

(** The [metadata] argument of [saveAnalysis].  The object literal of the
    record spreads it after [source], [success] and [timestamp], so a
    property of the argument with one of these names replaces what the
    record would get: the three are fields of their own here, typed as the
    record types them and absent when the caller does not give them (the
    handlers never do); [others] holds the rest. *)
Record MetadataArg : Type := mkMetadataArg {
  given_source : option string;
  given_success : option bool;
  given_timestamp : option Z;
  others : obj
}.

(** A metadata argument with none of the three names. *)
Definition plain_metadata (o : obj) : MetadataArg :=
  {| given_source := None; given_success := None; given_timestamp := None; others := o |}.

(** The data directory: each file holds a parsed array, or is [None] when
    it is absent or unreadable. *)
Record Files : Type := mkFiles {
  employeesFile : option (list obj);
  analysesFile : option (list AnalysisRecord)
}.

(** Computations over the files that return or throw; what was written
    before a throw stays written. *)
Definition IO (A : Type) : Type := Files -> M A * Files.

Definition io_ret {A} (a : A) : IO A := fun fs => (ret a, fs).
Definition io_throw {A} (e : exn) : IO A := fun fs => (throw e, fs).
Definition io_bind {A B} (m : IO A) (k : A -> IO B) : IO B :=
  fun fs =>
    match m fs with
    | (inl e, fs') => (inl e, fs')
    | (inr a, fs') => k a fs'
    end.
Definition io_lift {A} (m : M A) : IO A := fun fs => (m, fs).
Definition io_try {A} (body : IO A) (handler : exn -> IO A) : IO A :=
  fun fs =>
    match body fs with
    | (inl e, fs') => handler e fs'
    | (inr a, fs') => (inr a, fs')
    end.

Declare Scope io_scope.
Delimit Scope io_scope with io.
Notation "x <- m ;; k" := (io_bind m (fun x => k))
  (at level 61, m at next level, right associativity) : io_scope.

Definition str_array (l : list string) : value := VArr (map VStr l).

Definition getDefaultEmployees : list obj :=
  [ [ ("id", VStr "1"); ("name", VStr "張小明"); ("position", VStr "前端工程師");
      ("department", VStr "研發部"); ("experience", int 3);
      ("skills", str_array ["JavaScript"; "Vue.js"; "React"; "CSS"; "HTML"]);
      ("email", VStr "ming.zhang@company.com"); ("joinDate", VStr "2022-03-15");
      ("specialization", VStr "前端開發");
      ("recentPerformance", VStr "表現優秀，按時完成所有專案任務，代碼品質高");
      ("feedback", VStr "同事評價積極，樂於助人，技術分享積極");
      ("projectContribution", VStr "主導了公司官網重構項目，提升了40%的加載速度") ];
    [ ("id", VStr "2"); ("name", VStr "李小華"); ("position", VStr "產品經理");
      ("department", VStr "產品部"); ("experience", int 5);
      ("skills", str_array ["產品規劃"; "用戶研究"; "數據分析"; "項目管理"; "Agile"]);
      ("email", VStr "hua.li@company.com"); ("joinDate", VStr "2020-07-01");
      ("specialization", VStr "產品策略");
      ("recentPerformance", VStr "成功推出3個新功能，用戶滿意度提升25%");
      ("feedback", VStr "溝通能力強，能有效協調各部門資源");
      ("projectContribution", VStr "負責用戶增長策略，月活躍用戶增長30%") ];
    [ ("id", VStr "3"); ("name", VStr "王小美"); ("position", VStr "UI設計師");
      ("department", VStr "設計部"); ("experience", int 2);
      ("skills", str_array ["Figma"; "Sketch"; "Adobe Creative Suite"; "Prototyping"; "User Research"]);
      ("email", VStr "mei.wang@company.com"); ("joinDate", VStr "2022-09-01");
      ("specialization", VStr "用戶介面設計");
      ("recentPerformance", VStr "設計作品獲得團隊一致好評，設計效率持續提升");
      ("feedback", VStr "創意思維活躍，對用戶體驗有敏銳洞察力");
      ("projectContribution", VStr "重新設計了移動端界面，用戶體驗評分提升35%") ];
    [ ("id", VStr "4"); ("name", VStr "陳小強"); ("position", VStr "後端工程師");
      ("department", VStr "研發部"); ("experience", int 4);
      ("skills", str_array ["Node.js"; "Python"; "Docker"; "MongoDB"; "Redis"; "AWS"]);
      ("email", VStr "qiang.chen@company.com"); ("joinDate", VStr "2021-05-20");
      ("specialization", VStr "後端架構");
      ("recentPerformance", VStr "系統穩定性顯著提升，API響應時間優化50%");
      ("feedback", VStr "技術能力強，對系統架構有深入理解");
      ("projectContribution", VStr "主導微服務架構遷移，系統可擴展性大幅提升") ];
    [ ("id", VStr "5"); ("name", VStr "林小莉"); ("position", VStr "數據分析師");
      ("department", VStr "數據部"); ("experience", int 2);
      ("skills", str_array ["Python"; "SQL"; "Tableau"; "Machine Learning"; "Statistics"]);
      ("email", VStr "li.lin@company.com"); ("joinDate", VStr "2022-11-01");
      ("specialization", VStr "數據科學");
      ("recentPerformance", VStr "建立了多個關鍵業務指標的監控dashboard");
      ("feedback", VStr "邏輯思維清晰，數據洞察能力強");
      ("projectContribution", VStr "建立用戶行為預測模型，營銷效率提升40%") ] ].

Definition saveEmployees (employees : list obj) : IO unit :=
  fun fs => (ret tt, {| employeesFile := Some employees; analysesFile := analysesFile fs |}).

(** A file that cannot be read is replaced by the default data. *)
Definition getAllEmployees : IO (list obj) :=
  fun fs =>
    match employeesFile fs with
    | Some employees => (ret employees, fs)
    | None =>
        let defaultData := getDefaultEmployees in
        (_ <- saveEmployees defaultData ;; io_ret defaultData)%io fs
    end.

(** [throw new Error(`Employee with id ${id} not found`)]: the template
    literal is evaluated first, and throws itself when the id does not
    convert to a string. *)
Definition not_found {A} (id : value) : M A :=
  (shown <- to_string id ;;
   throw (PlainError ("Employee with id " ++ shown ++ " not found")))%js.

Definition getEmployee (id : value) : IO obj :=
  (employees <- getAllEmployees ;;
   match find (fun emp => strict_eq (prop emp "id") id) employees with
   | Some employee => io_ret employee
   | None => io_lift (not_found id)
   end)%io.

(** [uuid], [createdAt] and [updatedAt] are what [uuidv4()] and the two
    calls of [new Date().toISOString()] give.  The object literal is
    [{id, ...employeeData, createdAt, updatedAt}]. *)
Definition addEmployee (uuid createdAt updatedAt : string) (employeeData : obj) : IO obj :=
  (employees <- getAllEmployees ;;
   let newEmployee : obj :=
     ("updatedAt", VStr updatedAt) :: ("createdAt", VStr createdAt)
       :: spread [("id", VStr uuid)] employeeData in
   _ <- saveEmployees (employees ++ [newEmployee])%list ;;
   io_ret newEmployee)%io.

(** [l.findIndex(f)], with [None] for -1. *)
Fixpoint findIndex {A} (f : A -> bool) (l : list A) : option nat :=
  match l with
  | [] => None
  | x :: rest => if f x then Some 0 else option_map S (findIndex f rest)
  end.

(** [l[i] = x] for an index within the list. *)
Fixpoint set_nth {A} (i : nat) (x : A) (l : list A) : list A :=
  match l, i with
  | [], _ => []
  | _ :: rest, O => x :: rest
  | y :: rest, S j => y :: set_nth j x rest
  end.

(** [now] is what [new Date().toISOString()] gives. *)
Definition updateEmployee (id0 : value) (updates : obj) (now : string) : IO obj :=
  (employees <- getAllEmployees ;;
   match findIndex (fun emp => strict_eq (prop emp "id") id0) employees with
   | None => io_lift (not_found id0)
   | Some index =>
       let updated : obj :=
         ("updatedAt", VStr now) :: spread (nth index employees []) updates in
       _ <- saveEmployees (set_nth index updated employees) ;;
       io_ret updated
   end)%io.

(** The cap of the record log. *)
Definition max_records : nat := 1000.

(** [analyses.slice(-n)]: the last [n] items. *)
Definition slice_last {A} (n : nat) (l : list A) : list A :=
  skipn (length l - n) l.

(** What the metadata argument gives for one of the three names, and
    what the record gets otherwise. *)
Definition given_or {A} (given : option A) (own : A) : A :=
  match given with
  | Some a => a
  | None => own
  end.

(** [uuid] and [now] are what [uuidv4()] and [new Date()] give at the
    call. *)
Definition saveAnalysis (uuid : string) (now : Z)
    (type0 : string) (targetId0 : value) (analysis0 : AnalysisResult) (metadata0 : MetadataArg)
  : IO AnalysisRecord :=
  fun fs =>
    let analysisRecord :=
      {| id := uuid;
         type := type0;
         targetId := targetId0;
         analysis := data analysis0;
         metadata := {| meta_source := given_or (given_source metadata0) (source analysis0);
                        meta_success := given_or (given_success metadata0) (success analysis0);
                        timestamp := given_or (given_timestamp metadata0) now;
                        extra := others metadata0 |} |} in
    let analyses :=
      match analysesFile fs with
      | Some l => l
      | None => []
      end in
    let analyses := (analyses ++ [analysisRecord])%list in
    let analyses :=
      if (max_records <? length analyses)%nat then slice_last max_records analyses
      else analyses in
    (ret analysisRecord,
     {| employeesFile := employeesFile fs; analysesFile := Some analyses |}).

(** [l.sort((a, b) => new Date(b.metadata.timestamp) - new Date(a.metadata.timestamp))]:
    the sort is stable, so [a] goes before the first item that is not
    newer than it. *)
Fixpoint insert_desc (a : AnalysisRecord) (l : list AnalysisRecord) : list AnalysisRecord :=
  match l with
  | [] => [a]
  | b :: rest =>
      if (timestamp (metadata b) - timestamp (metadata a) <=? 0)%Z
      then a :: b :: rest
      else b :: insert_desc a rest
  end.

Definition sort_desc (l : list AnalysisRecord) : list AnalysisRecord :=
  fold_right insert_desc [] l.

(** [l.slice(0, limit)]: the limit is truncated to an integer, NaN
    counting as 0; a negative limit counts from the end. *)
Definition slice_to {A} (limit : number) (l : list A) : list A :=
  match limit with
  | NaN | NegInf => []
  | PosInf => l
  | Fin q =>
      let z := truncate q in
      if (z <? 0)%Z then firstn (length l - Z.to_nat (- z)) l
      else firstn (Z.to_nat z) l
  end.

Definition matches (type0 : string) (targetId0 : value) (a : AnalysisRecord) : bool :=
  String.eqb (type a) type0 && strict_eq (targetId a) targetId0.

(** Reading the log never throws: an unreadable file gives no record. *)
Definition getAnalysisHistory (type0 : string) (targetId0 : value) (limit : number)
  (fs : Files) : list AnalysisRecord :=
  match analysesFile fs with
  | Some analyses => slice_to limit (sort_desc (filter (matches type0 targetId0) analyses))
  | None => []
  end.

(** [history[0] || null] *)
Definition getLatestAnalysis (type0 : string) (targetId0 : value) (fs : Files)
  : option AnalysisRecord :=
  hd_error (getAnalysisHistory type0 targetId0 (Fin 1) fs).

(** The calendar of [Date] in the server's time zone: [getMonth] and
    [getFullYear] of a time in milliseconds. *)
Record Calendar : Type := mkCalendar {
  getMonth : Z -> Z;
  getFullYear : Z -> Z
}.

Record Stats : Type := mkStats {
  total : nat;
  thisMonth : nat;
  thisWeek : nat;
  byType_employee : nat;
  byType_team : nat;
  bySource_openai : nat;
  bySource_mock : nat;
  bySource_fallback : nat
}.

Definition count {A} (f : A -> bool) (l : list A) : nat := length (filter f l).

Definition getAnalysisStats (cal : Calendar) (now : Z) (fs : Files) : Stats :=
  match analysesFile fs with
  | Some analyses =>
      {| total := length analyses;
         thisMonth :=
           count (fun a =>
                    let analysisDate := timestamp (metadata a) in
                    (getMonth cal analysisDate =? getMonth cal now)%Z &&
                    (getFullYear cal analysisDate =? getFullYear cal now)%Z) analyses;
         thisWeek :=
           count (fun a =>
                    let weekAgo := (now - 7 * 24 * 60 * 60 * 1000)%Z in
                    (weekAgo <=? timestamp (metadata a))%Z) analyses;
         byType_employee := count (fun a => String.eqb (type a) "employee") analyses;
         byType_team := count (fun a => String.eqb (type a) "team") analyses;
         bySource_openai := count (fun a => String.eqb (meta_source (metadata a)) "openai") analyses;
         bySource_mock := count (fun a => String.eqb (meta_source (metadata a)) "mock") analyses;
         bySource_fallback := count (fun a => includes "fallback" (meta_source (metadata a))) analyses |}
  | None =>
      {| total := 0; thisMonth := 0; thisWeek := 0;
         byType_employee := 0; byType_team := 0;
         bySource_openai := 0; bySource_mock := 0; bySource_fallback := 0 |}
  end.

(* ===================================================================== *)
(** ** The handlers of routes/employees.js *)

Record Request : Type := mkRequest {
  params_id : string;            (* req.params.id *)
  body : obj;                    (* req.body *)
  x_request_id : value           (* req.headers['x-request-id'] *)
}.

(** An item of [successful] and of [failed] in the batch response. *)
Record BatchSuccess : Type := mkBatchSuccess {
  ok_employeeId : value;
  ok_employee : value;
  ok_analysis : EmployeeAnalysis;
  ok_source : string
}.

Record BatchFailure : Type := mkBatchFailure {
  ko_employeeId : value;
  ko_error : string
}.

Record Summary : Type := mkSummary {
  sum_total : nat;
  sum_successful : nat;
  sum_failed : nat
}.

Inductive ResponseBody : Type :=
| Analyzed (employee : obj) (analysis0 : EmployeeAnalysis)
           (analyzedAt : Z) (source0 : string) (analysisId : string)
           (analysisType timeRange : value)
| Batch (successful : list BatchSuccess) (failed : list BatchFailure) (summary : Summary)
| Failed (error : string).

Record Response : Type := mkResponse {
  status : nat;
  json : ResponseBody
}.

(** The environment of a handler: the service object and what [uuidv4()]
    and [new Date()] give at the call of [saveAnalysis] of the [n]-th
    turn. *)
Record Env : Type := mkEnv {
  openaiService : OpenAIService;
  uuidv4 : nat -> string;
  clock : nat -> Z
}.

(** [router.post('/:id/analyze', ...)].  The analysis parameters are
    logged with a template literal before the analysis. *)
Definition post_analyze (env : Env) (req : Request) (fs : Files) : Response * Files :=
  let employeeId := params_id req in
  let handler : IO Response :=
    io_try
      (employee <- getEmployee (VStr employeeId) ;;
       let analysisData : obj :=
         ([ ("analysisType", or_else (prop (body req) "analysisType") (VStr "comprehensive"));
           ("timeRange", or_else (prop (body req) "timeRange") (VStr "6months"));
           ("recentPerformance",
            or_else (prop (body req) "recentPerformance") (prop employee "recentPerformance"));
           ("feedback", or_else (prop (body req) "feedback") (prop employee "feedback"));
           ("projectContribution",
            or_else (prop (body req) "projectContribution") (prop employee "projectContribution")) ]
         ++ spread employee (body req))%list in
       _ <- io_lift (console_log [ Text "📊 分析參數: ";
                                   Hole (ret (prop analysisData "analysisType"));
                                   Text ", 時間範圍: ";
                                   Hole (ret (prop analysisData "timeRange")) ]) ;;
       analysisResult <- io_lift (analyzeEmployee (openaiService env) analysisData) ;;
       savedAnalysis <- saveAnalysis (uuidv4 env 0) (clock env 0)
                          "employee" (VStr employeeId) analysisResult
                          (plain_metadata
                             [ ("analysisType", prop analysisData "analysisType");
                               ("timeRange", prop analysisData "timeRange");
                               ("requestId", or_else (x_request_id req) (VStr "unknown")) ]) ;;
       io_ret {| status := 200;
                 json := Analyzed employee (data analysisResult)
                           (timestamp (metadata savedAnalysis)) (source analysisResult)
                           (id savedAnalysis)
                           (prop analysisData "analysisType") (prop analysisData "timeRange") |})%io
      (fun error =>
         if includes "not found" (message error)
         then io_ret {| status := 404; json := Failed "Employee not found" |}
         else io_ret {| status := 500; json := Failed (message error) |}) in
  match handler fs with
  | (inr res, fs') => (res, fs')
  | (inl error, fs') => ({| status := 500; json := Failed (message error) |}, fs')
  end.

(** [const { analysisType = d } = req.body]: the default replaces
    [undefined] only. *)
Definition default_to (v d : value) : value :=
  match v with
  | VUndefined => d
  | _ => v
  end.

(** The state of the loop of the batch handler. *)
Record BatchState : Type := mkBatchState {
  results : list BatchSuccess;
  errors : list BatchFailure
}.

(** One turn of [for (const employeeId of employeeIds)]; [n] counts the
    turns so far.  The [catch] of the turn logs the id with a template
    literal before it records the failure: what that throws leaves the
    loop. *)
Definition batch_step (env : Env) (analysisType timeRange : value)
    (n : nat) (employeeId : value) (acc : BatchState) : IO BatchState :=
  io_try
    (employee <- getEmployee employeeId ;;
     let analysisData : obj :=
       ([ ("analysisType", analysisType); ("timeRange", timeRange) ] ++ employee)%list in
     analysisResult <- io_lift (analyzeEmployee (openaiService env) analysisData) ;;
     _ <- saveAnalysis (uuidv4 env n) (clock env n) "employee" employeeId analysisResult
            (plain_metadata
               [ ("batchAnalysis", VBool true);
                 ("analysisType", analysisType);
                 ("timeRange", timeRange) ]) ;;
     io_ret {| results :=
                 (results acc ++ [ {| ok_employeeId := employeeId;
                                      ok_employee := prop employee "name";
                                      ok_analysis := data analysisResult;
                                      ok_source := source analysisResult |} ])%list;
               errors := errors acc |})%io
    (fun error =>
       (_ <- io_lift (console_log [ Text "❌ 分析員工 "; Hole (ret employeeId); Text " 失敗:" ]) ;;
        io_ret {| results := results acc;
                  errors := (errors acc ++ [ {| ko_employeeId := employeeId;
                                                ko_error := message error |} ])%list |})%io).

Fixpoint batch_loop (env : Env) (analysisType timeRange : value)
    (n : nat) (employeeIds : list value) (acc : BatchState) : IO BatchState :=
  match employeeIds with
  | [] => io_ret acc
  | employeeId :: rest =>
      (acc' <- batch_step env analysisType timeRange n employeeId acc ;;
       batch_loop env analysisType timeRange (S n) rest acc')%io
  end.

(** [router.post('/batch-analyze', ...)] *)
Definition post_batch_analyze (env : Env) (req : Request) (fs : Files) : Response * Files :=
  let employeeIds := prop (body req) "employeeIds" in
  let analysisType := default_to (prop (body req) "analysisType") (VStr "comprehensive") in
  let timeRange := default_to (prop (body req) "timeRange") (VStr "6months") in
  match employeeIds with
  | VArr (first :: others) =>
      match batch_loop env analysisType timeRange 0 (first :: others)
              {| results := []; errors := [] |} fs with
      | (inr final, fs') =>
          ({| status := 200;
              json := Batch (results final) (errors final)
                        {| sum_total := length (first :: others);
                           sum_successful := length (results final);
                           sum_failed := length (errors final) |} |}, fs')
      | (inl error, fs') =>
          ({| status := 500; json := Failed (message error) |}, fs')
      end
  | _ =>
      ({| status := 400; json := Failed "employeeIds must be a non-empty array" |}, fs)
  end.

(* ===================================================================== *)
(** ** The other handlers of routes/employees.js *)

(** [parseInt(req.query.limit) || 10] *)
Definition requested_limit (query_limit : value) : M number :=
  (parsed <- parseInt query_limit ;;
   ret (if truthy (VNum parsed) then parsed else Fin 10))%js.

(** The bodies of the answers of these handlers. *)
Inductive Payload : Type :=
| Listing (employees : list obj) (total0 : nat)
| Detail (employee : obj) (latestAnalysis : option AnalysisRecord)
| History (records : list AnalysisRecord) (total0 : nat)
| Stored (employee : obj)
| Refused (error : string).

Record Answer : Type := mkAnswer {
  http_code : nat;
  payload : Payload
}.

(** The [catch] of the handlers that tell an unknown id apart. *)
Definition not_found_or_500 (error : exn) : Answer :=
  if includes "not found" (message error)
  then {| http_code := 404; payload := Refused "Employee not found" |}
  else {| http_code := 500; payload := Refused (message error) |}.

Definition respond (body0 : IO Answer) (on_error : exn -> Answer) (fs : Files) : Answer * Files :=
  match body0 fs with
  | (inr answer, fs') => (answer, fs')
  | (inl error, fs') => (on_error error, fs')
  end.

(** [router.get('/', ...)] *)
Definition get_employees : Files -> Answer * Files :=
  respond
    (employees <- getAllEmployees ;;
     io_ret {| http_code := 200; payload := Listing employees (length employees) |})%io
    (fun error => {| http_code := 500; payload := Refused (message error) |}).

(** [router.get('/:id', ...)] *)
Definition get_employee (employeeId : string) : Files -> Answer * Files :=
  respond
    (employee <- getEmployee (VStr employeeId) ;;
     latestAnalysis <- (fun fs => (ret (getLatestAnalysis "employee" (VStr employeeId) fs), fs)) ;;
     io_ret {| http_code := 200; payload := Detail employee latestAnalysis |})%io
    not_found_or_500.

(** [router.get('/:id/history', ...)]: the limit is read inside the
    [try], before the employee is looked up. *)
Definition get_history (employeeId : string) (query_limit : value) : Files -> Answer * Files :=
  respond
    (limit <- io_lift (requested_limit query_limit) ;;
     _ <- getEmployee (VStr employeeId) ;;
     history <- (fun fs => (ret (getAnalysisHistory "employee" (VStr employeeId) limit fs), fs)) ;;
     io_ret {| http_code := 200; payload := History history (length history) |})%io
    not_found_or_500.

(** [router.post('/', ...)]: the new employee is logged with a template
    literal after it is stored. *)
Definition post_employee (uuid createdAt updatedAt : string) (body0 : obj)
  : Files -> Answer * Files :=
  if negb (truthy (prop body0 "name")) || negb (truthy (prop body0 "position"))
     || negb (truthy (prop body0 "department")) || negb (truthy (prop body0 "email"))
  then fun fs =>
         ({| http_code := 400;
             payload := Refused "Missing required fields: name, position, department, email" |},
          fs)
  else
    respond
      (newEmployee <- addEmployee uuid createdAt updatedAt body0 ;;
       _ <- io_lift (console_log [ Text "✅ 員工新增成功: ";
                                   Hole (ret (prop newEmployee "name")); Text " (";
                                   Hole (ret (prop newEmployee "id")); Text ")" ]) ;;
       io_ret {| http_code := 201; payload := Stored newEmployee |})%io
      (fun error => {| http_code := 500; payload := Refused (message error) |}).


(* ===================================================================== *)
(** ** What the properties are stated with *)

(** Every property of the object converts to a string: no property holds
    an object with a [toString] property of its own, nor an array with
    such an object in it. *)
Definition plain (o : obj) : Prop := forall k : string, printable (prop o k) = true.

Definition plain_b (o : obj) : bool := forallb (fun kv => printable (snd kv)) o.

(** A piece that is evaluated without a throw. *)
Inductive ok_piece : piece -> Prop :=
| ok_text (s : string) : ok_piece (Text s)
| ok_hole (mv : M value) (v : value) :
    mv = ret v -> printable v = true -> ok_piece (Hole mv).

(** The clamp of [validateScore] on what [parseFloat] returned. *)
Definition clamp_score (parsed : number) : number :=
  if isNaN parsed then Fin (15 # 2)
  else Math_max (Fin 1) (Math_min (Fin 10) parsed).

(** The strict parse of a reply: the three steps of the [try] of
    [parseEmployeeAnalysis]. *)
Definition strict_parse (content : value) : M EmployeeAnalysis :=
  (cleanContent <- extractJSON content ;;
   analysis <- JSON_parse cleanContent ;;
   validateEmployeeAnalysis analysis)%js.

(** A computation that, when it throws, throws a TypeError. *)
Definition throws_TypeError_only {A} (m : M A) : Prop :=
  forall e, m = throw e -> ename e = "TypeError".

(** The payload schema: four scores within [1,10] and three narratives
    that are present; the two array fields are arrays by their type. *)
Definition schema_conformant (d : EmployeeAnalysis) : Prop :=
  in_range 1 10 (overallScore d) /\
  in_range 1 10 (performanceScore d) /\
  in_range 1 10 (skillsScore d) /\
  in_range 1 10 (potentialScore d) /\
  truthy (developmentPlan d) = true /\
  truthy (riskAssessment d) = true /\
  truthy (careerPath d) = true.


(** The source tags that [OpenAIService] writes: a reply that parsed, a
    reply read as text, and the mock generator. *)
Definition source_tags : list string := ["openai"; "openai-parsed"; "mock"].

(** Two numbers that are the same number: finite ones are compared as
    rationals, whatever fraction represents them. *)
Definition same_number (a b : number) : Prop :=
  match a, b with
  | NaN, NaN | PosInf, PosInf | NegInf, NegInf => True
  | Fin p, Fin q => (p == q)%Q
  | _, _ => False
  end.

(** The clamp of a coerced score, in the words of the specification:
    NaN gives the neutral 7.5, anything else is brought into [1,10]. *)
Definition clamped (coerced out : number) : Prop :=
  match coerced with
  | NaN => out = Fin (15 # 2)
  | PosInf => out = Fin 10
  | NegInf => out = Fin 1
  | Fin q =>
      ((q < 1)%Q -> out = Fin 1) /\
      ((10 < q)%Q -> out = Fin 10) /\
      ((1 <= q)%Q -> (q <= 10)%Q -> same_number out (Fin q))
  end.

(** [out] is the validated score of [input]: the clamp of what
    [parseFloat] makes of it. *)
Definition score_validated (input : value) (out : number) : Prop :=
  (exists coerced : number, parseFloat input = ret coerced /\ clamped coerced out) /\
  in_range 1 10 out /\
  (input = VUndefined -> out = Fin (15 # 2)).

Definition array_validated (input : value) (out : list value) : Prop :=
  (forall l, input = VArr l -> out = l) /\
  (isArray input = false -> exists placeholder, out = [VStr placeholder]).

Definition narrative_validated (input out : value) : Prop :=
  (truthy input = true -> out = input) /\
  (input = VUndefined -> exists sentence, out = VStr sentence /\ sentence <> "").

(** The four score fields of an employee analysis and of a team
    analysis. *)
Definition employee_scores : list string :=
  ["overallScore"; "performanceScore"; "skillsScore"; "potentialScore"].

Definition team_scores : list string :=
  ["teamScore"; "collaborationScore"; "communicationScore"; "productivityScore"].

(** The record log, empty when the file is absent. *)
Definition log (fs : Files) : list AnalysisRecord :=
  match analysesFile fs with
  | Some l => l
  | None => []
  end.

(** The arguments of one call of [saveAnalysis], with what the
    environment gives it. *)
Record Append : Type := mkAppend {
  a_uuid : string;
  a_now : Z;
  a_type : string;
  a_targetId : value;
  a_analysis : AnalysisResult;
  a_metadata : MetadataArg
}.

Definition append (a : Append) (fs : Files) : Files :=
  snd (saveAnalysis (a_uuid a) (a_now a) (a_type a) (a_targetId a)
                    (a_analysis a) (a_metadata a) fs).

(** The record that the call creates and returns. *)
Definition appended (a : Append) : AnalysisRecord :=
  {| id := a_uuid a;
     type := a_type a;
     targetId := a_targetId a;
     analysis := data (a_analysis a);
     metadata := {| meta_source := given_or (given_source (a_metadata a)) (source (a_analysis a));
                    meta_success := given_or (given_success (a_metadata a)) (success (a_analysis a));
                    timestamp := given_or (given_timestamp (a_metadata a)) (a_now a);
                    extra := others (a_metadata a) |} |}.

(** A sequence of calls, the first of the list first. *)
Definition appends (calls : list Append) (fs : Files) : Files :=
  fold_left (fun fs' a => append a fs') calls fs.

Fixpoint distinct (l : list string) : bool :=
  match l with
  | [] => true
  | x :: rest => negb (existsb (String.eqb x) rest) && distinct rest
  end.

(** The timestamp of a record. *)
Definition time_of (r : AnalysisRecord) : Z := timestamp (metadata r).

(** Orders on records by timestamp: [a] may stand before [b]. *)
Definition newer_or_same (a b : AnalysisRecord) : Prop :=
  (timestamp (metadata b) <= timestamp (metadata a))%Z.

Definition strictly_newer (a b : AnalysisRecord) : Prop :=
  (timestamp (metadata b) < timestamp (metadata a))%Z.

(** The subject store as [getAllEmployees] reads it. *)
Definition subjects (fs : Files) : list obj :=
  match employeesFile fs with
  | Some employees => employees
  | None => getDefaultEmployees
  end.

(** The employee that [getEmployee] finds, if any, and whether it finds
    one. *)
Definition lookup_employee (fs : Files) (id0 : value) : option obj :=
  find (fun emp => strict_eq (prop emp "id") id0) (subjects fs).

Definition known (fs : Files) (id0 : value) : bool :=
  match find (fun emp => strict_eq (prop emp "id") id0) (subjects fs) with
  | Some _ => true
  | None => false
  end.

Definition unknown (fs : Files) (id0 : value) : bool := negb (known fs id0).

(** The message of the error that [getEmployee] throws for an id that
    converts to the text [shown]. *)
Definition not_found_message (shown : string) : string :=
  "Employee with id " ++ shown ++ " not found".

(** The summary of a batch response, when the response is one. *)
Definition summary_of (res : Response) : option Summary :=
  match json res with
  | Batch _ _ s => Some s
  | _ => None
  end.

(** The call of [saveAnalysis] that the analyze handlers make at turn [n]
    for an employee id and a result. *)
Definition analysis_call (env : Env) (n : nat) (employeeId : value)
    (result : AnalysisResult) (metadata0 : obj) : Append :=
  {| a_uuid := uuidv4 env n;
     a_now := clock env n;
     a_type := "employee";
     a_targetId := employeeId;
     a_analysis := result;
     a_metadata := plain_metadata metadata0 |}.

(** The analysis input of a turn of the batch handler for a stored
    employee, and whether the analysis of that input returns. *)
Definition batch_input (analysisType timeRange : value) (employee : obj) : obj :=
  ([ ("analysisType", analysisType); ("timeRange", timeRange) ] ++ employee)%list.

Definition analyzable (this : OpenAIService) (employeeData : obj) : bool :=
  returns (analyzeEmployee this employeeData).


(** A turn of the batch handler succeeds for an id: the id is found and
    the analysis of the employee returns. *)
Definition succeeds (env : Env) (analysisType timeRange : value) (fs : Files)
    (employeeId : value) : bool :=
  match lookup_employee fs employeeId with
  | Some employee =>
      analyzable (openaiService env) (batch_input analysisType timeRange employee)
  | None => false
  end.

(** The error of an item of [failed]: the message of the lookup for an id
    that is not found, the TypeError of the conversion for an employee
    that cannot be analyzed. *)
Definition failure_explained (fs : Files) (f : BatchFailure) : Prop :=
  if known fs (ko_employeeId f)
  then ko_error f = message not_primitive
  else exists shown, to_string (ko_employeeId f) = ret shown /\
                     ko_error f = not_found_message shown.

(** The ids that the loop of the batch handler reaches: those before the
    first one that does not convert to a string. *)
Fixpoint reached (ids : list value) : list value :=
  match ids with
  | [] => []
  | employeeId :: rest => if printable employeeId then employeeId :: reached rest else []
  end.

(** The metadata of the records of a batch. *)
Definition batch_metadata (analysisType timeRange : value) : obj :=
  [ ("batchAnalysis", VBool true); ("analysisType", analysisType); ("timeRange", timeRange) ].


Definition nullish (v : value) : bool :=
  match v with
  | VUndefined | VNull => true
  | _ => false
  end.

(** The members of the team can be read: [members] is no array, or none
    of its items is [null] or [undefined]. *)
Definition readable_members (team : obj) : bool :=
  match prop team "members" with
  | VArr l => forallb (fun m => negb (nullish m)) l
  | _ => true
  end.

(** What the entry of a member shows converts to a string. *)
Definition printable_member (m : value) : bool :=
  match m with
  | VObj o => printable (prop o "name") && printable (or_else (prop o "role") (prop o "position"))
  | _ => true
  end.

Definition printable_members (team : obj) : bool :=
  match prop team "members" with
  | VArr l => forallb printable_member l
  | _ => true
  end.

(** The content has a [slice] method: it is a string or an array. *)
Definition sliceable (content : value) : bool :=
  match content with
  | VStr _ | VArr _ => true
  | _ => false
  end.

(** The payload of the text path for a reply text. *)
Definition text_payload (reply : string) : EmployeeAnalysis :=
  {| overallScore := Fin 8;
     performanceScore := num (41 # 5);
     skillsScore := num (39 # 5);
     potentialScore := Fin (17 # 2);
     strengths := [VStr "基於AI分析的優勢識別"];
     improvements := [VStr "基於AI分析的改進建議"];
     developmentPlan := VStr (js_slice0 200 reply ++ "...");
     riskAssessment := VStr "需要進一步評估";
     careerPath := VStr "建議諮詢專業顧問" |}.

(** Every character of [w] is in the class. *)
Fixpoint all_chars (cls : ascii -> bool) (w : string) : bool :=
  match w with
  | EmptyString => true
  | String c t => cls c && all_chars cls t
  end.

(** The character does not occur in the text. *)
Definition lacks (c : ascii) (s : string) : bool :=
  all_chars (fun x => negb (Ascii.eqb x c)) s.

(** [g] is a span of [s] in braces that stands between an opening fence,
    with or without the word json, and a closing fence, white space
    apart. *)
Definition fenced_span (s g : string) : Prop :=
  exists pre lang w1 mid w2 post : string,
    s = pre ++ "```" ++ lang ++ w1 ++ g ++ w2 ++ "```" ++ post /\
    (lang = "" \/ lang = "json") /\
    blank w1 = true /\
    blank w2 = true /\
    g = "{" ++ mid ++ "}".



(** [l] holds the pieces [a], [b], [c] one after the other. *)
Definition consecutive {A} (a b c : A) (l : list A) : Prop :=
  exists pre post : list A, l = (pre ++ a :: b :: c :: post)%list.

(** The lines of the two prompts whose field has a default of its own:
    the field, the label before its value, the default, and the text that
    follows the value. *)
Definition employee_lines : list (string * string * string * string) :=
  [ ("experience", "- 工作年資：", "未提供", "年
");
    ("joinDate", "- 入職日期：", "未提供", "
");
    ("recentPerformance", "- 近期表現：", "穩定表現，持續成長", "
");
    ("feedback", "- 團隊反饋：", "積極參與，協作良好", "
");
    ("projectContribution", "- 項目貢獻：", "按時完成任務，品質良好", "
");
    ("analysisType", "分析類型：", "綜合分析", "
");
    ("timeRange", "時間範圍：", "近6個月", "
") ].

Definition team_lines : list (string * string * string * string) :=
  [ ("department", "- 所屬部門：", "未提供", "
");
    ("teamType", "- 團隊類型：", "專案團隊", "
");
    ("leader", "- 領導者：", "未指定", "
");
    ("teamExperience", "- 團隊經驗：", "2-3年", "
");
    ("collaborationMode", "- 協作方式：", "混合工作模式", "
");
    ("communicationFrequency", "- 溝通頻率：", "每日站會 + 週會", "
");
    ("decisionMaking", "- 決策模式：", "共識決策", "
");
    ("recentProjects", "- 近期項目：", "持續進行多個專案", "
");
    ("teamPerformance", "- 團隊績效：", "整體表現良好", "
");
    ("collaborationEfficiency", "- 協作效率：", "高效協作", "
");
    ("analysisDepth", "分析深度：", "標準分析", "
");
    ("analysisPeriod", "分析週期：", "近3個月", "
") ].

(** The lines of the employee prompt whose field has no default. *)
Definition employee_bare_lines : list (string * string) :=
  [ ("name", "- 姓名："); ("position", "- 職位："); ("department", "- 部門：") ].

(** The prompt shows the text [shown] on the line of [label], followed
    by [suffix]. *)
Definition shows (prompt label shown suffix : string) : Prop :=
  includes (label ++ shown ++ suffix) prompt = true.

(* ===================================================================== *)
(** ** Sample data *)

Definition no_files : Files := {| employeesFile := None; analysesFile := None |}.

Definition sample_uuid (n : nat) : string := "analysis-" ++ Z_to_string (Z.of_nat n).

(** A result as the service returns them. *)
Definition sample_result : AnalysisResult :=
  {| success := true;
     data := text_payload "張小明的分析";
     source := "mock" |}.

(** The [n]-th of a run of calls for employee 1, one millisecond apart. *)
Definition sample_call (n : nat) : Append :=
  {| a_uuid := sample_uuid n;
     a_now := (1700000000000 + Z.of_nat n)%Z;
     a_type := "employee";
     a_targetId := VStr "1";
     a_analysis := sample_result;
     a_metadata := plain_metadata
                     [("analysisType", VStr "comprehensive"); ("timeRange", VStr "6months");
                      ("requestId", VStr "unknown")] |}.

(** Two calls for employee 1 within one millisecond. *)
Definition same_instant_calls : list Append :=
  [ {| a_uuid := "analysis-a"; a_now := 1700000000000%Z; a_type := "employee";
       a_targetId := VStr "1";
       a_analysis := sample_result;
       a_metadata := plain_metadata [("batchAnalysis", VBool true)] |};
    {| a_uuid := "analysis-b"; a_now := 1700000000000%Z; a_type := "employee";
       a_targetId := VStr "1";
       a_analysis := sample_result;
       a_metadata := plain_metadata [("batchAnalysis", VBool true)] |} ].

(** A call whose metadata gives a timestamp of its own, earlier than the
    clock. *)
Definition backdated_call : Append :=
  {| a_uuid := "analysis-old"; a_now := 1700000000009%Z; a_type := "employee";
     a_targetId := VStr "1";
     a_analysis := sample_result;
     a_metadata := {| given_source := Some "mock"; given_success := None;
                      given_timestamp := Some 1577836800000%Z;
                      others := [] |} |}.

(** A service with no API key, one whose provider answers every request
    with a message of the given content, and one whose provider fails. *)
Definition offline_service : OpenAIService :=
  {| client := None; model := "gpt-4"; maxTokens := 1500%Z; temperature := num (7 # 10) |}.

Definition content_service (content : value) : OpenAIService :=
  {| client :=
       Some (fun _ =>
               ret (VObj [("choices",
                           VArr [VObj [("message",
                                        VObj [("role", VStr "assistant");
                                              ("content", content)])]])]));
     model := "gpt-4"; maxTokens := 1500%Z; temperature := num (7 # 10) |}.

Definition replying_service (reply : string) : OpenAIService :=
  content_service (VStr reply).


Definition sample_env (service : OpenAIService) : Env :=
  {| openaiService := service;
     uuidv4 := sample_uuid;
     clock := fun n => (1700000000000 + Z.of_nat n)%Z |}.

Definition sample_request (id0 : string) (body0 : obj) : Request :=
  {| params_id := id0; body := body0; x_request_id := VUndefined |}.

(** A value that does not convert to a string: [{toString: 1}]. *)
Definition unprintable : value := VObj [("toString", int 1)].

(** The body of a create request whose name is [{toString: 1}]. *)
Definition unnamed_body : obj :=
  [ ("name", unprintable); ("position", VStr "測試工程師");
    ("department", VStr "研發部"); ("email", VStr "qa@company.com") ].



(* ===================================================================== *)
(** ** Proof automation *)

(** Closes the cases of a comparison of rationals. *)
Ltac q_close :=
  repeat split; intros;
  first [ reflexivity | exfalso; lra | unfold same_number; lra | lra ].

(** Runs a computation of the exception monad whose parts are known. *)
Ltac run_js := cbn [bind ret throw try_catch returns]; try reflexivity.

(* ===================================================================== *)
(** ** Texts *)

Lemma string_app_assoc (a b c : string) : (a ++ b) ++ c = a ++ b ++ c.
Proof.
  induction a as [ | x a IH]; simpl; [ reflexivity | now rewrite IH ].
Qed.

Lemma string_app_nil_r (a : string) : a ++ "" = a.
Proof.
  induction a as [ | c a IH]; simpl; [ reflexivity | now rewrite IH ].
Qed.

Lemma string_app_length (a b : string) :
  String.length (a ++ b) = (String.length a + String.length b)%nat.
Proof.
  induction a as [ | c a IH]; simpl; [ reflexivity | now rewrite IH ].
Qed.

Lemma strip_prefix_app (p b : string) : strip_prefix p (p ++ b) = Some b.
Proof.
  induction p as [ | c p IH]; simpl; [ reflexivity | ].
  rewrite Ascii.eqb_refl. exact IH.
Qed.

Lemma strip_prefix_some (l s rest : string) :
  strip_prefix l s = Some rest -> s = l ++ rest.
Proof.
  revert s. induction l as [ | a l IH]; intros s; simpl.
  - intros H. now injection H as ->.
  - destruct s as [ | b s]; [ discriminate | ].
    destruct (Ascii.eqb a b) eqn:E; [ | discriminate ].
    apply Ascii.eqb_eq in E as ->. intros H. now rewrite (IH _ H).
Qed.

Lemma includes_start (p s : string) : starts_with p s = true -> includes p s = true.
Proof.
  intros H. destruct s; simpl; rewrite H; reflexivity.
Qed.

Lemma includes_app (p a b : string) : includes p (a ++ p ++ b) = true.
Proof.
  induction a as [ | c a IH]; simpl.
  - apply includes_start. unfold starts_with. now rewrite strip_prefix_app.
  - rewrite IH. apply orb_true_r.
Qed.

Lemma take_app (a b : string) : take (String.length a) (a ++ b) = a.
Proof.
  induction a as [ | c a IH]; simpl.
  - destruct b; reflexivity.
  - now rewrite IH.
Qed.

Lemma take_matched (a b : string) :
  take (String.length (a ++ b) - String.length b) (a ++ b) = a.
Proof.
  rewrite string_app_length.
  replace (String.length a + String.length b - String.length b)%nat
    with (String.length a) by lia.
  apply take_app.
Qed.

Lemma append_nonempty_r (a b : string) : b <> "" -> (a ++ b) <> "".
Proof.
  intros Hb. destruct a as [ | c a]; simpl; [ assumption | discriminate ].
Qed.


(* ===================================================================== *)
(** ** Conversions to strings *)

Lemma returns_ret {A} (m : M A) : returns m = true -> exists a, m = ret a.
Proof.
  destruct m as [e | a]; simpl; [ discriminate | ]. intros _. now exists a.
Qed.

Lemma returns_throw {A} (m : M A) : returns m = false -> exists e, m = throw e.
Proof.
  destruct m as [e | a]; simpl; [ | discriminate ]. intros _. now exists e.
Qed.

Lemma printable_ret (v : value) : printable v = true -> exists s, to_string v = ret s.
Proof.
  apply returns_ret.
Qed.

(** Induction on values, with the items of an array. *)
Lemma value_induction (P : value -> Prop) :
  P VUndefined -> P VNull -> (forall b, P (VBool b)) -> (forall n, P (VNum n)) ->
  (forall s, P (VStr s)) -> (forall l, Forall P l -> P (VArr l)) ->
  (forall o, P (VObj o)) -> forall v, P v.
Proof.
  intros fu fn fb fnum fs fa fo.
  fix rect 1.
  intros [ | | b | n | s | l | o];
    [ exact fu | exact fn | apply fb | apply fnum | apply fs | | apply fo ].
  apply fa. induction l as [ | x rest IH]; constructor; [ apply rect | exact IH ].
Qed.

(** A join that throws throws what the conversion of an item throws. *)
Lemma join_with_throw (f : value -> M string) (e0 : exn) (sep : string) (l : list value) :
  (forall x, In x l -> returns (f x) = false -> f x = throw e0) ->
  returns (join_with f sep l) = false ->
  join_with f sep l = throw e0.
Proof.
  induction l as [ | x rest IH]; intros Hf Hr; [ simpl in Hr; discriminate | ].
  assert (returns (f x) = false -> f x = throw e0) as Hx by (apply Hf; now left).
  assert (returns (join_with f sep rest) = false -> join_with f sep rest = throw e0) as Hrest.
  { apply IH. intros z Hz. apply Hf. now right. }
  clear IH Hf. cbn [join_with] in *.
  destruct rest as [ | y rest'].
  - destruct x; simpl in Hr; try discriminate; now apply Hx.
  - set (tail := join_with f sep (y :: rest')) in *.
    assert (forall a : string,
               returns (b <- tail ;; ret (a ++ sep ++ b))%js = false ->
               (b <- tail ;; ret (a ++ sep ++ b))%js = throw e0) as Htail.
    { intros a. destruct tail as [e | b] eqn:Ht; cbn [bind ret returns].
      - intros _. now rewrite Hrest.
      - discriminate. }
    destruct x; cbn [bind ret] in *; try now apply Htail.
    all: match goal with
         | |- bind ?m _ = _ => destruct m as [e | a] eqn:Hm
         end; cbn [bind] in *;
      [ now rewrite Hx | now apply Htail ].
Qed.

Lemma unprintable_throw (v : value) :
  printable v = false -> to_string v = throw not_primitive.
Proof.
  unfold printable.
  induction v as [ | | b | n | s | l IH | o] using value_induction;
    try (simpl; discriminate).
  - destruct b; simpl; discriminate.
  - cbn [to_string]. apply join_with_throw.
    rewrite Forall_forall in IH. exact IH.
  - cbn [to_string]. destruct (lookup "toString" o); [ reflexivity | simpl; discriminate ].
Qed.

Lemma to_string_cases (v : value) :
  (exists s, to_string v = ret s /\ printable v = true) \/
  (to_string v = throw not_primitive /\ printable v = false).
Proof.
  destruct (printable v) eqn:Hp.
  - left. destruct (printable_ret v Hp) as [s Hs]. eauto.
  - right. split; [ now apply unprintable_throw | reflexivity ].
Qed.

Lemma printable_or_else (a b : value) :
  printable a = true -> printable b = true -> printable (or_else a b) = true.
Proof.
  intros Ha Hb. unfold or_else. now destruct (truthy a).
Qed.

Lemma plain_b_plain (o : obj) : plain_b o = true -> plain o.
Proof.
  unfold plain_b, plain, prop. intros H k.
  induction o as [ | [k' v] o IH]; [ reflexivity | ].
  cbn [forallb snd] in H. apply andb_true_iff in H as [Hv Ho].
  cbn [lookup]. destruct (String.eqb k k'); [ exact Hv | now apply IH ].
Qed.


Lemma plain_cons (k : string) (v : value) (o : obj) :
  printable v = true -> plain o -> plain ((k, v) :: o).
Proof.
  unfold plain, prop. intros Hv Ho k'. cbn [lookup].
  destruct (String.eqb k' k); [ exact Hv | apply Ho ].
Qed.

(** Whether a join returns does not depend on the separator. *)
Lemma join_with_returns (f : value -> M string) (sep : string) (l : list value) :
  returns (join_with f sep l)
  = forallb (fun x => match x with
                      | VUndefined | VNull => true
                      | _ => returns (f x)
                      end) l.
Proof.
  induction l as [ | x rest IH]; [ reflexivity | ].
  cbn [forallb]. rewrite <- IH. clear IH.
  cbn [join_with].
  destruct rest as [ | y rest'].
  - destruct x; simpl; now rewrite ?andb_true_r.
  - set (tail := join_with f sep (y :: rest')).
    destruct x; cbn [bind ret returns andb];
      try (destruct tail; reflexivity);
      match goal with
      | |- returns (bind ?m _) = _ => destruct m; simpl; [ reflexivity | ]
      end; destruct tail; reflexivity.
Qed.

Lemma join_returns (sep : string) (l : list value) :
  printable (VArr l) = true -> exists s, join sep l = ret s.
Proof.
  intros Hp. apply returns_ret. unfold join.
  unfold printable in Hp. cbn [to_string] in Hp.
  rewrite join_with_returns in *. exact Hp.
Qed.

(** What is strictly equal to some value is a primitive, and converts. *)
Lemma strict_eq_printable (a b : value) : strict_eq a b = true -> printable b = true.
Proof.
  destruct a as [ | | x | [ | | | p] | s | l | o], b as [ | | y | [ | | | q] | t | l' | o'];
    simpl; try discriminate; try reflexivity.
  destruct y; reflexivity.
Qed.

(* ===================================================================== *)
(** ** Template literals *)

Lemma render_returns (t : list piece) : Forall ok_piece t -> exists p, render t = ret p.
Proof.
  induction 1 as [ | x rest Hx _ [p Hp]]; [ now exists "" | ].
  destruct Hx as [s | mv v -> Hv]; cbn [render bind ret].
  - rewrite Hp. eexists. reflexivity.
  - destruct (printable_ret v Hv) as [s ->]. rewrite Hp. eexists. reflexivity.
Qed.

Lemma render_app (t1 t2 : list piece) (p1 p2 : string) :
  render t1 = ret p1 -> render t2 = ret p2 -> render (t1 ++ t2)%list = ret (p1 ++ p2).
Proof.
  revert p1. induction t1 as [ | x rest IH]; intros p1 H1 H2.
  - injection H1 as <-. exact H2.
  - cbn [app render] in *. destruct x as [s | mv].
    + destruct (render rest) as [e | r]; [ discriminate | ].
      injection H1 as <-. rewrite (IH r eq_refl H2). cbn [bind ret].
      now rewrite string_app_assoc.
    + destruct mv as [e | v]; [ discriminate | ]. cbn [bind] in *.
      destruct (to_string v) as [e | s]; [ discriminate | ]. cbn [bind] in *.
      destruct (render rest) as [e | r]; [ discriminate | ].
      injection H1 as <-. rewrite (IH r eq_refl H2). cbn [bind ret].
      now rewrite string_app_assoc.
Qed.

Lemma render_split (t1 t2 : list piece) (p : string) :
  render (t1 ++ t2)%list = ret p ->
  exists p1 p2, render t1 = ret p1 /\ render t2 = ret p2 /\ p = p1 ++ p2.
Proof.
  revert p. induction t1 as [ | x rest IH]; intros p H.
  - exists "", p. auto.
  - cbn [app render] in *. destruct x as [s | mv].
    + destruct (render (rest ++ t2)%list) as [e | r] eqn:Hr; [ discriminate | ].
      injection H as <-.
      destruct (IH r eq_refl) as (p1 & p2 & -> & H2 & ->).
      exists (s ++ p1), p2. cbn [bind ret].
      split; [ reflexivity | split; [ exact H2 | now rewrite string_app_assoc ] ].
    + destruct mv as [e | v]; [ discriminate | ]. cbn [bind] in *.
      destruct (to_string v) as [e | s]; [ discriminate | ]. cbn [bind] in *.
      destruct (render (rest ++ t2)%list) as [e | r] eqn:Hr; [ discriminate | ].
      injection H as <-.
      destruct (IH r eq_refl) as (p1 & p2 & -> & H2 & ->).
      exists (s ++ p1), p2. cbn [bind ret].
      split; [ reflexivity | split; [ exact H2 | now rewrite string_app_assoc ] ].
Qed.

(** The first hole that does not convert ends the evaluation with its
    TypeError. *)
Lemma render_throws (pre post : list piece) (v : value) :
  Forall ok_piece pre ->
  printable v = false ->
  render (pre ++ Hole (ret v) :: post)%list = throw not_primitive.
Proof.
  intros Hpre Hv. induction Hpre as [ | x rest Hx _ IH]; cbn [app render].
  - cbn [bind ret]. now rewrite (unprintable_throw v Hv).
  - destruct Hx as [s | mv w -> Hw]; cbn [bind ret].
    + now rewrite IH.
    + destruct (printable_ret w Hw) as [s ->]. cbn [bind ret]. now rewrite IH.
Qed.

Lemma console_log_returns (t : list piece) :
  Forall ok_piece t -> console_log t = ret tt.
Proof.
  intros H. unfold console_log. now destruct (render_returns t H) as [p ->].
Qed.

(* ===================================================================== *)
(** ** Field validation *)

Lemma Qle_bool_false (p q : Q) : Qle_bool p q = false -> (q < p)%Q.
Proof.
  intros H. apply Qnot_le_lt. intros Hle.
  apply Qle_bool_iff in Hle. congruence.
Qed.

Lemma parseFloat_returns (v : value) : returns (parseFloat v) = printable v.
Proof.
  unfold printable.
  destruct v as [ | | b | n | s | l | o]; try reflexivity;
    unfold parseFloat; destruct (to_string _); reflexivity.
Qed.

Lemma parseFloat_throws (v : value) :
  printable v = false -> parseFloat v = throw not_primitive.
Proof.
  intros Hp. pose proof (unprintable_throw v Hp) as Ht.
  destruct v as [ | | b | n | s | l | o]; try discriminate;
    unfold parseFloat; rewrite Ht; reflexivity.
Qed.

Lemma validateScore_clamp (score : value) :
  validateScore score = (parsed <- parseFloat score ;; ret (clamp_score parsed))%js.
Proof. reflexivity. Qed.

Lemma clamp_score_clamped (parsed : number) : clamped parsed (clamp_score parsed).
Proof.
  unfold clamp_score.
  destruct parsed as [ | | | q]; simpl; try reflexivity.
  destruct (Qle_bool 10 q) eqn:Hhi; simpl.
  - apply Qle_bool_iff in Hhi. q_close.
  - apply Qle_bool_false in Hhi.
    destruct (Qle_bool 1 q) eqn:Hlo.
    + apply Qle_bool_iff in Hlo. q_close.
    + apply Qle_bool_false in Hlo. q_close.
Qed.

Lemma clamp_score_range (parsed : number) : in_range 1 10 (clamp_score parsed).
Proof.
  unfold clamp_score.
  destruct parsed as [ | | | q]; simpl; try (split; lra).
  destruct (Qle_bool 10 q) eqn:Hhi; simpl; try (split; lra).
  apply Qle_bool_false in Hhi.
  destruct (Qle_bool 1 q) eqn:Hlo; simpl.
  - apply Qle_bool_iff in Hlo. split; lra.
  - split; lra.
Qed.

(** A clamped score is clamped to itself. *)
Lemma clamp_score_fixed (parsed : number) :
  clamp_score (clamp_score parsed) = clamp_score parsed.
Proof.
  unfold clamp_score.
  destruct parsed as [ | | | q]; try reflexivity.
  cbn [isNaN Math_min Math_max].
  destruct (Qle_bool 10 q) eqn:Hhi; [ reflexivity | ].
  destruct (Qle_bool 1 q) eqn:Hlo; [ | reflexivity ].
  cbn [isNaN Math_min Math_max]. rewrite Hhi, Hlo. reflexivity.
Qed.

Lemma validateScore_returns (score : value) :
  printable score = true ->
  exists out, validateScore score = ret out /\ score_validated score out.
Proof.
  intros Hp. rewrite validateScore_clamp.
  rewrite <- parseFloat_returns in Hp.
  destruct (returns_ret _ Hp) as [parsed Hparsed]. rewrite Hparsed.
  exists (clamp_score parsed). split; [ reflexivity | ].
  split; [ exists parsed; split; [ exact Hparsed | apply clamp_score_clamped ] | ].
  split; [ apply clamp_score_range | ].
  intros ->. injection Hparsed as <-. reflexivity.
Qed.

Lemma validateScore_throws (score : value) :
  printable score = false -> validateScore score = throw not_primitive.
Proof.
  intros Hp. rewrite validateScore_clamp, (parseFloat_throws _ Hp). reflexivity.
Qed.

Lemma validateScore_range (score : value) (out : number) :
  validateScore score = ret out -> in_range 1 10 out.
Proof.
  rewrite validateScore_clamp.
  destruct (parseFloat score) as [e | parsed]; [ discriminate | ].
  intros H. injection H as <-. apply clamp_score_range.
Qed.

Lemma array_or_validated (input : value) (placeholder : string) :
  array_validated input (array_or input [VStr placeholder]).
Proof.
  split.
  - intros l ->. reflexivity.
  - intros Hna. exists placeholder. destruct input; simpl in *; congruence.
Qed.

Lemma or_else_validated (input : value) (sentence : string) :
  sentence <> "" ->
  narrative_validated input (or_else input (VStr sentence)).
Proof.
  intros Hne. unfold or_else. split.
  - intros ->. reflexivity.
  - intros ->. simpl. exists sentence. split; [ reflexivity | assumption ].
Qed.

Lemma or_else_truthy (input : value) (sentence : string) :
  sentence <> "" -> truthy (or_else input (VStr sentence)) = true.
Proof.
  intros Hne. unfold or_else.
  destruct (truthy input) eqn:Ht; [ assumption | ].
  simpl. apply negb_true_iff, String.eqb_neq. assumption.
Qed.

(** The four scores are validated in turn; the first that does not
    convert ends the validation. *)
Lemma four_scores {A} (o : obj) (k1 k2 k3 k4 : string) (rest : number -> number -> number -> number -> M A) :
  forallb (fun k => printable (prop o k)) [k1; k2; k3; k4] = false ->
  (s1 <- bind (get (VObj o) k1) validateScore ;;
   s2 <- bind (get (VObj o) k2) validateScore ;;
   s3 <- bind (get (VObj o) k3) validateScore ;;
   s4 <- bind (get (VObj o) k4) validateScore ;;
   rest s1 s2 s3 s4)%js = throw not_primitive.
Proof.
  cbn [forallb get bind ret]. rewrite andb_true_r. intros H.
  destruct (printable (prop o k1)) eqn:H1.
  2: { now rewrite (validateScore_throws _ H1). }
  destruct (validateScore_returns _ H1) as (s1 & -> & _). cbn [bind ret].
  destruct (printable (prop o k2)) eqn:H2.
  2: { now rewrite (validateScore_throws _ H2). }
  destruct (validateScore_returns _ H2) as (s2 & -> & _). cbn [bind ret].
  destruct (printable (prop o k3)) eqn:H3.
  2: { now rewrite (validateScore_throws _ H3). }
  destruct (validateScore_returns _ H3) as (s3 & -> & _). cbn [bind ret].
  destruct (printable (prop o k4)) eqn:H4; [ discriminate | ].
  now rewrite (validateScore_throws _ H4).
Qed.

(** C5. Field validation of a parsed analysis object whose four scores
    convert to a string produces a payload: each of its four scores is the
    [parseFloat] coercion of the input clamped to [1,10], and is 7.5 when
    the coercion is NaN or the field is absent; each of its two array
    fields is the input array, or a one-element placeholder when the input
    is absent or not an array; each of its three narratives is the input
    when that is present, and a non-empty default sentence when it is
    absent.  When one of the four scores does not convert to a string (an
    object with a [toString] property of its own), the validation produces
    no payload: it throws the TypeError of the conversion. *)
Theorem validateEmployeeAnalysis_fields :
  forall o : obj,
    (forallb (fun k => printable (prop o k)) employee_scores = true ->
     exists d : EmployeeAnalysis,
       validateEmployeeAnalysis (VObj o) = ret d /\
       score_validated (prop o "overallScore") (overallScore d) /\
       score_validated (prop o "performanceScore") (performanceScore d) /\
       score_validated (prop o "skillsScore") (skillsScore d) /\
       score_validated (prop o "potentialScore") (potentialScore d) /\
       array_validated (prop o "strengths") (strengths d) /\
       array_validated (prop o "improvements") (improvements d) /\
       narrative_validated (prop o "developmentPlan") (developmentPlan d) /\
       narrative_validated (prop o "riskAssessment") (riskAssessment d) /\
       narrative_validated (prop o "careerPath") (careerPath d)) /\
    (forallb (fun k => printable (prop o k)) employee_scores = false ->
     validateEmployeeAnalysis (VObj o) = throw not_primitive).
Proof.
  intros o. split.
  - cbn [forallb employee_scores]. rewrite andb_true_r. intros H.
    apply andb_true_iff in H as [H1 H]. apply andb_true_iff in H as [H2 H].
    apply andb_true_iff in H as [H3 H4].
    destruct (validateScore_returns _ H1) as (s1 & E1 & V1).
    destruct (validateScore_returns _ H2) as (s2 & E2 & V2).
    destruct (validateScore_returns _ H3) as (s3 & E3 & V3).
    destruct (validateScore_returns _ H4) as (s4 & E4 & V4).
    unfold validateEmployeeAnalysis. cbn [get bind ret].
    rewrite E1. cbn [bind ret]. rewrite E2. cbn [bind ret].
    rewrite E3. cbn [bind ret]. rewrite E4. cbn [bind ret].
    eexists. split; [ reflexivity | ].
    cbn [overallScore performanceScore skillsScore potentialScore strengths
         improvements developmentPlan riskAssessment careerPath].
    repeat match goal with
           | |- _ /\ _ => split
           | |- score_validated _ _ => assumption
           | |- array_validated _ _ => apply array_or_validated
           | |- narrative_validated _ _ => apply or_else_validated; discriminate
           end.
  - intros H. unfold validateEmployeeAnalysis. now apply four_scores.
Qed.

Lemma validateEmployeeAnalysis_fields_witness :
  exists d : EmployeeAnalysis,
    validateEmployeeAnalysis
      (VObj [("overallScore", int 15); ("strengths", VStr "not-an-array")]) = ret d /\
    overallScore d = Fin 10 /\
    performanceScore d = Fin (15 # 2) /\
    (exists placeholder, strengths d = [VStr placeholder]).
Proof.
  destruct (validateEmployeeAnalysis_fields
              [("overallScore", int 15); ("strengths", VStr "not-an-array")])
    as [Hfields _].
  destruct (Hfields eq_refl) as (d & Hd & (_ & _ & _) & (_ & _ & Hperf) & _ & _ & Hs & _).
  exists d. split; [ exact Hd | ].
  split; [ | split; [ apply Hperf; reflexivity | apply Hs; reflexivity ] ].
  vm_compute in Hd. injection Hd as <-. reflexivity.
Defined.

(** The object [{overallScore: {toString: 1}}] has no validated payload. *)
Lemma validateEmployeeAnalysis_throws_on_a_score :
  validateEmployeeAnalysis (VObj [("overallScore", unprintable)]) = throw not_primitive /\
  ~ (exists d : EmployeeAnalysis,
        validateEmployeeAnalysis (VObj [("overallScore", unprintable)]) = ret d).
Proof.
  split; [ reflexivity | ]. intros [d Hd]. discriminate Hd.
Qed.

(** X8. Field validation of a parsed team analysis object whose four
    scores convert to a string produces a payload: each of the four scores
    is validated as for an employee, and each of [strengths], [risks],
    [suggestions] and [actionPlan] is the input array, or a one-element
    default when the input is absent or not an array; the default action
    plan is one step with a title, a description and a timeline.  When one
    of the four scores does not convert to a string, the validation throws
    the TypeError of the conversion. *)
Theorem validateTeamAnalysis_fields :
  forall o : obj,
    (forallb (fun k => printable (prop o k)) team_scores = true ->
     exists d : TeamAnalysis,
       validateTeamAnalysis (VObj o) = ret d /\
       score_validated (prop o "teamScore") (teamScore d) /\
       score_validated (prop o "collaborationScore") (collaborationScore d) /\
       score_validated (prop o "communicationScore") (communicationScore d) /\
       score_validated (prop o "productivityScore") (productivityScore d) /\
       array_validated (prop o "strengths") (team_strengths d) /\
       array_validated (prop o "risks") (risks d) /\
       array_validated (prop o "suggestions") (suggestions d) /\
       (forall l, prop o "actionPlan" = VArr l -> actionPlan d = l) /\
       (isArray (prop o "actionPlan") = false ->
        exists title description timeline,
          actionPlan d = [plan_step title description timeline])) /\
    (forallb (fun k => printable (prop o k)) team_scores = false ->
     validateTeamAnalysis (VObj o) = throw not_primitive).
Proof.
  intros o. split.
  - cbn [forallb team_scores]. rewrite andb_true_r. intros H.
    apply andb_true_iff in H as [H1 H]. apply andb_true_iff in H as [H2 H].
    apply andb_true_iff in H as [H3 H4].
    destruct (validateScore_returns _ H1) as (s1 & E1 & V1).
    destruct (validateScore_returns _ H2) as (s2 & E2 & V2).
    destruct (validateScore_returns _ H3) as (s3 & E3 & V3).
    destruct (validateScore_returns _ H4) as (s4 & E4 & V4).
    unfold validateTeamAnalysis. cbn [get bind ret].
    rewrite E1. cbn [bind ret]. rewrite E2. cbn [bind ret].
    rewrite E3. cbn [bind ret]. rewrite E4. cbn [bind ret].
    eexists. split; [ reflexivity | ].
    cbn [teamScore collaborationScore communicationScore productivityScore
         team_strengths risks suggestions actionPlan].
    repeat match goal with
           | |- _ /\ _ => split
           | |- score_validated _ _ => assumption
           | |- array_validated _ _ => apply array_or_validated
           end.
    + intros l ->. reflexivity.
    + intros Hna. eexists _, _, _.
      destruct (prop o "actionPlan"); simpl in *; try discriminate; reflexivity.
  - intros H. unfold validateTeamAnalysis. now apply four_scores.
Qed.

Lemma validateTeamAnalysis_fields_witness :
  exists d : TeamAnalysis,
    validateTeamAnalysis (VObj [("teamScore", VStr "0.2"); ("risks", VArr [])]) = ret d /\
    teamScore d = Fin 1 /\
    risks d = [] /\
    validateTeamAnalysis (VObj [("teamScore", unprintable)]) = throw not_primitive.
Proof.
  destruct (validateTeamAnalysis_fields [("teamScore", VStr "0.2"); ("risks", VArr [])])
    as [Hfields _].
  destruct (Hfields eq_refl) as (d & Hd & _ & _ & _ & _ & _ & (Hrisks & _) & _).
  exists d. split; [ exact Hd | ].
  split; [ | split; [ apply Hrisks; reflexivity | ] ].
  - vm_compute in Hd. injection Hd as <-. reflexivity.
  - apply (validateTeamAnalysis_fields [("teamScore", unprintable)]). reflexivity.
Defined.

(** X3. Validating a score twice is validating it once: a validated score
    goes through [validateScore] unchanged. *)
Theorem validateScore_idempotent :
  forall score : value,
    (validated <- validateScore score ;; validateScore (VNum validated))%js
    = validateScore score.
Proof.
  intros score. rewrite (validateScore_clamp score).
  destruct (parseFloat score) as [e | parsed]; [ reflexivity | ].
  cbn [bind ret]. rewrite validateScore_clamp. cbn [parseFloat bind ret].
  now rewrite clamp_score_fixed.
Qed.

(* ===================================================================== *)
(** ** The interpreter *)

(** Closes the bounds of a score given by a literal. *)
Ltac range_close := first [ split; lra | vm_compute; split; discriminate ].

Lemma validateEmployeeAnalysis_conformant (analysis0 : value) (d : EmployeeAnalysis) :
  validateEmployeeAnalysis analysis0 = ret d -> schema_conformant d.
Proof.
  unfold validateEmployeeAnalysis. intros H.
  repeat match type of H with
         | bind (bind (get ?a ?k) _) _ = _ =>
             destruct (get a k); cbn [bind] in H; [ discriminate H | ]
         | bind (validateScore ?v) _ = _ =>
             let E := fresh "E" in
             destruct (validateScore v) eqn:E; cbn [bind] in H; [ discriminate H | ]
         | bind (get ?a ?k) _ = _ =>
             destruct (get a k); cbn [bind] in H; [ discriminate H | ]
         end.
  unfold ret in H. injection H as <-. unfold schema_conformant.
  cbn [overallScore performanceScore skillsScore potentialScore
       developmentPlan riskAssessment careerPath].
  repeat split;
    solve [ eapply validateScore_range; eassumption
          | apply or_else_truthy; discriminate ].
Qed.

Lemma parseEmployeeTextResponse_string (reply : string) :
  parseEmployeeTextResponse (VStr reply) = ret (text_payload reply).
Proof. reflexivity. Qed.

Lemma text_payload_conformant (plan : string) (d : EmployeeAnalysis) :
  d = {| overallScore := Fin 8;
         performanceScore := num (41 # 5);
         skillsScore := num (39 # 5);
         potentialScore := Fin (17 # 2);
         strengths := [VStr "基於AI分析的優勢識別"];
         improvements := [VStr "基於AI分析的改進建議"];
         developmentPlan := VStr (plan ++ "...");
         riskAssessment := VStr "需要進一步評估";
         careerPath := VStr "建議諮詢專業顧問" |} ->
  schema_conformant d.
Proof.
  intros ->. unfold schema_conformant.
  cbn [overallScore performanceScore skillsScore potentialScore
       developmentPlan riskAssessment careerPath].
  repeat match goal with
         | |- in_range _ _ _ /\ _ => split; [ range_close | ]
         end.
  repeat split.
  apply negb_true_iff, String.eqb_neq, append_nonempty_r. discriminate.
Qed.

Lemma parseEmployeeTextResponse_conformant (content : value) (d : EmployeeAnalysis) :
  parseEmployeeTextResponse content = ret d -> schema_conformant d.
Proof.
  unfold parseEmployeeTextResponse.
  destruct (excerpt content 200) as [e | plan] eqn:Hplan; cbn [bind ret]; intros H;
    [ discriminate | ].
  injection H as <-.
  unfold excerpt in Hplan.
  destruct (slice_prefix content 200) as [e | prefix]; cbn [bind ret] in Hplan;
    [ discriminate | ].
  destruct (to_string prefix) as [e | text]; cbn [bind ret] in Hplan; [ discriminate | ].
  injection Hplan as <-. now apply (text_payload_conformant text).
Qed.

(** The interpreter in terms of the strict parse. *)
Lemma parseEmployeeAnalysis_strict (content : value) :
  parseEmployeeAnalysis content
  = match strict_parse content with
    | inr validated => ret {| success := true; data := validated; source := "openai" |}
    | inl _ =>
        (parsed <- parseEmployeeTextResponse content ;;
         ret {| success := true; data := parsed; source := "openai-parsed" |})%js
    end.
Proof.
  unfold parseEmployeeAnalysis, strict_parse.
  destruct (extractJSON content) as [e1 | cleanContent]; cbn [bind try_catch ret];
    [ reflexivity | ].
  destruct (JSON_parse cleanContent) as [e2 | analysis0]; cbn [bind try_catch ret];
    [ reflexivity | ].
  destruct (validateEmployeeAnalysis analysis0) as [e3 | validated];
    cbn [bind try_catch ret]; reflexivity.
Qed.

Lemma parseEmployeeAnalysis_result (content : value) (r : AnalysisResult) :
  parseEmployeeAnalysis content = ret r ->
  success r = true /\
  (source r = "openai" \/ source r = "openai-parsed") /\
  schema_conformant (data r).
Proof.
  rewrite parseEmployeeAnalysis_strict. unfold strict_parse.
  destruct (extractJSON content) as [e1 | cleanContent]; cbn [bind].
  2: destruct (JSON_parse cleanContent) as [e2 | parsed]; cbn [bind].
  3: destruct (validateEmployeeAnalysis parsed) as [e3 | validated] eqn:Hv.
  4: { intros H. injection H as <-. cbn [success source data].
       split; [ reflexivity | split; [ now left | ] ].
       eapply validateEmployeeAnalysis_conformant; eassumption. }
  all: destruct (parseEmployeeTextResponse content) as [e4 | d] eqn:Ht; cbn [bind ret];
    intros H; try discriminate; injection H as <-; cbn [success source data];
    (split; [ reflexivity | split; [ now right | ] ]);
    eapply parseEmployeeTextResponse_conformant; eassumption.
Qed.

Lemma extractJSON_string (s : string) : exists t, extractJSON (VStr s) = ret t.
Proof.
  unfold extractJSON. destruct (match_fenced s); [ eexists; reflexivity | ].
  destruct (match_object s); eexists; reflexivity.
Qed.

(* ===================================================================== *)
(** ** The mock generator and the prompt of an employee *)

(** The mock generator returns exactly when the position and the name of
    the employee convert to a string. *)
Lemma getMockEmployeeAnalysis_cases (employee : obj) :
  match getMockEmployeeAnalysis employee with
  | inr r =>
      printable (prop employee "position") = true /\
      printable (prop employee "name") = true /\
      success r = true /\ source r = "mock" /\ schema_conformant (data r)
  | inl e =>
      e = not_primitive /\
      printable (prop employee "position") && printable (prop employee "name") = false
  end.
Proof.
  unfold getMockEmployeeAnalysis. cbn [render bind ret].
  destruct (to_string_cases (prop employee "position")) as [(s & -> & ->) | [-> ->]];
    cbn [bind ret]; [ | split; reflexivity ].
  destruct (to_string_cases (prop employee "name")) as [(t & -> & ->) | [-> ->]];
    cbn [bind ret]; [ | split; reflexivity ].
  do 4 (split; [ reflexivity | ]).
  unfold schema_conformant.
  cbn [data overallScore performanceScore skillsScore potentialScore
       developmentPlan riskAssessment careerPath].
  repeat match goal with
         | |- in_range _ _ _ /\ _ => split; [ range_close | ]
         end.
  repeat split.
Qed.

Lemma getMockEmployeeAnalysis_returns (employee : obj) :
  printable (prop employee "position") = true ->
  printable (prop employee "name") = true ->
  exists r, getMockEmployeeAnalysis employee = ret r /\
            success r = true /\ source r = "mock" /\ schema_conformant (data r).
Proof.
  intros Hpos Hname. pose proof (getMockEmployeeAnalysis_cases employee) as H.
  destruct (getMockEmployeeAnalysis employee) as [e | r].
  - destruct H as [_ H]. rewrite Hpos, Hname in H. discriminate.
  - exists r. split; [ reflexivity | tauto ].
Qed.

Lemma getMockEmployeeAnalysis_result (employee : obj) (r : AnalysisResult) :
  getMockEmployeeAnalysis employee = ret r ->
  success r = true /\ source r = "mock" /\ schema_conformant (data r).
Proof.
  intros Hr. pose proof (getMockEmployeeAnalysis_cases employee) as H.
  rewrite Hr in H. unfold ret in H. tauto.
Qed.

Lemma getMockEmployeeAnalysis_throws (employee : obj) (e : exn) :
  getMockEmployeeAnalysis employee = throw e -> e = not_primitive.
Proof.
  intros He. pose proof (getMockEmployeeAnalysis_cases employee) as H.
  rewrite He in H. unfold throw in H. tauto.
Qed.

(** The substitution of the skills: it converts when the property does. *)
Lemma skills_hole (employee : obj) :
  printable (prop employee "skills") = true ->
  exists v,
    match prop employee "skills" with
    | VArr l => (joined <- join ", " l ;; ret (VStr joined))%js
    | _ => ret (VStr "未提供")
    end = ret v /\ printable v = true.
Proof.
  intros Hp. destruct (prop employee "skills") as [ | | b | n | s | l | o];
    try (eexists; split; reflexivity).
  destruct (join_returns ", " l Hp) as [joined ->].
  eexists. split; reflexivity.
Qed.

Lemma employee_template_ok (employee : obj) :
  plain employee -> Forall ok_piece (employee_template employee).
Proof.
  intros Hp. destruct (skills_hole employee (Hp "skills")) as (v & Hv & Hpv).
  unfold employee_template.
  repeat first [ apply Forall_nil | apply Forall_cons ];
    try apply ok_text;
    try (eapply ok_hole;
         [ reflexivity
         | repeat apply printable_or_else; solve [ apply Hp | reflexivity ] ]).
  eapply ok_hole; eassumption.
Qed.

Lemma buildEmployeePrompt_returns (employee : obj) :
  plain employee -> exists prompt, buildEmployeePrompt employee = ret prompt.
Proof.
  intros Hp. apply render_returns. now apply employee_template_ok.
Qed.

(** What a template literal throws is what a substitution throws. *)
Lemma render_throw_kind (t : list piece) (e : exn) :
  Forall (fun p => match p with
                   | Text _ => True
                   | Hole mv => forall e0, mv = throw e0 -> e0 = not_primitive
                   end) t ->
  render t = throw e -> e = not_primitive.
Proof.
  induction 1 as [ | p rest Hp _ IH]; [ discriminate | ].
  destruct p as [s | mv]; cbn [render].
  - destruct (render rest) as [e0 | r]; cbn [bind ret]; [ | discriminate ].
    intros H. injection H as <-. now apply IH.
  - destruct mv as [e0 | v]; cbn [bind].
    + intros H. injection H as <-. now apply Hp.
    + destruct (to_string_cases v) as [(s & -> & _) | [-> _]]; cbn [bind ret].
      * destruct (render rest) as [e0 | r]; cbn [bind ret]; [ | discriminate ].
        intros H. injection H as <-. now apply IH.
      * intros H. now injection H as <-.
Qed.

Lemma join_throw_kind (sep : string) (l : list value) (e : exn) :
  join sep l = throw e -> e = not_primitive.
Proof.
  intros H. unfold join in *.
  assert (returns (join_with to_string sep l) = false) as Hr by now rewrite H.
  rewrite (join_with_throw to_string not_primitive sep l) in H; [ now injection H as <- | | exact Hr ].
  intros x _ Hx. now apply unprintable_throw.
Qed.

Lemma buildEmployeePrompt_throws (employee : obj) (e : exn) :
  buildEmployeePrompt employee = throw e -> e = not_primitive.
Proof.
  apply render_throw_kind. unfold employee_template.
  repeat first [ apply Forall_nil | apply Forall_cons ];
    try exact I; try (intros e0 H; discriminate H).
  intros e0. destruct (prop employee "skills") as [ | | b | n | s | l | o];
    try (intros H; discriminate H).
  destruct (join ", " l) as [e1 | joined] eqn:Hj; cbn [bind ret]; [ | discriminate ].
  intros H. injection H as <-. now apply (join_throw_kind ", " l).
Qed.

(* ===================================================================== *)
(** ** The analysis of an employee *)

Lemma console_log_name (label : string) (o : obj) :
  console_log [ Text label; Hole (ret (prop o "name")) ]
  = if printable (prop o "name") then ret tt else throw not_primitive.
Proof.
  unfold console_log. cbn [render bind ret].
  destruct (to_string_cases (prop o "name")) as [(s & -> & ->) | [-> ->]]; reflexivity.
Qed.

(** What [analyzeEmployee] returns, when it returns. *)
Lemma analyzeEmployee_result (this : OpenAIService) (employeeData : obj) (r : AnalysisResult) :
  analyzeEmployee this employeeData = ret r ->
  success r = true /\ In (source r) source_tags /\ schema_conformant (data r).
Proof.
  unfold analyzeEmployee. rewrite console_log_name.
  destruct (printable (prop employeeData "name")); cbn [bind ret]; [ | discriminate ].
  assert (forall r0, getMockEmployeeAnalysis employeeData = ret r0 ->
                     success r0 = true /\ In (source r0) source_tags /\
                     schema_conformant (data r0)) as Hmock.
  { intros r0 H0. apply getMockEmployeeAnalysis_result in H0 as (Hs & Hsrc & Hc).
    split; [ exact Hs | split; [ | exact Hc ] ].
    rewrite Hsrc. unfold source_tags. simpl. auto. }
  destruct (client this) as [create | ]; [ | apply Hmock ].
  destruct (buildEmployeePrompt employeeData) as [e | prompt]; cbn [bind]; [ discriminate | ].
  destruct (create (employee_request this prompt)) as [e | response];
    cbn [bind try_catch]; [ apply Hmock | ].
  destruct (reply_content response) as [e | content]; cbn [bind try_catch]; [ apply Hmock | ].
  destruct (parseEmployeeAnalysis content) as [e | r0] eqn:Hparse; cbn [try_catch];
    [ apply Hmock | ].
  intros H. injection H as <-.
  apply parseEmployeeAnalysis_result in Hparse as (Hs & Hsrc & Hc).
  split; [ exact Hs | split; [ | exact Hc ] ].
  unfold source_tags. simpl. intuition auto.
Qed.

(** [analyzeEmployee] returns for an employee whose properties convert. *)
Lemma analyzeEmployee_returns (this : OpenAIService) (employeeData : obj) :
  plain employeeData -> exists r, analyzeEmployee this employeeData = ret r.
Proof.
  intros Hp. unfold analyzeEmployee. rewrite console_log_name, (Hp "name"). cbn [bind ret].
  destruct (getMockEmployeeAnalysis_returns employeeData (Hp "position") (Hp "name"))
    as (mock & Hmock & _).
  destruct (client this) as [create | ]; [ | now exists mock ].
  destruct (buildEmployeePrompt_returns employeeData Hp) as [prompt ->]. cbn [bind ret].
  match goal with
  | |- context [try_catch ?b _] => destruct b as [e | r]
  end; cbn [try_catch]; [ now exists mock | now exists r ].
Qed.

(** What [analyzeEmployee] throws is the TypeError of a conversion. *)
Lemma analyzeEmployee_throws (this : OpenAIService) (employeeData : obj) (e : exn) :
  analyzeEmployee this employeeData = throw e -> e = not_primitive.
Proof.
  unfold analyzeEmployee. rewrite console_log_name.
  destruct (printable (prop employeeData "name")); cbn [bind ret];
    [ | intros H; now injection H as <- ].
  destruct (client this) as [create | ]; [ | apply getMockEmployeeAnalysis_throws ].
  destruct (buildEmployeePrompt employeeData) as [e0 | prompt] eqn:Hprompt; cbn [bind].
  - intros H. injection H as <-. now apply (buildEmployeePrompt_throws employeeData).
  - match goal with
    | |- context [try_catch ?b _] => destruct b as [e1 | r]
    end; cbn [try_catch]; [ apply getMockEmployeeAnalysis_throws | discriminate ].
Qed.





(* ===================================================================== *)
(** ** The source tag of each path *)

Lemma analyzeEmployee_with_client (this : OpenAIService) (create : ChatRequest -> M value)
    (employeeData : obj) (prompt : string) :
  client this = Some create ->
  printable (prop employeeData "name") = true ->
  buildEmployeePrompt employeeData = ret prompt ->
  analyzeEmployee this employeeData
  = try_catch
      (response <- create (employee_request this prompt) ;;
       content <- reply_content response ;;
       parseEmployeeAnalysis content)%js
      (fun _ => getMockEmployeeAnalysis employeeData).
Proof.
  intros Hc Hname Hprompt. unfold analyzeEmployee.
  rewrite console_log_name, Hname, Hc, Hprompt. reflexivity.
Qed.




(* ===================================================================== *)
(** ** The interpreter on replies of every kind *)

(** X1. On a reply that is a string the interpreter always returns.  The
    result is tagged "openai", with the validated fields, exactly when the
    extracted text parses and the validation of the parsed value returns;
    in every other case (the text does not parse, it parses to [null], or
    one of the four scores does not convert to a string) the result is
    tagged "openai-parsed" and carries the fixed scores of the text path
    with the first 200 code units of the reply, followed by three dots, as
    its development plan. *)
Theorem parseEmployeeAnalysis_on_text :
  forall reply : string,
  exists (text : string) (r : AnalysisResult),
    extractJSON (VStr reply) = ret text /\
    parseEmployeeAnalysis (VStr reply) = ret r /\
    success r = true /\
    match JSON_parse text with
    | inr parsed =>
        match validateEmployeeAnalysis parsed with
        | inr validated => source r = "openai" /\ data r = validated
        | inl _ => source r = "openai-parsed" /\ data r = text_payload reply
        end
    | inl _ => source r = "openai-parsed" /\ data r = text_payload reply
    end.
Proof.
  intros reply. destruct (extractJSON_string reply) as (text & Ht).
  exists text.
  rewrite parseEmployeeAnalysis_strict, parseEmployeeTextResponse_string.
  unfold strict_parse. rewrite Ht. cbn [bind ret].
  destruct (JSON_parse text) as [e | parsed]; cbn [bind].
  - eexists. repeat split.
  - destruct (validateEmployeeAnalysis parsed) as [e | validated];
      eexists; repeat split.
Qed.

(** X2. When the message of the provider's response has a content that is
    neither a string nor an array ([null], as for a refusal or a tool
    call, a number, an object), the interpreter throws inside its own
    fallback, and [analyzeEmployee], for an employee whose properties
    convert to a string, answers with the mock analysis, tagged "mock". *)
Theorem unreadable_content_gives_mock :
  forall (content : value) (employeeData : obj),
    sliceable content = false ->
    plain employeeData ->
    (exists e, parseEmployeeAnalysis content = throw e) /\
    exists mock : AnalysisResult,
      getMockEmployeeAnalysis employeeData = ret mock /\
      analyzeEmployee (content_service content) employeeData = ret mock /\
      source mock = "mock".
Proof.
  intros content employeeData Hs Hp.
  assert (exists e, parseEmployeeAnalysis content = throw e) as (e & He).
  { unfold parseEmployeeAnalysis, parseEmployeeTextResponse, excerpt.
    destruct content; simpl in Hs; try discriminate; cbn; eexists; reflexivity. }
  split; [ now exists e | ].
  destruct (getMockEmployeeAnalysis_returns employeeData (Hp "position") (Hp "name"))
    as (mock & Hmock & _ & Hsrc & _).
  destruct (buildEmployeePrompt_returns employeeData Hp) as [prompt Hprompt].
  exists mock. split; [ exact Hmock | split; [ | exact Hsrc ] ].
  rewrite (analyzeEmployee_with_client (content_service content) _ employeeData prompt
             eq_refl (Hp "name") Hprompt).
  change (try_catch (parseEmployeeAnalysis content)
            (fun _ => getMockEmployeeAnalysis employeeData) = ret mock).
  rewrite He. exact Hmock.
Qed.

Lemma unreadable_content_gives_mock_witness :
  exists mock : AnalysisResult,
    analyzeEmployee (content_service VNull) [("name", VStr "張小明")] = ret mock /\
    source mock = "mock".
Proof.
  destruct (unreadable_content_gives_mock VNull [("name", VStr "張小明")] eq_refl)
    as (_ & mock & _ & Hmock & Hsrc).
  - apply plain_b_plain. reflexivity.
  - exists mock. split; assumption.
Defined.

(* ===================================================================== *)
(** ** The analysis of a team *)





(** The entry of a member: it is made exactly when the member is neither
    [null] nor [undefined] and what it shows converts to a string; what
    it throws otherwise is a TypeError. *)
Lemma member_entry_cases (m : value) :
  match member_entry m with
  | inr _ => nullish m = false /\ printable_member m = true
  | inl e => ename e = "TypeError" /\ (nullish m = true \/ printable_member m = false)
  end.
Proof.
  unfold member_entry.
  destruct m as [ | | b | n | s | l | o];
    try (cbn; split; solve [ reflexivity | now left ]).
  cbn [render get bind ret printable_member nullish].
  destruct (to_string_cases (prop o "name")) as [(s1 & -> & ->) | [-> ->]];
    cbn [bind ret andb]; [ | split; [ reflexivity | now right ] ].
  unfold or_else.
  destruct (truthy (prop o "role")); cbn [bind ret];
    match goal with
    | |- context [to_string ?v] =>
        destruct (to_string_cases v) as [(s2 & -> & ->) | [-> ->]]
    end; cbn [bind ret];
    solve [ split; reflexivity | split; [ reflexivity | now right ] ].
Qed.

Lemma mapM_member_entry (l : list value) :
  forallb (fun m => negb (nullish m)) l = true ->
  forallb printable_member l = true ->
  exists entries, mapM member_entry l = ret entries.
Proof.
  induction l as [ | m l IH]; cbn [forallb mapM]; intros Hr Hp; [ now exists [] | ].
  apply andb_true_iff in Hr as [Hm Hr]. apply andb_true_iff in Hp as [Hpm Hp].
  destruct (IH Hr Hp) as [entries ->].
  pose proof (member_entry_cases m) as Hcase.
  destruct (member_entry m) as [e | entry].
  - destruct Hcase as [_ [Hn | Hn]].
    + rewrite Hn in Hm. discriminate.
    + rewrite Hn in Hpm. discriminate.
  - eexists. reflexivity.
Qed.

Lemma mapM_member_entry_kind (l : list value) : throws_TypeError_only (mapM member_entry l).
Proof.
  unfold throws_TypeError_only.
  induction l as [ | m l IH]; cbn [mapM]; intros e H; [ discriminate | ].
  pose proof (member_entry_cases m) as Hcase.
  destruct (member_entry m) as [e0 | entry]; cbn [bind] in H.
  - injection H as <-. apply Hcase.
  - destruct (mapM member_entry l) as [e1 | entries]; cbn [bind ret] in H;
      [ | discriminate ].
    injection H as <-. now apply IH.
Qed.

Lemma mapM_member_entry_throws (l : list value) :
  forallb (fun m => negb (nullish m)) l = false ->
  exists e, mapM member_entry l = throw e /\ ename e = "TypeError".
Proof.
  intros Hr.
  destruct (mapM member_entry l) as [e | entries] eqn:Hm.
  - exists e. split; [ reflexivity | ]. now apply (mapM_member_entry_kind l).
  - exfalso. revert entries Hm.
    induction l as [ | m l IH]; cbn [forallb mapM] in *; intros entries Hm;
      [ discriminate | ].
    pose proof (member_entry_cases m) as Hcase.
    destruct (member_entry m) as [e0 | entry]; cbn [bind] in Hm; [ discriminate | ].
    destruct Hcase as [Hn _]. rewrite Hn in Hr. cbn [negb andb] in Hr.
    destruct (mapM member_entry l) as [e1 | rest]; cbn [bind] in Hm; [ discriminate | ].
    now apply (IH Hr rest).
Qed.

Lemma buildTeamPrompt_returns (team : obj) :
  plain team ->
  printable (members_length (prop team "members")) = true ->
  readable_members team = true ->
  printable_members team = true ->
  exists prompt, buildTeamPrompt team = ret prompt.
Proof.
  intros Hp Hlen Hread Hprint.
  assert (exists membersList, members_list team = ret membersList) as [membersList Hm].
  { unfold members_list, readable_members, printable_members in *.
    destruct (prop team "members"); try (eexists; reflexivity).
    destruct (mapM_member_entry _ Hread Hprint) as [entries ->]. eexists. reflexivity. }
  unfold buildTeamPrompt. rewrite Hm. cbn [bind ret].
  apply render_returns. unfold team_template.
  repeat first [ apply Forall_nil | apply Forall_cons ];
    try apply ok_text;
    (eapply ok_hole;
     [ reflexivity
     | repeat apply printable_or_else; solve [ apply Hp | reflexivity | exact Hlen ] ]).
Qed.

Lemma buildTeamPrompt_unreadable (team : obj) :
  readable_members team = false ->
  exists e, buildTeamPrompt team = throw e /\ ename e = "TypeError".
Proof.
  intros Hread. unfold buildTeamPrompt, members_list, readable_members in *.
  destruct (prop team "members") eqn:Hp; try discriminate.
  destruct (mapM_member_entry_throws _ Hread) as (e & He & Hname). rewrite He.
  exists e. split; [ reflexivity | assumption ].
Qed.



(** X7. With a client configured, a team whose [members] hold [null] or
    [undefined] makes [analyzeTeam] throw a TypeError: the prompt is
    compiled before the [try], so the fallback does not apply, whatever
    the provider would have answered. *)
Theorem analyzeTeam_throws_on_unreadable_members :
  forall (this : OpenAIService) (create : ChatRequest -> M value) (teamData : obj),
    client this = Some create ->
    readable_members teamData = false ->
    exists e : exn,
      analyzeTeam this teamData = throw e /\ ename e = "TypeError".
Proof.
  intros this create teamData Hc Hread. unfold analyzeTeam.
  rewrite console_log_name, Hc.
  destruct (printable (prop teamData "name")); cbn [bind ret].
  - destruct (buildTeamPrompt_unreadable teamData Hread) as (e & He & Hname).
    rewrite He. exists e. split; [ reflexivity | assumption ].
  - exists not_primitive. split; reflexivity.
Qed.

Lemma analyzeTeam_throws_on_unreadable_members_witness :
  exists e : exn,
    analyzeTeam (replying_service "{}")
      [("name", VStr "前端開發團隊"); ("members", VArr [VNull])] = throw e /\
    ename e = "TypeError".
Proof.
  apply (analyzeTeam_throws_on_unreadable_members (replying_service "{}") _
           [("name", VStr "前端開發團隊"); ("members", VArr [VNull])] eq_refl eq_refl).
Defined.

(* ===================================================================== *)
(** ** The record log *)

Section Lists.
Context {A : Type}.

Lemma slice_last_short (n : nat) (l : list A) :
  (length l <= n)%nat -> slice_last n l = l.
Proof.
  intros H. unfold slice_last.
  replace (length l - n)%nat with 0%nat by lia. reflexivity.
Qed.

Lemma slice_last_length (n : nat) (l : list A) :
  length (slice_last n l) = Nat.min n (length l).
Proof.
  unfold slice_last. rewrite length_skipn. lia.
Qed.

Lemma slice_last_app (n : nat) (l l2 : list A) :
  slice_last n (slice_last n l ++ l2) = slice_last n (l ++ l2).
Proof.
  unfold slice_last.
  rewrite length_app, length_skipn, length_app.
  set (k := (length l - n)%nat).
  replace (skipn k l ++ l2)%list with (skipn k (l ++ l2)).
  - rewrite skipn_skipn. f_equal. lia.
  - rewrite skipn_app. f_equal.
    replace (k - length l)%nat with 0%nat by lia. reflexivity.
Qed.

Lemma slice_last_full (n : nat) (x : A) (l : list A) (y : A) :
  length (x :: l) = n -> slice_last n ((x :: l) ++ [y]) = (l ++ [y])%list.
Proof.
  intros H. unfold slice_last. rewrite length_app. simpl length.
  replace (S (length l) + 1 - n)%nat with 1%nat by (simpl in H; lia).
  reflexivity.
Qed.

Lemma firstn_subset (n : nat) (l : list A) (x : A) :
  In x (firstn n l) -> In x l.
Proof.
  intros H. rewrite <- (firstn_skipn n l). apply in_or_app. now left.
Qed.

Lemma In_slice_to (limit : number) (l : list A) (x : A) :
  In x (slice_to limit l) -> In x l.
Proof.
  unfold slice_to. destruct limit as [ | | | q]; try (intros []); [ auto | ].
  destruct (truncate q <? 0)%Z; apply firstn_subset.
Qed.

(** A slice is the front of the list. *)
Lemma slice_to_prefix (limit : number) (l : list A) :
  exists rest, l = (slice_to limit l ++ rest)%list.
Proof.
  unfold slice_to. destruct limit as [ | | | q].
  - now exists l.
  - exists []. now rewrite app_nil_r.
  - now exists l.
  - destruct (truncate q <? 0)%Z; eexists; symmetry; apply firstn_skipn.
Qed.

Lemma truncate_bounds (q : Q) :
  (0 <= q)%Q -> (0 <= truncate q)%Z /\ (inject_Z (truncate q) <= q)%Q.
Proof.
  destruct q as [n d]. unfold Qle, truncate, inject_Z. cbn [Qnum Qden].
  intros H. assert (0 <= n)%Z as Hn by lia.
  rewrite Z.quot_div_nonneg by lia. split.
  - apply Z.div_pos; lia.
  - pose proof (Z.mul_div_le n (Zpos d)). lia.
Qed.

Lemma slice_to_length (q : Q) (l : list A) :
  (0 <= q)%Q ->
  length (slice_to (Fin q) l) = Nat.min (Z.to_nat (truncate q)) (length l).
Proof.
  intros H. destruct (truncate_bounds q H) as [Hpos _]. unfold slice_to.
  destruct (truncate q <? 0)%Z eqn:Hneg; [ apply Z.ltb_lt in Hneg; lia | ].
  apply length_firstn.
Qed.

Lemma disjoint_halves {B : Type} (f : A -> B) (l1 l2 : list A) (x : A) :
  NoDup (map f (l1 ++ l2)) -> In x l1 -> In x l2 -> False.
Proof.
  induction l1 as [ | a l1 IH]; simpl; intros Hnd H1 H2; [ assumption | ].
  inversion Hnd as [ | ? ? Hnotin Hnd']; subst.
  destruct H1 as [-> | H1].
  - apply Hnotin. apply in_map. apply in_or_app. now right.
  - apply IH; assumption.
Qed.
End Lists.

Lemma distinct_NoDup (l : list string) : distinct l = true -> NoDup l.
Proof.
  induction l as [ | x l IH]; simpl; intros H; [ constructor | ].
  apply andb_true_iff in H as [Hx Hl].
  constructor; [ | auto ].
  intros Hin. apply negb_true_iff in Hx.
  assert (existsb (String.eqb x) l = true) as Hex; [ | congruence ].
  apply existsb_exists. exists x. split; [ assumption | apply String.eqb_refl ].
Qed.

Lemma saveAnalysis_returns (a : Append) (fs : Files) :
  fst (saveAnalysis (a_uuid a) (a_now a) (a_type a) (a_targetId a)
                    (a_analysis a) (a_metadata a) fs) = ret (appended a).
Proof. reflexivity. Qed.

Lemma log_append (a : Append) (fs : Files) :
  log (append a fs) = slice_last max_records (log fs ++ [appended a]).
Proof.
  unfold append, saveAnalysis, log. cbn [snd analysesFile].
  change (match analysesFile fs with Some l => l | None => [] end) with (log fs).
  fold (appended a).
  destruct (max_records <? length (log fs ++ [appended a]))%nat eqn:Hcap.
  - reflexivity.
  - apply Nat.ltb_ge in Hcap. symmetry. apply slice_last_short. assumption.
Qed.

Lemma employeesFile_append (a : Append) (fs : Files) :
  employeesFile (append a fs) = employeesFile fs.
Proof. reflexivity. Qed.

Lemma log_append_capped (a : Append) (fs : Files) :
  (length (log (append a fs)) <= max_records)%nat.
Proof.
  rewrite log_append, slice_last_length. lia.
Qed.

Lemma log_appends (calls : list Append) (fs : Files) :
  (length (log fs) <= max_records)%nat ->
  log (appends calls fs) = slice_last max_records (log fs ++ map appended calls).
Proof.
  revert fs. induction calls as [ | a calls IH]; intros fs Hcap.
  - simpl. rewrite app_nil_r. symmetry. apply slice_last_short. assumption.
  - cbn [appends fold_left map]. fold (appends calls (append a fs)).
    rewrite IH by apply log_append_capped.
    rewrite log_append, slice_last_app, <- app_assoc. reflexivity.
Qed.

(* ===================================================================== *)
(** ** History queries *)

Lemma insert_desc_perm (a : AnalysisRecord) (l : list AnalysisRecord) :
  Permutation (insert_desc a l) (a :: l).
Proof.
  induction l as [ | b l IH]; simpl; [ reflexivity | ].
  destruct (timestamp (metadata b) - timestamp (metadata a) <=? 0)%Z;
    [ reflexivity | ].
  rewrite IH. apply perm_swap.
Qed.

Lemma sort_desc_perm (l : list AnalysisRecord) : Permutation (sort_desc l) l.
Proof.
  induction l as [ | a l IH]; simpl; [ reflexivity | ].
  rewrite insert_desc_perm. now apply perm_skip.
Qed.

Lemma insert_desc_sorted (a : AnalysisRecord) (l : list AnalysisRecord) :
  StronglySorted newer_or_same l -> StronglySorted newer_or_same (insert_desc a l).
Proof.
  induction l as [ | b l IH]; simpl; intros Hs.
  - repeat constructor.
  - inversion Hs as [ | ? ? Hl Hb]; subst.
    destruct (timestamp (metadata b) - timestamp (metadata a) <=? 0)%Z eqn:Hcmp.
    + apply Z.leb_le in Hcmp. constructor; [ assumption | ].
      constructor.
      * unfold newer_or_same. lia.
      * eapply Forall_impl; [ | exact Hb ].
        unfold newer_or_same. intros c Hc. lia.
    + apply Z.leb_gt in Hcmp. constructor; [ auto | ].
      eapply Permutation_Forall; [ symmetry; apply insert_desc_perm | ].
      constructor; [ unfold newer_or_same; lia | assumption ].
Qed.

Lemma sort_desc_sorted (l : list AnalysisRecord) :
  StronglySorted newer_or_same (sort_desc l).
Proof.
  induction l as [ | a l IH]; simpl; [ constructor | ].
  now apply insert_desc_sorted.
Qed.

Lemma StronglySorted_firstn {A} (R : A -> A -> Prop) (n : nat) (l : list A) :
  StronglySorted R l -> StronglySorted R (firstn n l).
Proof.
  revert n. induction l as [ | a l IH]; intros [ | n] Hs; simpl; try constructor.
  - inversion Hs; subst. auto.
  - inversion Hs as [ | ? ? _ Hall]; subst.
    rewrite Forall_forall in *. intros x Hx. apply Hall.
    eapply firstn_subset; eassumption.
Qed.

Lemma StronglySorted_slice_to {A} (R : A -> A -> Prop) (limit : number) (l : list A) :
  StronglySorted R l -> StronglySorted R (slice_to limit l).
Proof.
  intros Hs. unfold slice_to. destruct limit as [ | | | q]; try constructor; [ exact Hs | ].
  destruct (truncate q <? 0)%Z; now apply StronglySorted_firstn.
Qed.

Lemma getAnalysisHistory_log (type0 : string) (targetId0 : value) (limit : number)
    (fs : Files) :
  getAnalysisHistory type0 targetId0 limit fs
  = slice_to limit (sort_desc (filter (matches type0 targetId0) (log fs))).
Proof.
  unfold getAnalysisHistory, log.
  destruct (analysesFile fs) as [analyses | ]; [ reflexivity | ].
  cbn [filter sort_desc fold_right]. unfold slice_to.
  destruct limit as [ | | | q]; try reflexivity.
  destruct (truncate q <? 0)%Z; symmetry; apply firstn_nil.
Qed.

Lemma history_in_log (type0 : string) (targetId0 : value) (limit : number)
    (fs : Files) (r : AnalysisRecord) :
  In r (getAnalysisHistory type0 targetId0 limit fs) ->
  In r (log fs) /\ matches type0 targetId0 r = true.
Proof.
  unfold getAnalysisHistory, log.
  destruct (analysesFile fs) as [analyses | ]; [ | intros [] ].
  intros Hin. apply In_slice_to in Hin.
  eapply Permutation_in in Hin; [ | apply sort_desc_perm ].
  apply filter_In in Hin. exact Hin.
Qed.

(* ===================================================================== *)
(** ** The cap of the log *)

(** C3. Starting with no log file, after any sequence of calls of
    [saveAnalysis]: the log holds at most 1000 records; it is the last
    1000 of the records created, in the order of creation; a further call
    on a full log drops its first record and adds the new one at the end;
    and, the generated ids being distinct, no record that has been dropped
    is returned by a history query, whatever its arguments. *)
Theorem saveAnalysis_keeps_the_last_1000 :
  forall (employees : option (list obj)) (calls : list Append),
    let fs := appends calls {| employeesFile := employees; analysesFile := None |} in
    let records := map appended calls in
    (length (log fs) <= 1000)%nat /\
    log fs = slice_last 1000 records /\
    (forall a : Append,
        length (log fs) = 1000%nat ->
        exists oldest rest,
          log fs = oldest :: rest /\
          log (append a fs) = (rest ++ [appended a])%list) /\
    (NoDup (map a_uuid calls) ->
     forall r : AnalysisRecord,
       In r (firstn (length records - 1000) records) ->
       forall (type0 : string) (targetId0 : value) (limit : number),
         ~ In r (getAnalysisHistory type0 targetId0 limit fs)).
Proof.
  intros employees calls fs records.
  change 1000%nat with max_records.
  assert (log fs = slice_last max_records records) as Hlog.
  { unfold fs. rewrite log_appends by (simpl; lia). reflexivity. }
  split; [ rewrite Hlog, slice_last_length; lia | ].
  split; [ exact Hlog | ].
  split.
  - intros a Hfull.
    destruct (log fs) as [ | oldest rest] eqn:Hl.
    + simpl in Hfull. unfold max_records in Hfull. discriminate.
    + exists oldest, rest. split; [ reflexivity | ].
      rewrite log_append, Hl. apply slice_last_full. assumption.
  - intros Hnd r Hold type0 targetId0 limit Hin.
    apply history_in_log in Hin as [Hin _].
    rewrite Hlog in Hin. unfold slice_last in Hin.
    apply (disjoint_halves id
             (firstn (length records - max_records) records)
             (skipn (length records - max_records) records) r); try assumption.
    rewrite firstn_skipn. unfold records. rewrite map_map.
    exact Hnd.
Qed.

Lemma saveAnalysis_keeps_the_last_1000_witness :
  let calls := map sample_call (seq 0 1001) in
  let fs := appends calls no_files in
  length (log fs) = 1000%nat /\
  ~ In (appended (sample_call 0)) (getAnalysisHistory "employee" (VStr "1") (Fin 2000) fs).
Proof.
  intros calls fs. split.
  - vm_compute. reflexivity.
  - apply (proj2 (proj2 (proj2 (saveAnalysis_keeps_the_last_1000 None calls)))).
    + apply distinct_NoDup. vm_compute. reflexivity.
    + left. reflexivity.
Defined.

(* ===================================================================== *)
(** ** Order and length of a history *)

Lemma matches_spec (type0 : string) (targetId0 : value) (r : AnalysisRecord) :
  matches type0 targetId0 r = true ->
  type r = type0 /\ strict_eq (targetId r) targetId0 = true.
Proof.
  unfold matches. intros H. apply andb_true_iff in H as [Ht Hi].
  split; [ now apply String.eqb_eq | assumption ].
Qed.

Lemma filter_none {A} (f : A -> bool) (l : list A) :
  (forall x, In x l -> f x = false) -> filter f l = [].
Proof.
  induction l as [ | a l IH]; simpl; intros H; [ reflexivity | ].
  rewrite (H a) by now left. apply IH. intros x Hx. apply H. now right.
Qed.

Lemma none_matches (type0 : string) (targetId0 : value) (l : list AnalysisRecord) :
  existsb (matches type0 targetId0) l = false ->
  forall r, In r l -> matches type0 targetId0 r = false.
Proof.
  intros Hex r Hr.
  destruct (matches type0 targetId0 r) eqn:Hm; [ | reflexivity ].
  rewrite <- Hex. symmetry. apply existsb_exists. now exists r.
Qed.

Lemma strictly_sorted_timestamps (l : list AnalysisRecord) :
  StronglySorted strictly_newer l ->
  StronglySorted Z.gt (map (fun r => timestamp (metadata r)) l).
Proof.
  induction 1 as [ | a l _ IH Hall]; simpl; constructor; [ assumption | ].
  rewrite Forall_map. eapply Forall_impl; [ | exact Hall ].
  unfold strictly_newer. intros b Hb. lia.
Qed.

Lemma StronglySorted_app_cross {A} (R : A -> A -> Prop) (l1 l2 : list A) :
  StronglySorted R (l1 ++ l2)%list ->
  forall x y, In x l1 -> In y l2 -> R x y.
Proof.
  induction l1 as [ | a l1 IH]; cbn [app]; intros Hs x y Hx Hy; [ destruct Hx | ].
  inversion Hs as [ | ? ? Hrest Hall]; subst.
  destruct Hx as [<- | Hx].
  - rewrite Forall_forall in Hall. apply Hall. apply in_or_app. now right.
  - now apply (IH Hrest).
Qed.

Lemma sort_desc_length (l : list AnalysisRecord) : length (sort_desc l) = length l.
Proof.
  apply Permutation_length, sort_desc_perm.
Qed.

(** C4. Whatever the log holds, a history query returns only records of
    the log that match the kind and the id, newest first, in an order that
    is descending but need not be strictly so; what it returns are the
    newest of the matching records: no matching record that it leaves out
    is newer than one that it returns; with a limit that is not negative
    it returns as many records as the limit, truncated to an integer,
    allows, or every matching record when there are fewer, so at most
    limit of them; and when no record matches, or there is no log file,
    it returns the empty list. *)
Theorem getAnalysisHistory_newest_first :
  forall (fs : Files) (type0 : string) (targetId0 : value) (limit : number),
    let matching := filter (matches type0 targetId0) (log fs) in
    let history := getAnalysisHistory type0 targetId0 limit fs in
    (forall r : AnalysisRecord,
        In r history ->
        In r (log fs) /\ type r = type0 /\ strict_eq (targetId r) targetId0 = true) /\
    StronglySorted newer_or_same history /\
    (exists older : list AnalysisRecord,
        Permutation (history ++ older) matching /\
        forall r r', In r history -> In r' older -> newer_or_same r r') /\
    (forall q : Q,
        limit = Fin q -> (0 <= q)%Q ->
        length history = Nat.min (Z.to_nat (truncate q)) (length matching) /\
        (inject_Z (Z.of_nat (length history)) <= q)%Q) /\
    ((forall r, In r (log fs) -> matches type0 targetId0 r = false) -> history = []).
Proof.
  intros fs type0 targetId0 limit matching history.
  assert (history = slice_to limit (sort_desc matching)) as Hhistory
    by apply getAnalysisHistory_log.
  split; [ | split; [ | split; [ | split ] ] ].
  - intros r H. apply history_in_log in H as [Hin Hm].
    apply matches_spec in Hm. tauto.
  - rewrite Hhistory. apply StronglySorted_slice_to, sort_desc_sorted.
  - destruct (slice_to_prefix limit (sort_desc matching)) as [older Holder].
    rewrite <- Hhistory in Holder. exists older. split.
    + rewrite <- Holder. apply sort_desc_perm.
    + apply StronglySorted_app_cross. rewrite <- Holder. apply sort_desc_sorted.
  - intros q -> Hq.
    assert (length history = Nat.min (Z.to_nat (truncate q)) (length matching)) as Hlen.
    { rewrite Hhistory, slice_to_length, sort_desc_length by exact Hq. reflexivity. }
    split; [ exact Hlen | ].
    destruct (truncate_bounds q Hq) as [Hpos Hle].
    apply Qle_trans with (inject_Z (truncate q)); [ | exact Hle ].
    rewrite <- Zle_Qle. lia.
  - intros Hnone. rewrite Hhistory. unfold matching.
    rewrite (filter_none _ _ Hnone). cbn [sort_desc fold_right].
    destruct (slice_to_prefix limit (@nil AnalysisRecord)) as [rest Hrest].
    destruct (slice_to limit []); [ reflexivity | discriminate ].
Qed.

Lemma getAnalysisHistory_newest_first_witness :
  let fs := appends (map sample_call (seq 0 5)) no_files in
  let history := getAnalysisHistory "employee" (VStr "1") (Fin 3) fs in
  map id history = ["analysis-4"; "analysis-3"; "analysis-2"] /\
  length history = 3%nat /\
  getAnalysisHistory "employee" (VStr "7") (Fin 3) fs = [].
Proof.
  intros fs history. split; [ vm_compute; reflexivity | split ].
  - destruct (getAnalysisHistory_newest_first fs "employee" (VStr "1") (Fin 3))
      as (_ & _ & _ & Hlen & _).
    destruct (Hlen 3%Q eq_refl) as [Hmin _]; [ unfold Qle; simpl; lia | ].
    fold history in Hmin. rewrite Hmin. vm_compute. reflexivity.
  - apply (getAnalysisHistory_newest_first fs "employee" (VStr "7") (Fin 3)).
    apply none_matches. vm_compute. reflexivity.
Defined.

(** Two records saved for one employee within one
    millisecond are both returned, and neither is strictly newer than the
    other. *)
Lemma history_not_strictly_descending :
  ~ StronglySorted strictly_newer
      (getAnalysisHistory "employee" (VStr "1") (Fin 10)
         (appends same_instant_calls no_files)).
Proof.
  intros Hs. apply strictly_sorted_timestamps in Hs.
  assert (map (fun r => timestamp (metadata r))
              (getAnalysisHistory "employee" (VStr "1") (Fin 10)
                 (appends same_instant_calls no_files))
          = [1700000000000; 1700000000000]%Z) as Hts
    by (vm_compute; reflexivity).
  rewrite Hts in Hs.
  inversion Hs as [ | ? ? _ Hall]; subst.
  inversion Hall as [ | ? ? Hlt _]; subst.
  lia.
Qed.

(** A negative limit does not bound the result: it drops that many of
    the oldest matches. *)
Lemma history_negative_limit :
  map id (getAnalysisHistory "employee" (VStr "1") (Fin (-1))
            (appends (map sample_call (seq 0 3)) no_files))
  = ["analysis-2"; "analysis-1"].
Proof. vm_compute. reflexivity. Qed.

(* ===================================================================== *)
(** ** Statistics *)

Lemma count_cons {A} (f : A -> bool) (a : A) (l : list A) :
  count f (a :: l) = ((if f a then 1 else 0) + count f l)%nat.
Proof.
  unfold count. simpl. destruct (f a); reflexivity.
Qed.

Lemma count_app {A} (f : A -> bool) (l1 l2 : list A) :
  count f (l1 ++ l2) = (count f l1 + count f l2)%nat.
Proof.
  unfold count. rewrite filter_app, length_app. reflexivity.
Qed.

(** The three buckets and the tag of the parse fallback exclude one
    another. *)
Lemma source_buckets_exclusive (s : string) :
  ((if String.eqb s "openai" then 1 else 0) +
   (if String.eqb s "mock" then 1 else 0) +
   (if includes "fallback" s then 1 else 0) +
   (if String.eqb s "openai-parsed" then 1 else 0) <= 1)%nat.
Proof.
  destruct (String.eqb s "openai") eqn:H1;
    [ apply String.eqb_eq in H1; subst; vm_compute; lia | ].
  destruct (String.eqb s "mock") eqn:H2;
    [ apply String.eqb_eq in H2; subst; vm_compute; lia | ].
  destruct (String.eqb s "openai-parsed") eqn:H3;
    [ apply String.eqb_eq in H3; subst; vm_compute; lia | ].
  destruct (includes "fallback" s); lia.
Qed.

Lemma by_source_bound (l : list AnalysisRecord) :
  (count (fun a => String.eqb (meta_source (metadata a)) "openai") l +
   count (fun a => String.eqb (meta_source (metadata a)) "mock") l +
   count (fun a => includes "fallback" (meta_source (metadata a))) l +
   count (fun a => String.eqb (meta_source (metadata a)) "openai-parsed") l
   <= length l)%nat.
Proof.
  induction l as [ | a l IH]; [ unfold count; simpl; lia | ].
  rewrite !count_cons. simpl length.
  pose proof (source_buckets_exclusive (meta_source (metadata a))). lia.
Qed.

(** C10. The statistics count a record under [openai] or [mock] when its
    source is exactly that tag and under [fallback] when its source
    contains that word, so the three counts and the number of records
    tagged "openai-parsed" together never exceed the total; a reply that
    does not parse is tagged "openai-parsed"; saving such a result, with
    a metadata argument that gives no source of its own, in a log below
    its cap adds one to the total and nothing to the three counts;
    and there is a run of the analyze handler after which the three counts
    sum to 0 while the total is 1. *)
Theorem stats_by_source_misses_parsed_replies :
  (forall (cal : Calendar) (now : Z) (fs : Files),
      let s := getAnalysisStats cal now fs in
      total s = length (log fs) /\
      bySource_openai s =
        count (fun a => String.eqb (meta_source (metadata a)) "openai") (log fs) /\
      bySource_mock s =
        count (fun a => String.eqb (meta_source (metadata a)) "mock") (log fs) /\
      bySource_fallback s =
        count (fun a => includes "fallback" (meta_source (metadata a))) (log fs) /\
      (bySource_openai s + bySource_mock s + bySource_fallback s +
       count (fun a => String.eqb (meta_source (metadata a)) "openai-parsed") (log fs)
       <= total s)%nat) /\
  (forall (reply text : string) (e : exn),
      extractJSON (VStr reply) = ret text ->
      JSON_parse text = throw e ->
      exists r, parseEmployeeAnalysis (VStr reply) = ret r /\ source r = "openai-parsed") /\
  (forall (cal : Calendar) (now : Z) (fs : Files) (a : Append),
      source (a_analysis a) = "openai-parsed" ->
      given_source (a_metadata a) = None ->
      (length (log fs) < 1000)%nat ->
      let before := getAnalysisStats cal now fs in
      let after := getAnalysisStats cal now (append a fs) in
      total after = S (total before) /\
      bySource_openai after = bySource_openai before /\
      bySource_mock after = bySource_mock before /\
      bySource_fallback after = bySource_fallback before) /\
  (exists (env : Env) (req : Request),
      forall (cal : Calendar) (now : Z),
        let s := getAnalysisStats cal now (snd (post_analyze env req no_files)) in
        total s = 1%nat /\
        (bySource_openai s + bySource_mock s + bySource_fallback s = 0)%nat).
Proof.
  assert (forall cal now fs,
             let s := getAnalysisStats cal now fs in
             total s = length (log fs) /\
             bySource_openai s =
               count (fun a => String.eqb (meta_source (metadata a)) "openai") (log fs) /\
             bySource_mock s =
               count (fun a => String.eqb (meta_source (metadata a)) "mock") (log fs) /\
             bySource_fallback s =
               count (fun a => includes "fallback" (meta_source (metadata a))) (log fs))
    as Hfields.
  { intros cal now fs. unfold getAnalysisStats, log.
    destruct (analysesFile fs); simpl; repeat split; reflexivity. }
  split; [ | split; [ | split ] ].
  - intros cal now fs s.
    destruct (Hfields cal now fs) as (Ht & Ho & Hm & Hf). fold s in Ht, Ho, Hm, Hf.
    repeat (split; [ assumption | ]).
    rewrite Ht, Ho, Hm, Hf. apply by_source_bound.
  - intros reply text e Ht Hparse.
    rewrite parseEmployeeAnalysis_strict, parseEmployeeTextResponse_string.
    unfold strict_parse. rewrite Ht. cbn [bind ret]. rewrite Hparse. cbn [bind ret].
    eexists. split; reflexivity.
  - intros cal now fs a Hsrc Hgiven Hroom before after.
    destruct (Hfields cal now fs) as (Ht & Ho & Hm & Hf).
    destruct (Hfields cal now (append a fs)) as (Ht' & Ho' & Hm' & Hf').
    fold before in Ht, Ho, Hm, Hf. fold after in Ht', Ho', Hm', Hf'.
    assert (log (append a fs) = (log fs ++ [appended a])%list) as Hlog.
    { rewrite log_append. apply slice_last_short.
      rewrite length_app. simpl. unfold max_records. lia. }
    rewrite Ht', Ho', Hm', Hf', Ht, Ho, Hm, Hf, Hlog.
    rewrite !count_app, length_app. unfold count.
    cbn [filter appended metadata meta_source length]. rewrite Hgiven. cbn [given_or].
    rewrite Hsrc. simpl.
    repeat split; lia.
  - exists (sample_env (replying_service "抱歉，我無法提供分析。")),
           (sample_request "1" []).
    intros cal now s.
    destruct (Hfields cal now
                (snd (post_analyze (sample_env (replying_service "抱歉，我無法提供分析。"))
                        (sample_request "1" []) no_files)))
      as (Ht & Ho & Hm & Hf).
    fold s in Ht, Ho, Hm, Hf. rewrite Ht, Ho, Hm, Hf.
    vm_compute. split; reflexivity.
Qed.

Lemma stats_by_source_misses_parsed_replies_witness :
  let a := {| a_uuid := "analysis-p"; a_now := 1700000000000%Z; a_type := "employee";
              a_targetId := VStr "1";
              a_analysis := {| success := true; data := text_payload "抱歉，我無法提供分析。";
                               source := "openai-parsed" |};
              a_metadata := plain_metadata [("requestId", VStr "unknown")] |} in
  let cal := {| getMonth := fun _ => 10%Z; getFullYear := fun _ => 2023%Z |} in
  let after := getAnalysisStats cal 1700000000000%Z (append a no_files) in
  total after = 1%nat /\
  bySource_openai after = 0%nat /\
  bySource_mock after = 0%nat /\
  bySource_fallback after = 0%nat.
Proof.
  intros a cal after.
  destruct stats_by_source_misses_parsed_replies as (_ & _ & Happend & _).
  destruct (Happend cal 1700000000000%Z no_files a eq_refl eq_refl) as (Ht & Ho & Hm & Hf).
  - vm_compute. lia.
  - unfold after. rewrite Ht, Ho, Hm, Hf. repeat split.
Defined.

(* ===================================================================== *)
(** ** The latest analysis *)

Lemma hd_insert_desc (a : AnalysisRecord) (l : list AnalysisRecord) :
  hd_error (insert_desc a l) =
  match hd_error l with
  | None => Some a
  | Some b => if (time_of b - time_of a <=? 0)%Z then Some a else Some b
  end.
Proof.
  destruct l as [ | b l]; simpl; [ reflexivity | ].
  unfold time_of. destruct (_ <=? 0)%Z; reflexivity.
Qed.

Lemma hd_sort_desc_in (l : list AnalysisRecord) (r : AnalysisRecord) :
  hd_error (sort_desc l) = Some r -> In r l.
Proof.
  intros H. eapply Permutation_in; [ apply sort_desc_perm | ].
  destruct (sort_desc l); simpl in H; [ discriminate | ].
  injection H as ->. now left.
Qed.

Lemma hd_sort_desc_newest (l : list AnalysisRecord) (r : AnalysisRecord) :
  hd_error (sort_desc l) = Some r ->
  forall r', In r' l -> (time_of r' <= time_of r)%Z.
Proof.
  intros H r' Hin.
  pose proof (sort_desc_sorted l) as Hs.
  eapply Permutation_in in Hin; [ | symmetry; apply sort_desc_perm ].
  destruct (sort_desc l) as [ | b rest]; simpl in H; [ discriminate | ].
  injection H as ->.
  inversion Hs as [ | ? ? _ Hall]; subst.
  destruct Hin as [<- | Hin]; [ lia | ].
  rewrite Forall_forall in Hall. apply Hall in Hin.
  unfold newer_or_same, time_of in *. lia.
Qed.

Lemma hd_sort_desc_none (l : list AnalysisRecord) :
  hd_error (sort_desc l) = None -> l = [].
Proof.
  intros H. apply Permutation_nil.
  pose proof (sort_desc_perm l) as Hp.
  destruct (sort_desc l); [ exact Hp | discriminate ].
Qed.

Lemma hd_sort_snoc_newer (l : list AnalysisRecord) (x : AnalysisRecord) :
  (forall r, In r l -> (time_of r < time_of x)%Z) ->
  hd_error (sort_desc (l ++ [x])%list) = Some x.
Proof.
  induction l as [ | a l IH]; intros Hall; [ reflexivity | ].
  cbn [app sort_desc fold_right]. fold (sort_desc (l ++ [x])%list).
  rewrite hd_insert_desc, IH by (intros r Hr; apply Hall; now right).
  specialize (Hall a (or_introl eq_refl)).
  destruct (time_of x - time_of a <=? 0)%Z eqn:Hc; [ | reflexivity ].
  apply Z.leb_le in Hc. lia.
Qed.

Lemma hd_sort_snoc_older (l : list AnalysisRecord) (x : AnalysisRecord) :
  existsb (fun r => (time_of x <=? time_of r)%Z) l = true ->
  hd_error (sort_desc (l ++ [x])%list) = hd_error (sort_desc l).
Proof.
  induction l as [ | a l IH]; intros Hex; [ discriminate | ].
  cbn [app sort_desc fold_right].
  fold (sort_desc (l ++ [x])%list). fold (sort_desc l).
  rewrite !hd_insert_desc.
  destruct (existsb (fun r => (time_of x <=? time_of r)%Z) l) eqn:Hl.
  - now rewrite IH.
  - cbn [existsb] in Hex. rewrite Hl, orb_false_r in Hex. apply Z.leb_le in Hex.
    rewrite hd_sort_snoc_newer.
    + destruct (hd_error (sort_desc l)) as [b | ] eqn:Hb.
      * apply hd_sort_desc_in in Hb.
        assert ((time_of x <=? time_of b)%Z = false) as Hxb.
        { destruct (time_of x <=? time_of b)%Z eqn:E; [ | reflexivity ].
          rewrite <- Hl. symmetry. apply existsb_exists. now exists b. }
        apply Z.leb_gt in Hxb.
        destruct (time_of x - time_of a <=? 0)%Z eqn:E1;
          destruct (time_of b - time_of a <=? 0)%Z eqn:E2; try reflexivity;
          try apply Z.leb_le in E1; try apply Z.leb_gt in E1;
          try apply Z.leb_le in E2; try apply Z.leb_gt in E2; lia.
      * destruct (time_of x - time_of a <=? 0)%Z eqn:E1; [ reflexivity | ].
        apply Z.leb_gt in E1. lia.
    + intros r Hr.
      destruct (time_of x <=? time_of r)%Z eqn:E; [ | now apply Z.leb_gt in E ].
      exfalso. rewrite <- Hl in *.
      assert (existsb (fun r0 => (time_of x <=? time_of r0)%Z) l = true)
        by (apply existsb_exists; now exists r).
      congruence.
Qed.

Lemma getLatestAnalysis_head (type0 : string) (targetId0 : value) (fs : Files) :
  getLatestAnalysis type0 targetId0 fs
  = hd_error (sort_desc (filter (matches type0 targetId0) (log fs))).
Proof.
  unfold getLatestAnalysis, getAnalysisHistory, log.
  destruct (analysesFile fs) as [l | ]; [ | reflexivity ].
  destruct (sort_desc (filter (matches type0 targetId0) l)); reflexivity.
Qed.

(** X14. [getLatestAnalysis] returns a record of the log that matches the
    kind and the id and that no matching record of the log is newer than;
    it returns nothing exactly when no record of the log matches. *)
Theorem getLatestAnalysis_is_newest :
  forall (type0 : string) (targetId0 : value) (fs : Files),
    match getLatestAnalysis type0 targetId0 fs with
    | Some r =>
        In r (log fs) /\
        matches type0 targetId0 r = true /\
        forall r', In r' (log fs) -> matches type0 targetId0 r' = true ->
                   (time_of r' <= time_of r)%Z
    | None => forall r', In r' (log fs) -> matches type0 targetId0 r' = false
    end.
Proof.
  intros type0 targetId0 fs. rewrite getLatestAnalysis_head.
  destruct (hd_error (sort_desc (filter (matches type0 targetId0) (log fs))))
    as [r | ] eqn:Hh.
  - pose proof (hd_sort_desc_in _ _ Hh) as Hin. apply filter_In in Hin as [Hin Hm].
    repeat split; try assumption.
    intros r' Hin' Hm'. apply (hd_sort_desc_newest _ _ Hh).
    apply filter_In. now split.
  - apply hd_sort_desc_none in Hh. intros r' Hin'.
    destruct (matches type0 targetId0 r') eqn:Hm; [ | reflexivity ].
    assert (In r' (filter (matches type0 targetId0) (log fs))) as Hf
      by (apply filter_In; now split).
    rewrite Hh in Hf. destruct Hf.
Qed.

Lemma filter_snoc {A} (f : A -> bool) (l : list A) (x : A) :
  filter f (l ++ [x])%list = if f x then (filter f l ++ [x])%list else filter f l.
Proof.
  rewrite filter_app. simpl. destruct (f x); [ reflexivity | apply app_nil_r ].
Qed.

Lemma log_append_cases (a : Append) (fs : Files) :
  (log (append a fs) = (log fs ++ [appended a])%list /\ (length (log fs) < max_records)%nat) \/
  (exists rest, log (append a fs) = (rest ++ [appended a])%list /\
                (max_records <= length (log fs))%nat /\
                forall r, In r rest -> In r (log fs)).
Proof.
  rewrite log_append.
  destruct (Nat.ltb (length (log fs)) max_records) eqn:Hc.
  - apply Nat.ltb_lt in Hc. left. split; [ | assumption ].
    apply slice_last_short. rewrite length_app. simpl. lia.
  - apply Nat.ltb_ge in Hc. right.
    unfold slice_last. rewrite length_app. cbn [length].
    set (k := (length (log fs) + 1 - max_records)%nat).
    exists (skipn k (log fs)). split; [ | split; [ assumption | ] ].
    + rewrite skipn_app.
      replace (k - length (log fs))%nat with 0%nat by (unfold k, max_records in *; lia).
      reflexivity.
    + intros r Hr. rewrite <- (firstn_skipn k (log fs)). apply in_or_app. now right.
Qed.




(** X16. With room in the log, if some stored record of the same kind and
    id is as new as the record that [saveAnalysis] saves or newer (the
    same millisecond included), [getLatestAnalysis] after the save is what
    it was before: the record just saved is not the latest. *)
Theorem saveAnalysis_not_latest_on_tie :
  forall (a : Append) (fs : Files),
    strict_eq (a_targetId a) (a_targetId a) = true ->
    (length (log fs) < 1000)%nat ->
    (exists r, In r (log fs) /\
               matches (a_type a) (a_targetId a) r = true /\
               (time_of (appended a) <= time_of r)%Z) ->
    getLatestAnalysis (a_type a) (a_targetId a) (append a fs)
    = getLatestAnalysis (a_type a) (a_targetId a) fs.
Proof.
  intros a fs Hid Hroom (r & Hr & Hrm & Hnew). rewrite !getLatestAnalysis_head.
  assert (matches (a_type a) (a_targetId a) (appended a) = true) as Hm.
  { unfold matches. simpl. now rewrite String.eqb_refl, Hid. }
  destruct (log_append_cases a fs) as [[Hlog _] | (rest & _ & Hfull & _)].
  2: { unfold max_records in Hfull. lia. }
  rewrite Hlog, filter_snoc, Hm.
  apply hd_sort_snoc_older. apply existsb_exists. exists r.
  split; [ apply filter_In; now split | ].
  apply Z.leb_le. exact Hnew.
Qed.

Lemma saveAnalysis_not_latest_on_tie_witness :
  let first := nth 0 same_instant_calls (sample_call 0) in
  let second := nth 1 same_instant_calls (sample_call 0) in
  getLatestAnalysis (a_type second) (a_targetId second) (append second (append first no_files))
  = getLatestAnalysis (a_type second) (a_targetId second) (append first no_files) /\
  option_map id
    (getLatestAnalysis (a_type second) (a_targetId second) (append first no_files))
  = Some "analysis-a" /\
  getLatestAnalysis "employee" (VStr "1") (append backdated_call (append first no_files))
  = getLatestAnalysis "employee" (VStr "1") (append first no_files).
Proof.
  intros first second. split; [ | split; [ vm_compute; reflexivity | ] ].
  - apply (saveAnalysis_not_latest_on_tie second (append first no_files) eq_refl).
    + vm_compute. lia.
    + exists (appended first). split; [ left; reflexivity | split; [ reflexivity | ] ].
      vm_compute. discriminate.
  - apply (saveAnalysis_not_latest_on_tie backdated_call (append first no_files) eq_refl).
    + vm_compute. lia.
    + exists (appended first). split; [ left; reflexivity | split; [ reflexivity | ] ].
      vm_compute. discriminate.
Defined.

(** X17. Saving an analysis for one subject leaves the history of every
    other subject as it was while the log has room; on a full log it is
    the history of the log without its oldest record, whose subject may be
    the other one. *)
Theorem saveAnalysis_and_other_histories :
  forall (a : Append) (fs : Files) (type0 : string) (targetId0 : value) (limit : number),
    matches type0 targetId0 (appended a) = false ->
    ((length (log fs) < 1000)%nat ->
     getAnalysisHistory type0 targetId0 limit (append a fs)
     = getAnalysisHistory type0 targetId0 limit fs) /\
    (length (log fs) = 1000%nat ->
     getAnalysisHistory type0 targetId0 limit (append a fs)
     = slice_to limit (sort_desc (filter (matches type0 targetId0) (tl (log fs))))).
Proof.
  intros a fs type0 targetId0 limit Hother.
  rewrite !getAnalysisHistory_log. split.
  - intros Hroom.
    destruct (log_append_cases a fs) as [[Hlog _] | (rest & _ & Hfull & _)].
    2: { unfold max_records in Hfull. lia. }
    now rewrite Hlog, filter_snoc, Hother.
  - intros Hfull. rewrite log_append.
    destruct (log fs) as [ | oldest rest] eqn:Hl; [ discriminate | ].
    rewrite (slice_last_full max_records oldest rest (appended a) Hfull).
    cbn [tl]. now rewrite filter_snoc, Hother.
Qed.

Lemma saveAnalysis_and_other_histories_witness :
  getAnalysisHistory "employee" (VStr "1") (Fin 10)
    (append {| a_uuid := "analysis-x"; a_now := 1700000000009%Z; a_type := "employee";
               a_targetId := VStr "2";
               a_analysis := sample_result;
               a_metadata := plain_metadata [] |}
       (appends (map sample_call (seq 0 3)) no_files))
  = getAnalysisHistory "employee" (VStr "1") (Fin 10)
      (appends (map sample_call (seq 0 3)) no_files).
Proof.
  apply (saveAnalysis_and_other_histories
           {| a_uuid := "analysis-x"; a_now := 1700000000009%Z; a_type := "employee";
              a_targetId := VStr "2";
              a_analysis := sample_result;
              a_metadata := plain_metadata [] |}
           (appends (map sample_call (seq 0 3)) no_files)
           "employee" (VStr "1") (Fin 10) eq_refl).
  vm_compute. lia.
Defined.

(* ===================================================================== *)
(** ** The counts of the statistics *)

Lemma count_le_length {A} (f : A -> bool) (l : list A) : (count f l <= length l)%nat.
Proof.
  unfold count. apply filter_length_le.
Qed.

Lemma count_monotone {A} (f g : A -> bool) (l : list A) :
  (forall x, f x = true -> g x = true) -> (count f l <= count g l)%nat.
Proof.
  intros Himp. induction l as [ | a l IH]; [ unfold count; simpl; lia | ].
  rewrite !count_cons. specialize (Himp a).
  destruct (f a); destruct (g a);
    first [ lia | specialize (Himp eq_refl); discriminate ].
Qed.

Lemma count_two_kinds (l : list AnalysisRecord) :
  (count (fun a => String.eqb (type a) "employee") l
   + count (fun a => String.eqb (type a) "team") l <= length l)%nat /\
  (count (fun a => String.eqb (type a) "employee") l
   + count (fun a => String.eqb (type a) "team") l = length l <->
   Forall (fun a => type a = "employee" \/ type a = "team") l).
Proof.
  induction l as [ | a l (IHle & IHeq)].
  - unfold count. simpl. split; [ lia | ]. split; [ constructor | reflexivity ].
  - rewrite !count_cons. cbn [length].
    destruct (String.eqb (type a) "employee") eqn:He.
    + apply String.eqb_eq in He. rewrite He. cbn [String.eqb Ascii.eqb Bool.eqb].
      split; [ lia | ]. split.
      * intros H. constructor; [ now left | ]. apply IHeq. lia.
      * intros H. inversion H as [ | ? ? _ Hl]; subst. apply IHeq in Hl. lia.
    + destruct (String.eqb (type a) "team") eqn:Ht.
      * apply String.eqb_eq in Ht.
        split; [ lia | ]. split.
        -- intros H. constructor; [ now right | ]. apply IHeq. lia.
        -- intros H. inversion H as [ | ? ? _ Hl]; subst. apply IHeq in Hl. lia.
      * split; [ lia | ]. split.
        -- intros H. lia.
        -- intros H. inversion H as [ | ? ? Ha _]; subst.
           apply String.eqb_neq in He, Ht. tauto.
Qed.

(** X25. In the statistics, the two counts by type never exceed the total
    together, and add up to it exactly when every record of the log is of
    type [employee] or [team]; the counts of the month and of the week
    never exceed the total; the count of the week has no upper end, so it
    includes every record stamped at or after the time of the call, and it
    does not grow as the time of the call advances over the same log. *)
Theorem getAnalysisStats_counts :
  forall (cal : Calendar) (now : Z) (fs : Files),
    let s := getAnalysisStats cal now fs in
    (byType_employee s + byType_team s <= total s)%nat /\
    ((byType_employee s + byType_team s)%nat = total s <->
     Forall (fun a => type a = "employee" \/ type a = "team") (log fs)) /\
    (thisMonth s <= total s)%nat /\
    (thisWeek s <= total s)%nat /\
    (count (fun a => (now <=? time_of a)%Z) (log fs) <= thisWeek s)%nat /\
    (forall later : Z,
        (now <= later)%Z ->
        (thisWeek (getAnalysisStats cal later fs) <= thisWeek s)%nat).
Proof.
  intros cal now fs. unfold getAnalysisStats, log.
  destruct (analysesFile fs) as [l | ]; cbv zeta;
    cbn [total thisMonth thisWeek byType_employee byType_team].
  - destruct (count_two_kinds l) as (Hle & Heq).
    split; [ exact Hle | ].
    split; [ exact Heq | ].
    split; [ apply count_le_length | ].
    split; [ apply count_le_length | ].
    split.
    + apply count_monotone. intros a Ha. unfold time_of in Ha.
      apply Z.leb_le in Ha. apply Z.leb_le. lia.
    + intros later Hlater. apply count_monotone. intros a Ha.
      apply Z.leb_le in Ha. apply Z.leb_le. lia.
  - unfold count. simpl.
    split; [ lia | ].
    split; [ split; [ constructor | reflexivity ] | ].
    repeat split; try lia.
Qed.

(* ===================================================================== *)
(** ** Looking up an employee *)

Lemma not_found_message_includes (shown : string) :
  includes "not found" (not_found_message shown) = true.
Proof.
  unfold not_found_message.
  change " not found" with (" " ++ "not found" ++ "").
  rewrite <- !string_app_assoc. rewrite string_app_assoc.
  apply includes_app.
Qed.

(** The error of a lookup that finds nothing: the not-found error for an
    id that converts to a string, the TypeError of the conversion for one
    that does not. *)
Lemma not_found_cases {A} (id0 : value) :
  (exists shown, to_string id0 = ret shown /\ printable id0 = true /\
                 @not_found A id0 = throw (PlainError (not_found_message shown))) \/
  (printable id0 = false /\ @not_found A id0 = throw not_primitive).
Proof.
  unfold not_found.
  destruct (to_string_cases id0) as [(shown & Hs & Hp) | [Hs Hp]]; rewrite Hs.
  - left. exists shown. repeat split. exact Hp.
  - right. split; [ exact Hp | reflexivity ].
Qed.

Lemma not_found_throws {A} (id0 : value) (a : A) : not_found id0 = ret a -> False.
Proof.
  unfold not_found. destruct (to_string id0); discriminate.
Qed.

Lemma not_found_string {A} (s : string) :
  @not_found A (VStr s) = throw (PlainError (not_found_message s)).
Proof. reflexivity. Qed.

Lemma getAllEmployees_result (fs : Files) :
  getAllEmployees fs =
  (ret (subjects fs),
   {| employeesFile := Some (subjects fs); analysesFile := analysesFile fs |}).
Proof.
  unfold getAllEmployees, subjects, io_bind, saveEmployees, io_ret.
  destruct fs as [[employees | ] analyses]; reflexivity.
Qed.

Lemma getEmployee_result (id0 : value) (fs : Files) :
  getEmployee id0 fs =
  (match find (fun emp => strict_eq (prop emp "id") id0) (subjects fs) with
   | Some employee => ret employee
   | None => not_found id0
   end,
   {| employeesFile := Some (subjects fs); analysesFile := analysesFile fs |}).
Proof.
  unfold getEmployee, io_bind. rewrite getAllEmployees_result. cbn [ret].
  destruct (find _ (subjects fs)); reflexivity.
Qed.

Lemma getEmployee_lookup (id0 : value) (fs : Files) :
  fst (getEmployee id0 fs) =
  match lookup_employee fs id0 with
  | Some employee => ret employee
  | None => not_found id0
  end.
Proof.
  rewrite getEmployee_result. reflexivity.
Qed.

(** An id that is found is a primitive, so it converts to a string. *)
Lemma known_printable (fs : Files) (id0 : value) : known fs id0 = true -> printable id0 = true.
Proof.
  unfold known. destruct (find _ (subjects fs)) as [employee | ] eqn:Hf; [ | discriminate ].
  intros _. apply find_some in Hf as [_ Heq]. now apply strict_eq_printable in Heq.
Qed.

Lemma subjects_stored (fs : Files) (analyses : option (list AnalysisRecord)) :
  subjects {| employeesFile := Some (subjects fs); analysesFile := analyses |} = subjects fs.
Proof. reflexivity. Qed.

Lemma known_ext (fs fs' : Files) :
  subjects fs' = subjects fs -> forall id0, known fs' id0 = known fs id0.
Proof.
  intros H id0. unfold known. now rewrite H.
Qed.

(** C7. When [getEmployee] does not find the id of the request, the
    analyze handler answers 404 with the error "Employee not found", the
    log file is what it was (no record is saved), and the subjects are
    what they were. *)
Theorem post_analyze_unknown_id :
  forall (env : Env) (req : Request) (fs : Files),
    known fs (VStr (params_id req)) = false ->
    status (fst (post_analyze env req fs)) = 404%nat /\
    json (fst (post_analyze env req fs)) = Failed "Employee not found" /\
    analysesFile (snd (post_analyze env req fs)) = analysesFile fs /\
    subjects (snd (post_analyze env req fs)) = subjects fs.
Proof.
  intros env req fs Hunknown.
  unfold post_analyze, io_try, io_bind.
  rewrite getEmployee_result.
  unfold known in Hunknown.
  destruct (find _ (subjects fs)); [ discriminate | ].
  rewrite not_found_string. unfold throw. cbn [message PlainError].
  rewrite not_found_message_includes.
  repeat split.
Qed.

Lemma post_analyze_unknown_id_witness :
  status (fst (post_analyze (sample_env offline_service)
                 (sample_request "BAD_ID" []) no_files)) = 404%nat /\
  log (snd (post_analyze (sample_env offline_service)
              (sample_request "BAD_ID" []) no_files)) = [].
Proof.
  pose proof (post_analyze_unknown_id (sample_env offline_service)
                (sample_request "BAD_ID" []) no_files eq_refl) as (Hs & _ & Hl & _).
  split; [ exact Hs | ].
  unfold log. rewrite Hl. reflexivity.
Defined.

(* ===================================================================== *)
(** ** Adding and updating employees *)

Lemma find_app_last {A} (f : A -> bool) (l : list A) (x : A) :
  find f (l ++ [x])%list =
  match find f l with
  | Some y => Some y
  | None => if f x then Some x else None
  end.
Proof.
  induction l as [ | a l IH]; simpl; [ reflexivity | ].
  destruct (f a); [ reflexivity | exact IH ].
Qed.

Lemma lookup_app (k : string) (o1 o2 : obj) :
  lookup k (o1 ++ o2)%list =
  match lookup k o1 with
  | Some v => Some v
  | None => lookup k o2
  end.
Proof.
  induction o1 as [ | [k' v] o1 IH]; simpl; [ reflexivity | ].
  destruct (String.eqb k k'); [ reflexivity | exact IH ].
Qed.

Lemma addEmployee_result (uuid createdAt updatedAt : string) (employeeData : obj)
    (fs : Files) :
  addEmployee uuid createdAt updatedAt employeeData fs =
  let newEmployee : obj :=
    ("updatedAt", VStr updatedAt) :: ("createdAt", VStr createdAt)
      :: spread [("id", VStr uuid)] employeeData in
  (ret newEmployee,
   {| employeesFile := Some (subjects fs ++ [newEmployee])%list;
      analysesFile := analysesFile fs |}).
Proof.
  unfold addEmployee, io_bind. rewrite getAllEmployees_result. reflexivity.
Qed.

(** X9. [addEmployee] returns the new employee and stores it after the
    others: there is one more employee, the log is untouched, and every id
    that [getEmployee] resolved before resolves to the same employee
    afterwards.  The new employee carries the two dates given by the
    clock, every other property of the input, and the generated id unless
    the input has an [id] of its own, which then replaces it. *)
Theorem addEmployee_keeps_existing :
  forall (uuid createdAt updatedAt : string) (employeeData : obj) (fs : Files),
  exists newEmployee : obj,
    fst (addEmployee uuid createdAt updatedAt employeeData fs) = ret newEmployee /\
    let fs' := snd (addEmployee uuid createdAt updatedAt employeeData fs) in
    subjects fs' = (subjects fs ++ [newEmployee])%list /\
    analysesFile fs' = analysesFile fs /\
    (forall (id0 : value) (employee : obj),
        fst (getEmployee id0 fs) = ret employee ->
        fst (getEmployee id0 fs') = ret employee) /\
    prop newEmployee "updatedAt" = VStr updatedAt /\
    prop newEmployee "createdAt" = VStr createdAt /\
    (forall (k : string) (v : value),
        k <> "updatedAt" -> k <> "createdAt" ->
        lookup k employeeData = Some v -> prop newEmployee k = v) /\
    (lookup "id" employeeData = None -> prop newEmployee "id" = VStr uuid).
Proof.
  intros uuid createdAt updatedAt employeeData fs.
  rewrite addEmployee_result. cbv zeta. cbn [fst snd].
  eexists. split; [ reflexivity | ].
  split; [ reflexivity | split; [ reflexivity | ] ].
  split; [ | split; [ reflexivity | split; [ reflexivity | split ] ] ].
  - intros id0 employee. rewrite !getEmployee_lookup. unfold lookup_employee.
    cbn [subjects employeesFile]. rewrite find_app_last.
    destruct (find _ (subjects fs)); [ auto | ].
    intros H. now apply not_found_throws in H.
  - intros k v Hu Hc Hk. unfold prop. cbn [lookup].
    apply String.eqb_neq in Hu, Hc. rewrite Hu, Hc.
    unfold spread. rewrite lookup_app, Hk. reflexivity.
  - intros Hid. unfold prop. cbn [lookup String.eqb Ascii.eqb Bool.eqb].
    unfold spread. rewrite lookup_app, Hid. reflexivity.
Qed.



(** X11. An input that carries the id of a stored employee is added under
    that id: the store then holds two employees with it, and [getEmployee]
    keeps returning the older one, so the new employee cannot be reached
    by its id. *)
Theorem addEmployee_under_a_taken_id :
  forall (uuid createdAt updatedAt : string) (employeeData : obj) (fs : Files)
         (taken : value) (older : obj),
    lookup "id" employeeData = Some taken ->
    fst (getEmployee taken fs) = ret older ->
    exists newEmployee : obj,
      fst (addEmployee uuid createdAt updatedAt employeeData fs) = ret newEmployee /\
      let fs' := snd (addEmployee uuid createdAt updatedAt employeeData fs) in
      prop newEmployee "id" = taken /\
      In newEmployee (subjects fs') /\
      In older (subjects fs') /\
      fst (getEmployee taken fs') = ret older.
Proof.
  intros uuid createdAt updatedAt employeeData fs taken older Hid Hold.
  rewrite getEmployee_lookup in Hold. unfold lookup_employee in Hold.
  destruct (find _ (subjects fs)) as [e | ] eqn:Hf;
    [ | now apply not_found_throws in Hold ].
  injection Hold as <-.
  rewrite addEmployee_result. cbv zeta. cbn [fst snd].
  eexists. split; [ reflexivity | ].
  split.
  { unfold prop. cbn [lookup String.eqb Ascii.eqb Bool.eqb].
    unfold spread. now rewrite lookup_app, Hid. }
  cbn [subjects employeesFile].
  split; [ apply in_or_app; right; now left | ].
  split; [ apply in_or_app; left; now apply find_some in Hf | ].
  rewrite getEmployee_lookup. unfold lookup_employee. cbn [subjects employeesFile].
  now rewrite find_app_last, Hf.
Qed.

Lemma addEmployee_under_a_taken_id_witness :
  exists newEmployee : obj,
    fst (addEmployee "e-100" "t" "t" [("id", VStr "1"); ("name", VStr "冒名")] no_files)
    = ret newEmployee /\
    prop newEmployee "id" = VStr "1" /\
    option_map (fun e => prop e "name")
      (lookup_employee
         (snd (addEmployee "e-100" "t" "t" [("id", VStr "1"); ("name", VStr "冒名")] no_files))
         (VStr "1"))
    = Some (VStr "張小明").
Proof.
  destruct (addEmployee_under_a_taken_id "e-100" "t" "t"
              [("id", VStr "1"); ("name", VStr "冒名")] no_files (VStr "1")
              (hd [] getDefaultEmployees) eq_refl eq_refl)
    as (newEmployee & Hnew & Hid & _ & _ & _).
  exists newEmployee. split; [ exact Hnew | split; [ exact Hid | ] ].
  vm_compute. reflexivity.
Defined.

Section Positions.
Context {A : Type} (f : A -> bool) (d : A).

Lemma findIndex_find (l : list A) :
  match findIndex f l with
  | Some i => find f l = Some (nth i l d) /\ f (nth i l d) = true /\ (i < length l)%nat
  | None => find f l = None
  end.
Proof.
  induction l as [ | a l IH]; simpl; [ reflexivity | ].
  destruct (f a) eqn:Ha.
  - simpl. rewrite Ha. repeat split. lia.
  - destruct (findIndex f l) as [i | ]; simpl.
    + destruct IH as (Hf & Hi & Hlt). repeat split; try assumption. lia.
    + exact IH.
Qed.



End Positions.

Lemma updateEmployee_result (id0 : value) (updates : obj) (now : string) (fs : Files) :
  updateEmployee id0 updates now fs =
  match findIndex (fun emp => strict_eq (prop emp "id") id0) (subjects fs) with
  | None =>
      (not_found id0,
       {| employeesFile := Some (subjects fs); analysesFile := analysesFile fs |})
  | Some index =>
      let updated : obj :=
        ("updatedAt", VStr now) :: spread (nth index (subjects fs) []) updates in
      (ret updated,
       {| employeesFile := Some (set_nth index updated (subjects fs));
          analysesFile := analysesFile fs |})
  end.
Proof.
  unfold updateEmployee, io_bind. rewrite getAllEmployees_result. cbn [ret].
  destruct (findIndex _ (subjects fs)); reflexivity.
Qed.

(** X12. [updateEmployee] of an id that [getEmployee] does not find throws
    the same not-found error, and leaves the subjects and the log as they
    were. *)
Theorem updateEmployee_unknown_id :
  forall (id0 : value) (updates : obj) (now : string) (fs : Files),
    known fs id0 = false ->
    fst (updateEmployee id0 updates now fs) = fst (getEmployee id0 fs) /\
    (forall shown : string,
        to_string id0 = ret shown ->
        fst (updateEmployee id0 updates now fs)
        = throw (PlainError (not_found_message shown))) /\
    subjects (snd (updateEmployee id0 updates now fs)) = subjects fs /\
    analysesFile (snd (updateEmployee id0 updates now fs)) = analysesFile fs.
Proof.
  intros id0 updates now fs Hunknown.
  rewrite updateEmployee_result, getEmployee_result.
  pose proof (findIndex_find (fun emp => strict_eq (prop emp "id") id0) []
                (subjects fs)) as Hfi.
  unfold known in Hunknown.
  destruct (findIndex _ (subjects fs)) as [i | ].
  - destruct Hfi as (Hf & _). rewrite Hf in Hunknown. discriminate.
  - rewrite Hfi. cbn [fst snd]. repeat split.
    intros shown Hshown. unfold not_found. rewrite Hshown. reflexivity.
Qed.

Lemma updateEmployee_unknown_id_witness :
  subjects (snd (updateEmployee (VStr "BAD_ID") [("position", VStr "CTO")]
                   "2024-01-01T00:00:00.000Z" no_files))
  = getDefaultEmployees.
Proof.
  apply (updateEmployee_unknown_id (VStr "BAD_ID") [("position", VStr "CTO")]
           "2024-01-01T00:00:00.000Z" no_files eq_refl).
Defined.



(* ===================================================================== *)
(** ** The batch handler *)

Lemma console_log_id (before after : string) (v : value) :
  console_log [ Text before; Hole (ret v); Text after ]
  = if printable v then ret tt else throw not_primitive.
Proof.
  unfold console_log. cbn [render bind ret].
  destruct (to_string_cases v) as [(s & -> & ->) | [-> ->]]; reflexivity.
Qed.

Lemma log_appends_ext (calls : list Append) (fs1 fs2 : Files) :
  log fs1 = log fs2 -> log (appends calls fs1) = log (appends calls fs2).
Proof.
  revert fs1 fs2. induction calls as [ | a calls IH]; intros fs1 fs2 Hlog; [ exact Hlog | ].
  cbn [appends fold_left]. apply IH. now rewrite !log_append, Hlog.
Qed.

Lemma succeeds_ext (env : Env) (analysisType timeRange : value) (fs fs' : Files) :
  subjects fs' = subjects fs ->
  forall id0, succeeds env analysisType timeRange fs' id0
              = succeeds env analysisType timeRange fs id0.
Proof.
  intros H id0. unfold succeeds, lookup_employee. now rewrite H.
Qed.

Lemma failure_explained_ext (fs fs' : Files) (f : BatchFailure) :
  subjects fs' = subjects fs -> failure_explained fs' f -> failure_explained fs f.
Proof.
  intros H. unfold failure_explained. now rewrite (known_ext fs fs' H).
Qed.

Lemma succeeds_printable (env : Env) (analysisType timeRange : value) (fs : Files)
    (id0 : value) :
  printable id0 = false -> succeeds env analysisType timeRange fs id0 = false.
Proof.
  intros Hp. unfold succeeds, lookup_employee.
  destruct (find _ (subjects fs)) as [employee | ] eqn:Hf; [ | reflexivity ].
  apply find_some in Hf as [_ Heq]. apply strict_eq_printable in Heq. congruence.
Qed.

(** When every stored employee and the two parameters convert to a
    string, a turn succeeds exactly for the ids that are found. *)
Lemma succeeds_known (env : Env) (analysisType timeRange : value) (fs : Files) :
  (forall employee, In employee (subjects fs) -> plain employee) ->
  printable analysisType = true ->
  printable timeRange = true ->
  forall id0, succeeds env analysisType timeRange fs id0 = known fs id0.
Proof.
  intros Hplain Ha Ht id0. unfold succeeds, known, lookup_employee.
  destruct (find _ (subjects fs)) as [employee | ] eqn:Hf; [ | reflexivity ].
  apply find_some in Hf as [Hin _]. unfold analyzable, batch_input. cbn [app].
  destruct (analyzeEmployee_returns (openaiService env)
              (("analysisType", analysisType) :: ("timeRange", timeRange) :: employee))
    as [r ->]; [ | reflexivity ].
  apply plain_cons; [ exact Ha | ]. apply plain_cons; [ exact Ht | ]. now apply Hplain.
Qed.

(** One turn of the loop. *)
Lemma batch_step_spec (env : Env) (analysisType timeRange : value)
    (n : nat) (id0 : value) (acc : BatchState) (fs : Files) :
  let step := batch_step env analysisType timeRange n id0 acc fs in
  subjects (snd step) = subjects fs /\
  match lookup_employee fs id0 with
  | Some employee =>
      match analyzeEmployee (openaiService env) (batch_input analysisType timeRange employee) with
      | inr result =>
          fst step = ret {| results :=
                              (results acc ++ [ {| ok_employeeId := id0;
                                                   ok_employee := prop employee "name";
                                                   ok_analysis := data result;
                                                   ok_source := source result |} ])%list;
                            errors := errors acc |} /\
          log (snd step)
          = log (append (analysis_call env n id0 result (batch_metadata analysisType timeRange))
                   fs)
      | inl e =>
          fst step = ret {| results := results acc;
                            errors := (errors acc ++ [ {| ko_employeeId := id0;
                                                          ko_error := message e |} ])%list |} /\
          e = not_primitive /\
          log (snd step) = log fs
      end
  | None =>
      log (snd step) = log fs /\
      match to_string id0 with
      | inr shown =>
          fst step = ret {| results := results acc;
                            errors := (errors acc
                                       ++ [ {| ko_employeeId := id0;
                                               ko_error := not_found_message shown |} ])%list |}
      | inl _ => fst step = throw not_primitive
      end
  end.
Proof.
  cbv zeta.
  destruct (batch_step env analysisType timeRange n id0 acc fs) as [m fs1] eqn:Hrun.
  cbn [fst snd].
  unfold batch_step, io_try, io_bind in Hrun. rewrite getEmployee_result in Hrun.
  unfold lookup_employee.
  destruct (find _ (subjects fs)) as [employee | ] eqn:Hf.
  - assert (printable id0 = true) as Hid.
    { apply find_some in Hf as [_ Heq]. now apply strict_eq_printable in Heq. }
    unfold ret at 1 in Hrun. unfold io_lift at 1 in Hrun. unfold batch_input.
    cbn [app] in *.
    destruct (analyzeEmployee (openaiService env) _) as [e | result] eqn:Hresult.
    + apply analyzeEmployee_throws in Hresult. subst e.
      unfold io_lift in Hrun. rewrite console_log_id, Hid in Hrun.
      unfold ret, io_ret in Hrun. injection Hrun as <- <-. repeat split.
    + unfold saveAnalysis, io_ret, ret in Hrun. injection Hrun as <- <-.
      split; [ reflexivity | split; reflexivity ].
  - destruct (@not_found_cases obj id0) as [(shown & Hshown & Hp & Hnf) | [Hp Hnf]];
      rewrite Hnf in Hrun; unfold throw, io_lift in Hrun;
      rewrite console_log_id, Hp in Hrun.
    + rewrite Hshown. unfold ret, io_ret in Hrun. injection Hrun as <- <-.
      repeat split.
    + rewrite (unprintable_throw id0 Hp). unfold throw in *.
      injection Hrun as <- <-. repeat split.
Qed.

(** The loop: it reaches the ids before the first one that does not
    convert to a string, saves one record for each of them that succeeds,
    and returns when it reaches them all. *)
Lemma batch_loop_spec (env : Env) (analysisType timeRange : value) (ids : list value) :
  forall (n : nat) (acc : BatchState) (fs : Files),
    let run := batch_loop env analysisType timeRange n ids acc fs in
    let ok := succeeds env analysisType timeRange fs in
    exists calls : list Append,
      subjects (snd run) = subjects fs /\
      log (snd run) = log (appends calls fs) /\
      map a_targetId calls = filter ok (reached ids) /\
      Forall (fun a => a_type a = "employee" /\
                       a_metadata a
                       = plain_metadata (batch_metadata analysisType timeRange)) calls /\
      if forallb printable ids
      then exists final : BatchState,
             fst run = ret final /\
             map ok_employeeId (results final)
             = (map ok_employeeId (results acc) ++ filter ok ids)%list /\
             map ko_employeeId (errors final)
             = (map ko_employeeId (errors acc) ++ filter (fun i => negb (ok i)) ids)%list /\
             (Forall (failure_explained fs) (errors acc) ->
              Forall (failure_explained fs) (errors final))
      else fst run = throw not_primitive.
Proof.
  induction ids as [ | id0 ids IH]; intros n acc fs; cbv zeta; cbn [batch_loop].
  - exists []. cbn [forallb filter reached map appends fold_left fst snd io_ret].
    repeat split; [ constructor | ].
    exists acc. rewrite !app_nil_r. auto.
  - pose proof (batch_step_spec env analysisType timeRange n id0 acc fs) as Hstep.
    cbv zeta in Hstep. destruct Hstep as [Hsub Hstep].
    unfold io_bind.
    destruct (batch_step env analysisType timeRange n id0 acc fs) as [[e | acc1] fs1] eqn:Hrun;
      cbn [fst snd] in *.
    + (* the turn throws: the id is not found and does not convert *)
      unfold succeeds.
      destruct (lookup_employee fs id0) as [employee | ] eqn:Hl.
      { destruct (analyzeEmployee _ _); destruct Hstep as [Hstep _]; discriminate. }
      destruct Hstep as [Hlog Hstep].
      destruct (to_string id0) as [e0 | shown] eqn:Hshown; [ | discriminate ].
      assert (printable id0 = false) as Hp by (unfold printable; now rewrite Hshown).
      exists []. cbn [forallb reached]. rewrite Hp. cbn [andb filter map appends fold_left].
      repeat split; try assumption; constructor.
    + (* the turn returns *)
      destruct (IH (S n) acc1 fs1) as (calls & Hsubs & Hlogs & Hids & Hall & Hfinal).
      cbv zeta in *.
      assert (forall i, succeeds env analysisType timeRange fs1 i
                        = succeeds env analysisType timeRange fs i) as Hok
        by (apply succeeds_ext; exact Hsub).
      rewrite (filter_ext _ _ Hok) in Hids.
      assert (printable id0 = true) as Hp.
      { destruct (printable id0) eqn:Hp; [ reflexivity | ].
        unfold succeeds in *. destruct (lookup_employee fs id0) as [employee | ] eqn:Hl.
        - unfold lookup_employee in Hl. apply find_some in Hl as [_ Heq].
          apply strict_eq_printable in Heq. congruence.
        - destruct Hstep as [_ Hstep]. rewrite (unprintable_throw id0 Hp) in Hstep.
          discriminate. }
      cbn [forallb reached]. rewrite Hp. cbn [andb filter].
      destruct (lookup_employee fs id0) as [employee | ] eqn:Hl.
      * destruct (analyzeEmployee (openaiService env)
                    (batch_input analysisType timeRange employee)) as [e | result] eqn:Hresult.
        -- assert (succeeds env analysisType timeRange fs id0 = false) as Hs0
             by (unfold succeeds, analyzable; now rewrite Hl, Hresult).
           rewrite Hs0. cbn [negb].
           destruct Hstep as (Hacc & He & Hlog). subst e. injection Hacc as ->.
           exists calls. split; [ congruence | ].
           split; [ rewrite Hlogs; now apply log_appends_ext | ].
           split; [ exact Hids | split; [ exact Hall | ] ].
           destruct (forallb printable ids); [ | exact Hfinal ].
           destruct Hfinal as (final & Hrun' & Hoks & Hkos & Hexp).
           exists final. cbn [results errors] in *.
           split; [ exact Hrun' | ].
           split; [ rewrite Hoks; f_equal; now apply filter_ext | ].
           split.
           ++ rewrite Hkos, map_app. cbn [map ko_employeeId]. rewrite <- app_assoc.
              f_equal. cbn [app]. f_equal. apply filter_ext. intros i. now rewrite Hok.
           ++ intros Hacc.
              assert (Forall (failure_explained fs1) (errors acc)) as Hacc1.
              { eapply Forall_impl; [ | exact Hacc ]. intros f.
                apply failure_explained_ext. congruence. }
              eapply Forall_impl; [ intros f; apply failure_explained_ext; exact Hsub | ].
              apply Hexp. apply Forall_app. split; [ exact Hacc1 | ].
              constructor; [ | constructor ].
              unfold failure_explained. cbn [ko_employeeId ko_error].
              rewrite (known_ext fs fs1 Hsub). unfold known.
              unfold lookup_employee in Hl. now rewrite Hl.
        -- assert (succeeds env analysisType timeRange fs id0 = true) as Hs0
             by (unfold succeeds, analyzable; now rewrite Hl, Hresult).
           rewrite Hs0. cbn [negb].
           destruct Hstep as (Hacc & Hlog). injection Hacc as ->.
           exists (analysis_call env n id0 result (batch_metadata analysisType timeRange)
                     :: calls).
           split; [ congruence | ].
           split; [ rewrite Hlogs; cbn [appends fold_left]; now apply log_appends_ext | ].
           split; [ cbn [map a_targetId analysis_call]; now rewrite Hids | ].
           split; [ constructor; [ split; reflexivity | exact Hall ] | ].
           destruct (forallb printable ids); [ | exact Hfinal ].
           destruct Hfinal as (final & Hrun' & Hoks & Hkos & Hexp).
           exists final. cbn [results errors] in *.
           split; [ exact Hrun' | ].
           split.
           ++ rewrite Hoks, map_app. cbn [map ok_employeeId]. rewrite <- app_assoc.
              f_equal. cbn [app]. f_equal. now apply filter_ext.
           ++ split.
              ** rewrite Hkos. f_equal. apply filter_ext. intros i. now rewrite Hok.
              ** intros Hacc.
                 eapply Forall_impl; [ intros f; apply failure_explained_ext; exact Hsub | ].
                 apply Hexp. eapply Forall_impl; [ | exact Hacc ]. intros f.
                 apply failure_explained_ext. congruence.
      * assert (succeeds env analysisType timeRange fs id0 = false) as Hs0
          by (unfold succeeds; now rewrite Hl).
        rewrite Hs0. cbn [negb].
        destruct Hstep as [Hlog Hstep].
        destruct (to_string id0) as [e0 | shown] eqn:Hshown; [ discriminate | ].
        injection Hstep as ->.
        exists calls. split; [ congruence | ].
        split; [ rewrite Hlogs; now apply log_appends_ext | ].
        split; [ exact Hids | split; [ exact Hall | ] ].
        destruct (forallb printable ids); [ | exact Hfinal ].
        destruct Hfinal as (final & Hrun' & Hoks & Hkos & Hexp).
        exists final. cbn [results errors] in *.
        split; [ exact Hrun' | ].
        split; [ rewrite Hoks; f_equal; now apply filter_ext | ].
        split.
        -- rewrite Hkos, map_app. cbn [map ko_employeeId]. rewrite <- app_assoc.
           f_equal. cbn [app]. f_equal. apply filter_ext. intros i. now rewrite Hok.
        -- intros Hacc.
           assert (Forall (failure_explained fs1) (errors acc)) as Hacc1.
           { eapply Forall_impl; [ | exact Hacc ]. intros f.
             apply failure_explained_ext. congruence. }
           eapply Forall_impl; [ intros f; apply failure_explained_ext; exact Hsub | ].
           apply Hexp. apply Forall_app. split; [ exact Hacc1 | ].
           constructor; [ | constructor ].
           unfold failure_explained. cbn [ko_employeeId ko_error].
           rewrite (known_ext fs fs1 Hsub). unfold known.
           unfold lookup_employee in Hl. rewrite Hl. now exists shown.
Qed.

Lemma partition_length {A} (f : A -> bool) (l : list A) :
  length l = (count f l + count (fun x => negb (f x)) l)%nat.
Proof.
  induction l as [ | a l IH]; [ reflexivity | ].
  rewrite !count_cons. simpl length. destruct (f a); simpl; lia.
Qed.

Lemma count_perm {A} (f : A -> bool) (l l' : list A) :
  Permutation l l' -> count f l = count f l'.
Proof.
  induction 1 as [ | a l l' _ IH | a b l | l l' l'' _ IH1 _ IH2 ].
  - reflexivity.
  - rewrite !count_cons, IH. reflexivity.
  - rewrite !count_cons. lia.
  - congruence.
Qed.

Lemma forallb_perm {A} (f : A -> bool) (l l' : list A) :
  Permutation l l' -> forallb f l = forallb f l'.
Proof.
  induction 1 as [ | a l l' _ IH | a b l | l l' l'' _ IH1 _ IH2 ]; cbn [forallb].
  - reflexivity.
  - now rewrite IH.
  - destruct (f a), (f b); reflexivity.
  - congruence.
Qed.

(** What the batch handler answers to a non-empty list of ids. *)
Lemma batch_response (env : Env) (req : Request) (fs : Files) (ids : list value) :
  prop (body req) "employeeIds" = VArr ids ->
  ids <> [] ->
  let analysisType := default_to (prop (body req) "analysisType") (VStr "comprehensive") in
  let timeRange := default_to (prop (body req) "timeRange") (VStr "6months") in
  let ok := succeeds env analysisType timeRange fs in
  if forallb printable ids
  then exists (successful : list BatchSuccess) (failed : list BatchFailure),
         fst (post_batch_analyze env req fs) =
           {| status := 200;
              json := Batch successful failed
                        {| sum_total := length ids;
                           sum_successful := length successful;
                           sum_failed := length failed |} |} /\
         map ok_employeeId successful = filter ok ids /\
         map ko_employeeId failed = filter (fun i => negb (ok i)) ids /\
         Forall (failure_explained fs) failed
  else fst (post_batch_analyze env req fs)
       = {| status := 500; json := Failed (message not_primitive) |}.
Proof.
  intros Hids Hne. cbv zeta. unfold post_batch_analyze. rewrite Hids.
  destruct ids as [ | first others]; [ congruence | ].
  match goal with
  | |- context [batch_loop ?e ?a ?t ?n ?l ?acc ?f] =>
      destruct (batch_loop_spec e a t l n acc f) as (calls & _ & _ & _ & _ & Hrun);
      destruct (batch_loop e a t n l acc f) as [m fs1]
  end.
  cbv zeta in Hrun. cbn [fst snd] in Hrun.
  destruct (forallb printable (first :: others)).
  - destruct Hrun as (final & -> & Hok & Hko & Hexp).
    exists (results final), (errors final).
    cbn [fst results errors map app] in *.
    repeat split; auto; apply Hexp; constructor.
  - rewrite Hrun. reflexivity.
Qed.

(** C8. For a non-empty list of ids that all convert to a string, the
    batch handler answers 200 and goes through the whole list: the ids of
    [successful] are those for which a turn succeeds (the id is found and
    the analysis of the employee returns), in the order of the list; the
    ids of [failed] are the others, each with the message of the lookup
    that failed or of the analysis that threw; so the two lengths are the
    two counts, they add up to the total, and the summary does not depend
    on the order of the ids.  When every stored employee and the two
    parameters convert to a string, the ids that succeed are exactly the
    ids that [getEmployee] finds.  A list with an id that does not convert
    to a string aborts the batch: the handler answers 500. *)
Theorem post_batch_analyze_counts :
  forall (env : Env) (req : Request) (fs : Files) (ids : list value),
    prop (body req) "employeeIds" = VArr ids ->
    ids <> [] ->
    let analysisType := default_to (prop (body req) "analysisType") (VStr "comprehensive") in
    let timeRange := default_to (prop (body req) "timeRange") (VStr "6months") in
    let ok := succeeds env analysisType timeRange fs in
    (forallb printable ids = true ->
     exists (successful : list BatchSuccess) (failed : list BatchFailure),
       fst (post_batch_analyze env req fs) =
         {| status := 200;
            json := Batch successful failed
                      {| sum_total := length ids;
                         sum_successful := length successful;
                         sum_failed := length failed |} |} /\
       map ok_employeeId successful = filter ok ids /\
       map ko_employeeId failed = filter (fun i => negb (ok i)) ids /\
       Forall (failure_explained fs) failed /\
       length successful = count ok ids /\
       length failed = count (fun i => negb (ok i)) ids /\
       length ids = (length successful + length failed)%nat /\
       ((forall employee, In employee (subjects fs) -> plain employee) ->
        printable analysisType = true ->
        printable timeRange = true ->
        length successful = count (known fs) ids /\
        length failed = count (unknown fs) ids) /\
       (forall (req' : Request) (ids' : list value),
           prop (body req') "employeeIds" = VArr ids' ->
           prop (body req') "analysisType" = prop (body req) "analysisType" ->
           prop (body req') "timeRange" = prop (body req) "timeRange" ->
           Permutation ids ids' ->
           summary_of (fst (post_batch_analyze env req' fs)) =
           summary_of (fst (post_batch_analyze env req fs)))) /\
    (forallb printable ids = false ->
     fst (post_batch_analyze env req fs)
     = {| status := 500; json := Failed (message not_primitive) |}).
Proof.
  intros env req fs ids Hids Hne analysisType timeRange ok.
  pose proof (batch_response env req fs ids Hids Hne) as Hres. cbv zeta in Hres.
  fold analysisType timeRange in Hres. fold ok in Hres.
  split; intros Hprint; rewrite Hprint in Hres; [ | exact Hres ].
  destruct Hres as (successful & failed & Hres & Hok & Hko & Hexp).
  assert (length successful = count ok ids) as Hs.
  { unfold count. rewrite <- Hok. now rewrite length_map. }
  assert (length failed = count (fun i => negb (ok i)) ids) as Hf.
  { unfold count. rewrite <- Hko. now rewrite length_map. }
  exists successful, failed.
  repeat (split; [ assumption | ]).
  split; [ rewrite Hs, Hf; apply partition_length | ].
  split.
  - intros Hplain Ha Ht.
    pose proof (succeeds_known env analysisType timeRange fs Hplain Ha Ht) as Hknown.
    fold ok in Hknown. rewrite Hs, Hf. unfold count, unknown.
    rewrite (filter_ext _ _ Hknown).
    rewrite (filter_ext (fun i => negb (ok i)) (fun i => negb (known fs i)))
      by (intros i; now rewrite Hknown).
    split; reflexivity.
  - intros req' ids' Hids' Ha' Ht' Hperm.
    assert (ids' <> []) as Hne'.
    { intros ->. apply Permutation_sym, Permutation_nil in Hperm. contradiction. }
    pose proof (batch_response env req' fs ids' Hids' Hne') as Hres'. cbv zeta in Hres'.
    rewrite Ha', Ht' in Hres'. fold analysisType timeRange in Hres'. fold ok in Hres'.
    rewrite <- (forallb_perm printable ids ids' Hperm), Hprint in Hres'.
    destruct Hres' as (successful' & failed' & Hres' & Hok' & Hko' & _).
    assert (length successful' = length successful) as Hs'.
    { rewrite Hs, <- (length_map ok_employeeId), Hok'.
      symmetry. now apply count_perm. }
    assert (length failed' = length failed) as Hf'.
    { rewrite Hf, <- (length_map ko_employeeId), Hko'.
      symmetry. now apply (count_perm (fun i => negb (ok i))). }
    rewrite Hres, Hres'. unfold summary_of. cbn [json].
    rewrite Hs', Hf', (Permutation_length Hperm). reflexivity.
Qed.

Lemma post_batch_analyze_counts_witness :
  summary_of (fst (post_batch_analyze (sample_env offline_service)
                     (sample_request "" [("employeeIds", VArr [VStr "1"; VStr "BAD_ID"])])
                     no_files))
  = Some {| sum_total := 2; sum_successful := 1; sum_failed := 1 |} /\
  status (fst (post_batch_analyze (sample_env offline_service)
                 (sample_request "" [("employeeIds", VArr [VStr "1"; unprintable])])
                 no_files))
  = 500%nat.
Proof.
  split.
  - destruct (post_batch_analyze_counts (sample_env offline_service)
                (sample_request "" [("employeeIds", VArr [VStr "1"; VStr "BAD_ID"])])
                no_files [VStr "1"; VStr "BAD_ID"] eq_refl)
      as [Hall _]; [ discriminate | ].
    destruct (Hall eq_refl) as (successful & failed & Hres & _ & _ & _ & Hs & Hf & _).
    rewrite Hres. unfold summary_of. cbn [json]. rewrite Hs, Hf.
    vm_compute. reflexivity.
  - destruct (post_batch_analyze_counts (sample_env offline_service)
                (sample_request "" [("employeeIds", VArr [VStr "1"; unprintable])])
                no_files [VStr "1"; unprintable] eq_refl)
      as [_ Habort]; [ discriminate | ].
    rewrite (Habort eq_refl). reflexivity.
Defined.

(** Two batches that the counts of found and unknown ids do not describe.
    The list [['1', {toString: 1}]] aborts the batch: the answer is 500,
    and the record saved for the first id stays in the log.  After a
    create request whose name is [{toString: 1}] has stored an employee,
    the batch over two ids that are both found reports one success and
    one failure. *)
Lemma post_batch_analyze_aborts_or_miscounts :
  (let answer := post_batch_analyze (sample_env offline_service)
                   (sample_request "" [("employeeIds", VArr [VStr "1"; unprintable])])
                   no_files in
   status (fst answer) = 500%nat /\
   summary_of (fst answer) = None /\
   length (log (snd answer)) = 1%nat) /\
  (let fs := snd (post_employee "e-100" "2024-01-01T00:00:00.000Z" "2024-01-01T00:00:00.000Z"
                    unnamed_body no_files) in
   known fs (VStr "1") = true /\
   known fs (VStr "e-100") = true /\
   summary_of (fst (post_batch_analyze (sample_env offline_service)
                      (sample_request "" [("employeeIds", VArr [VStr "1"; VStr "e-100"])])
                      fs))
   = Some {| sum_total := 2; sum_successful := 1; sum_failed := 1 |}).
Proof.
  split; cbv zeta; repeat split; vm_compute; reflexivity.
Qed.

(** X23. The batch handler saves one record per id for which a turn
    succeeds (the id is found and the analysis of the employee returns),
    in request order, and none for the others: the log afterwards is the
    former log after the [saveAnalysis] calls for these ids, each an
    [employee] record marked [batchAnalysis].  The loop stops at the first
    id that does not convert to a string: the handler then answers 500,
    and what was saved for the ids before it stays saved.  While the log
    stays within 1000 records it grows by exactly the number of records
    saved; it never exceeds 1000 when it did not before.  The employees
    are left as they were.  A request without a non-empty array of ids
    writes nothing. *)
Theorem post_batch_analyze_log :
  forall (env : Env) (req : Request) (fs : Files),
    let fs' := snd (post_batch_analyze env req fs) in
    let analysisType := default_to (prop (body req) "analysisType") (VStr "comprehensive") in
    let timeRange := default_to (prop (body req) "timeRange") (VStr "6months") in
    let ok := succeeds env analysisType timeRange fs in
    (forall ids : list value,
        prop (body req) "employeeIds" = VArr ids ->
        ids <> [] ->
        exists calls : list Append,
          log fs' = log (appends calls fs) /\
          map a_targetId calls = filter ok (reached ids) /\
          Forall (fun a => a_type a = "employee" /\
                           given_source (a_metadata a) = None /\
                           prop (others (a_metadata a)) "batchAnalysis" = VBool true) calls /\
          subjects fs' = subjects fs /\
          (forallb printable ids = true -> reached ids = ids) /\
          (forallb printable ids = false ->
           status (fst (post_batch_analyze env req fs)) = 500%nat) /\
          ((length (log fs) <= 1000)%nat -> (length (log fs') <= 1000)%nat) /\
          ((length (log fs) + count ok (reached ids) <= 1000)%nat ->
           log fs' = (log fs ++ map appended calls)%list /\
           length (log fs') = (length (log fs) + count ok (reached ids))%nat)) /\
    ((forall ids : list value, prop (body req) "employeeIds" = VArr ids -> ids = []) ->
     fs' = fs).
Proof.
  intros env req fs fs' analysisType timeRange ok. split.
  - intros ids Hids Hne.
    pose proof (batch_response env req fs ids Hids Hne) as Hres. cbv zeta in Hres.
    unfold fs', post_batch_analyze in *. rewrite Hids in *.
    destruct ids as [ | first others]; [ contradiction | ].
    destruct (batch_loop_spec env analysisType timeRange (first :: others) 0
                {| results := []; errors := [] |} fs)
      as (calls & Hsub & Hlog & Hcalls & Hall & _).
    cbv zeta in Hsub, Hlog, Hcalls. fold analysisType timeRange in Hres |- *.
    fold ok in Hcalls.
    destruct (batch_loop env analysisType timeRange 0 (first :: others)
                {| results := []; errors := [] |} fs) as [[e | final] fs1];
      cbn [fst snd] in *.
    all: exists calls.
    all: assert (length calls = count ok (reached (first :: others))) as Hlen
        by (unfold count; rewrite <- Hcalls; now rewrite length_map).
    all: split; [ exact Hlog | ].
    all: split; [ exact Hcalls | ].
    all: split;
      [ eapply Forall_impl; [ | exact Hall ]; intros a [Ht Hm]; rewrite Hm;
        repeat split; assumption | ].
    all: split; [ exact Hsub | ].
    all: split;
      [ intros Hp; clear - Hp; induction (first :: others) as [ | i l IH];
        [ reflexivity | ];
        cbn [forallb reached] in *; apply andb_true_iff in Hp as [Hi Hl];
        rewrite Hi, (IH Hl); reflexivity | ].
    all: split; [ intros Hp; rewrite Hp in Hres; now rewrite Hres | ].
    all: split;
      [ intros Hcap; rewrite Hlog, log_appends by exact Hcap;
        rewrite slice_last_length; unfold max_records; lia | ].
    all: intros Hroom;
      assert (log fs1 = (log fs ++ map appended calls)%list) as Hgrow
        by (rewrite Hlog, log_appends by (unfold max_records; lia);
            apply slice_last_short; rewrite length_app, length_map;
            unfold max_records; lia);
      split; [ exact Hgrow | ];
      rewrite Hgrow, length_app, length_map; lia.
  - intros Hnone. unfold fs', post_batch_analyze.
    destruct (prop (body req) "employeeIds") as [ | | | | | ids | ]; try reflexivity.
    destruct ids as [ | first others]; [ reflexivity | ].
    specialize (Hnone (first :: others) eq_refl). discriminate.
Qed.

Lemma post_batch_analyze_log_witness :
  length (log (snd (post_batch_analyze (sample_env offline_service)
                      (sample_request "" [("employeeIds", VArr [VStr "1"; VStr "404"; VStr "2"])])
                      no_files)))
  = 2%nat.
Proof.
  destruct (proj1 (post_batch_analyze_log (sample_env offline_service)
                     (sample_request "" [("employeeIds", VArr [VStr "1"; VStr "404"; VStr "2"])])
                     no_files)
              [VStr "1"; VStr "404"; VStr "2"] eq_refl)
    as (calls & _ & _ & _ & _ & _ & _ & _ & Hgrow).
  - discriminate.
  - destruct Hgrow as [_ Hlen]; [ vm_compute; lia | ].
    rewrite Hlen. vm_compute. reflexivity.
Defined.

(* ===================================================================== *)
(** ** The other handlers *)

Lemma respond_getEmployee_unknown (employeeId : string) (k : obj -> IO Answer) (fs : Files) :
  known fs (VStr employeeId) = false ->
  respond (io_bind (getEmployee (VStr employeeId)) k) not_found_or_500 fs =
  ({| http_code := 404; payload := Refused "Employee not found" |},
   {| employeesFile := Some (subjects fs); analysesFile := analysesFile fs |}).
Proof.
  intros Hunknown. unfold respond, io_bind. rewrite getEmployee_result.
  unfold known in Hunknown.
  destruct (find _ (subjects fs)); [ discriminate | ].
  rewrite not_found_string. unfold throw, not_found_or_500. cbn [message PlainError].
  now rewrite not_found_message_includes.
Qed.

Lemma parseInt_returns (v : value) : returns (parseInt v) = printable v.
Proof.
  unfold parseInt, printable. destruct (to_string v); reflexivity.
Qed.

Lemma requested_limit_cases (query_limit : value) :
  match parseInt query_limit with
  | inr parsed =>
      printable query_limit = true /\
      requested_limit query_limit = ret (if truthy (VNum parsed) then parsed else Fin 10)
  | inl e =>
      printable query_limit = false /\ e = not_primitive /\
      requested_limit query_limit = throw not_primitive
  end.
Proof.
  unfold requested_limit, parseInt.
  destruct (to_string_cases query_limit) as [(s & -> & ->) | [-> ->]]; cbn [bind ret];
    repeat split.
Qed.

(** X18. The history handler reads the limit first: a limit of the query
    that does not convert to a string makes it answer 500, whatever the
    id.  Otherwise it answers 404 for an id that [getEmployee] does not
    find, and 200 with the history and its length as [total] for one that
    it finds; it never changes the log.  The limit it applies is the
    number that [parseInt] reads from the query, and 10 when that is NaN
    or 0: so a limit of 0 gives up to 10 records, a positive limit at most
    that many, and a negative limit all the matching records but that many
    of the oldest. *)
Theorem get_history_answers :
  forall (employeeId : string) (query_limit : value) (fs : Files),
    analysesFile (snd (get_history employeeId query_limit fs)) = analysesFile fs /\
    (printable query_limit = false ->
     get_history employeeId query_limit fs
     = ({| http_code := 500; payload := Refused (message not_primitive) |}, fs)) /\
    (printable query_limit = true ->
     known fs (VStr employeeId) = false ->
     fst (get_history employeeId query_limit fs)
     = {| http_code := 404; payload := Refused "Employee not found" |}) /\
    (known fs (VStr employeeId) = true ->
     forall parsed : number,
       parseInt query_limit = ret parsed ->
       exists records : list AnalysisRecord,
         fst (get_history employeeId query_limit fs)
         = {| http_code := 200; payload := History records (length records) |} /\
         records = getAnalysisHistory "employee" (VStr employeeId)
                     (if truthy (VNum parsed) then parsed else Fin 10) fs /\
         (truthy (VNum parsed) = false -> (length records <= 10)%nat) /\
         (forall q : Q, parsed = Fin q -> truthy (VNum parsed) = true ->
                        (0 <= q)%Q ->
                        length records
                        = Nat.min (Z.to_nat (truncate q))
                            (count (matches "employee" (VStr employeeId)) (log fs))) /\
         (forall q : Q, parsed = Fin q -> (truncate q < 0)%Z ->
                        length records
                        = (count (matches "employee" (VStr employeeId)) (log fs)
                           - Z.to_nat (- truncate q))%nat)).
Proof.
  intros employeeId query_limit fs.
  pose proof (requested_limit_cases query_limit) as Hlimit.
  destruct (parseInt query_limit) as [e | parsed0].
  { destruct Hlimit as (Hp & -> & Hreq).
    assert (get_history employeeId query_limit fs
            = ({| http_code := 500; payload := Refused (message not_primitive) |}, fs)) as Hanswer.
    { unfold get_history, respond, io_bind, io_lift. rewrite Hreq. reflexivity. }
    rewrite Hanswer. cbn [fst snd].
    split; [ reflexivity | split; [ reflexivity | split ] ].
    - congruence.
    - intros _ parsed Hparsed. discriminate Hparsed. }
  destruct Hlimit as (Hp & Hreq).
  split; [ | split; [ congruence | split ] ].
  - unfold get_history, respond, io_bind, io_lift. rewrite Hreq. unfold ret at 1.
    rewrite getEmployee_result.
    destruct (find _ (subjects fs)); [ reflexivity | ].
    destruct (@not_found obj (VStr employeeId)); reflexivity.
  - intros _ Hk. unfold get_history, respond, io_bind, io_lift. rewrite Hreq.
    unfold ret at 1. rewrite getEmployee_result. unfold known in Hk.
    destruct (find _ (subjects fs)); [ discriminate | ].
    rewrite not_found_string. unfold throw, not_found_or_500. cbn [message PlainError fst].
    now rewrite not_found_message_includes.
  - intros Hk parsed Hparsed. injection Hparsed as <-.
    assert (exists employee, getEmployee (VStr employeeId) fs =
              (ret employee,
               {| employeesFile := Some (subjects fs); analysesFile := analysesFile fs |}))
      as (employee & Hget).
    { rewrite getEmployee_result. unfold known in Hk.
      destruct (find _ (subjects fs)); [ eexists; reflexivity | discriminate ]. }
    unfold get_history, respond, io_bind, io_lift. rewrite Hreq. unfold ret at 1.
    rewrite Hget. cbn [ret fst snd analysesFile io_ret].
    eexists. split; [ reflexivity | ].
    assert (forall limit,
               getAnalysisHistory "employee" (VStr employeeId) limit
                 {| employeesFile := Some (subjects fs); analysesFile := analysesFile fs |}
               = slice_to limit (sort_desc (filter (matches "employee" (VStr employeeId))
                                              (log fs)))) as Hhistory.
    { intros limit. rewrite getAnalysisHistory_log. reflexivity. }
    split; [ rewrite !Hhistory; now rewrite getAnalysisHistory_log | ].
    rewrite Hhistory. unfold count.
    split; [ | split ].
    + intros ->. rewrite slice_to_length by (unfold Qle; simpl; lia).
      change (Z.to_nat (truncate 10)) with 10%nat. lia.
    + intros q -> Ht Hq. rewrite Ht, slice_to_length, sort_desc_length by exact Hq.
      reflexivity.
    + intros q -> Hneg.
      assert (truthy (VNum (Fin q)) = true) as ->.
      { cbn [truthy]. apply negb_true_iff. destruct (Qeq_bool q 0) eqn:E; [ | reflexivity ].
        apply Qeq_bool_iff in E. exfalso.
        destruct q as [num den]. unfold truncate, Qeq in *. cbn [Qnum Qden] in *.
        assert (num = 0%Z) as -> by lia. rewrite Z.quot_0_l in Hneg; lia. }
      unfold slice_to. apply Z.ltb_lt in Hneg. rewrite Hneg.
      rewrite length_firstn, sort_desc_length. lia.
Qed.

Lemma get_history_answers_witness :
  fst (get_history "1" (VStr "0") (appends (map sample_call (seq 0 12)) no_files))
  = {| http_code := 200;
       payload :=
         History (getAnalysisHistory "employee" (VStr "1") (Fin 10)
                    (appends (map sample_call (seq 0 12)) no_files)) 10 |} /\
  fst (get_history "1" unprintable no_files)
  = {| http_code := 500; payload := Refused (message not_primitive) |}.
Proof.
  destruct (get_history_answers "1" (VStr "0")
              (appends (map sample_call (seq 0 12)) no_files))
    as (_ & _ & _ & Hknown).
  destruct (Hknown eq_refl (Fin 0) eq_refl) as (records & Hanswer & Hrecords & _).
  split.
  - rewrite Hanswer, Hrecords. vm_compute. reflexivity.
  - destruct (get_history_answers "1" unprintable no_files) as (_ & Hbad & _).
    now rewrite (Hbad eq_refl).
Defined.



Lemma find_set_nth_gone {A} (f : A -> bool) (l : list A) (i : nat) (x : A) :
  findIndex f l = Some i ->
  count f l = 1%nat ->
  f x = false ->
  find f (set_nth i x l) = None.
Proof.
  revert i. induction l as [ | a l IH]; intros i; simpl; [ discriminate | ].
  rewrite count_cons. destruct (f a) eqn:Ha.
  - intros H Hone Hx. injection H as <-. simpl. rewrite Hx.
    assert (count f l = 0%nat) as Hzero by lia.
    unfold count in Hzero. apply length_zero_iff_nil in Hzero.
    clear -Hzero. induction l as [ | b l IH]; simpl in *; [ reflexivity | ].
    destruct (f b); [ discriminate | auto ].
  - destruct (findIndex f l) as [j | ]; simpl; [ | discriminate ].
    intros H Hone Hx. injection H as <-. simpl. rewrite Ha.
    apply IH; [ reflexivity | lia | assumption ].
Qed.

(** X20. An update whose properties include a different [id] changes the
    id of the employee: when no other employee has the old id,
    [getEmployee] of the old id throws not-found afterwards, and the
    history handler answers 404 for it, whatever the log holds and
    whatever limit the query gives that converts to a string. *)
Theorem updateEmployee_can_change_the_id :
  forall (id0 : string) (updates : obj) (now : string) (fs : Files) (new_id : value),
    known fs (VStr id0) = true ->
    count (fun emp => strict_eq (prop emp "id") (VStr id0)) (subjects fs) = 1%nat ->
    lookup "id" updates = Some new_id ->
    strict_eq new_id (VStr id0) = false ->
    let fs' := snd (updateEmployee (VStr id0) updates now fs) in
    known fs' (VStr id0) = false /\
    fst (getEmployee (VStr id0) fs') = throw (PlainError (not_found_message id0)) /\
    log fs' = log fs /\
    forall query_limit : value,
      printable query_limit = true ->
      fst (get_history id0 query_limit fs')
      = {| http_code := 404; payload := Refused "Employee not found" |}.
Proof.
  intros id0 updates now fs new_id Hknown Hone Hid Hdiff fs'.
  assert (known fs' (VStr id0) = false) as Hgone.
  { unfold fs'. rewrite updateEmployee_result.
    pose proof (findIndex_find (fun emp => strict_eq (prop emp "id") (VStr id0)) []
                  (subjects fs)) as Hfi.
    unfold known in Hknown.
    destruct (findIndex _ (subjects fs)) as [i | ] eqn:Hi.
    2: { rewrite Hfi in Hknown. discriminate. }
    cbv zeta. cbn [snd]. unfold known. cbn [subjects employeesFile].
    rewrite (find_set_nth_gone _ _ _ _ Hi Hone); [ reflexivity | ].
    unfold prop. cbn [lookup String.eqb Ascii.eqb Bool.eqb].
    unfold spread. rewrite lookup_app, Hid. exact Hdiff. }
  split; [ exact Hgone | ].
  split.
  { rewrite getEmployee_lookup. unfold lookup_employee. unfold known in Hgone.
    destruct (find _ (subjects fs')); [ discriminate | reflexivity ]. }
  split.
  { unfold fs', log. rewrite updateEmployee_result.
    destruct (findIndex _ (subjects fs)); reflexivity. }
  intros query_limit Hp.
  pose proof (requested_limit_cases query_limit) as Hlimit.
  destruct (parseInt query_limit) as [e | parsed].
  - destruct Hlimit as [Hp' _]. congruence.
  - destruct Hlimit as [_ Hreq].
    unfold get_history, respond, io_bind, io_lift. rewrite Hreq. unfold ret at 1.
    rewrite getEmployee_result. unfold known in Hgone.
    destruct (find _ (subjects fs')); [ discriminate | ].
    rewrite not_found_string. unfold throw, not_found_or_500. cbn [message PlainError fst].
    now rewrite not_found_message_includes.
Qed.

Lemma updateEmployee_can_change_the_id_witness :
  fst (get_history "1" VUndefined
         (snd (updateEmployee (VStr "1") [("id", VStr "E-001")] "t"
                 (appends (map sample_call (seq 0 3)) no_files))))
  = {| http_code := 404; payload := Refused "Employee not found" |}.
Proof.
  apply (updateEmployee_can_change_the_id "1" [("id", VStr "E-001")] "t"
           (appends (map sample_call (seq 0 3)) no_files) (VStr "E-001")).
  - vm_compute. reflexivity.
  - vm_compute. reflexivity.
  - reflexivity.
  - reflexivity.
  - reflexivity.
Defined.



(** X24. The detail handler answers 404 for an id that [getEmployee] does
    not find and otherwise 200 with the stored employee and what
    [getLatestAnalysis] gives for it, which is absent (JSON null) exactly
    when the log holds no [employee] record for that id.  It never changes
    the employees or the log. *)
Theorem get_employee_answers :
  forall (employeeId : string) (fs : Files),
    let fs' := snd (get_employee employeeId fs) in
    subjects fs' = subjects fs /\
    log fs' = log fs /\
    (known fs (VStr employeeId) = false ->
     fst (get_employee employeeId fs)
     = {| http_code := 404; payload := Refused "Employee not found" |}) /\
    (forall employee : obj,
        fst (getEmployee (VStr employeeId) fs) = ret employee ->
        exists latestAnalysis : option AnalysisRecord,
          fst (get_employee employeeId fs)
          = {| http_code := 200; payload := Detail employee latestAnalysis |} /\
          latestAnalysis = getLatestAnalysis "employee" (VStr employeeId) fs /\
          (latestAnalysis = None <->
           count (matches "employee" (VStr employeeId)) (log fs) = 0%nat)).
Proof.
  intros employeeId fs fs'. unfold fs'.
  destruct (known fs (VStr employeeId)) eqn:Hk.
  - rewrite getEmployee_lookup. unfold lookup_employee.
    unfold get_employee, respond, io_bind. rewrite getEmployee_result.
    unfold known in Hk.
    destruct (find _ (subjects fs)) as [e | ]; [ | discriminate ].
    cbn [ret io_ret fst snd].
    split; [ reflexivity | split; [ reflexivity | split; [ discriminate | ] ] ].
    intros employee Hret. injection Hret as <-.
    eexists. split; [ reflexivity | ].
    rewrite !getLatestAnalysis_head.
    split; [ reflexivity | ].
    change (log {| employeesFile := Some (subjects fs); analysesFile := analysesFile fs |})
      with (log fs).
    unfold count. split.
    + intros Hnone. apply hd_sort_desc_none in Hnone. now rewrite Hnone.
    + intros Hzero. apply length_zero_iff_nil in Hzero. now rewrite Hzero.
  - unfold get_employee. rewrite respond_getEmployee_unknown by exact Hk.
    cbn [fst snd].
    split; [ reflexivity | split; [ reflexivity | split; [ reflexivity | ] ] ].
    intros employee Hret. rewrite getEmployee_lookup in Hret.
    unfold lookup_employee in Hret. unfold known in Hk.
    destruct (find _ (subjects fs)); [ discriminate | ].
    now apply not_found_throws in Hret.
Qed.

Lemma get_employee_answers_witness :
  fst (get_employee "1" no_files)
  = {| http_code := 200; payload := Detail (nth 0 getDefaultEmployees []) None |}.
Proof.
  destruct (get_employee_answers "1" no_files) as (_ & _ & _ & Hknown).
  destruct (Hknown (nth 0 getDefaultEmployees []) eq_refl)
    as (latestAnalysis & Hanswer & _ & Hnone).
  rewrite Hanswer. f_equal. f_equal. apply Hnone. reflexivity.
Defined.

(* ===================================================================== *)
(** ** The analyze handler for a stored employee *)





(* ===================================================================== *)
(** ** The prompt compiler *)

Lemma consecutive_at {A} (t : list A) (k : nat) (a b c : A) :
  nth_error t k = Some a ->
  nth_error t (S k) = Some b ->
  nth_error t (S (S k)) = Some c ->
  consecutive a b c t.
Proof.
  revert t. induction k as [ | k IH]; intros t Ha Hb Hc.
  - destruct t as [ | x [ | y [ | z rest]]]; try discriminate.
    cbn in Ha, Hb, Hc. injection Ha as ->. injection Hb as ->. injection Hc as ->.
    now exists [], rest.
  - destruct t as [ | x t]; [ discriminate | ].
    destruct (IH t Ha Hb Hc) as (pre & post & ->).
    now exists (x :: pre), post.
Qed.

(** A substitution that stands between a text that ends with [label] and
    a text that starts with [suffix] shows in the result between them. *)
Lemma render_shows (t : list piece) (a b label suffix shown prompt : string)
    (mv : M value) (v : value) :
  consecutive (Text a) (Hole mv) (Text b) t ->
  mv = ret v ->
  take (String.length a - String.length label) a ++ label = a ->
  starts_with suffix b = true ->
  render t = ret prompt ->
  to_string v = ret shown ->
  includes (label ++ shown ++ suffix) prompt = true.
Proof.
  intros (pre & post & ->) -> Ha Hb Hrender Hshown.
  apply render_split in Hrender as (p1 & p2 & _ & Hline & ->).
  cbn [render bind ret] in Hline. rewrite Hshown in Hline. cbn [bind ret] in Hline.
  destruct (render post) as [e | r]; cbn [bind ret] in Hline; [ discriminate | ].
  injection Hline as <-.
  unfold starts_with in Hb.
  destruct (strip_prefix suffix b) as [b0 | ] eqn:Hb0; [ | discriminate ].
  apply strip_prefix_some in Hb0 as ->.
  rewrite <- Ha.
  set (a0 := take (String.length a - String.length label) a).
  replace (p1 ++ (a0 ++ label) ++ shown ++ (suffix ++ b0) ++ r)
    with ((p1 ++ a0) ++ (label ++ shown ++ suffix) ++ (b0 ++ r))
    by (now rewrite !string_app_assoc).
  apply includes_app.
Qed.

Lemma or_else_falsy (a b : value) : truthy a = false -> or_else a b = b.
Proof.
  intros H. unfold or_else. now rewrite H.
Qed.

Lemma render_shows_at (t : list piece) (k : nat) (a b label suffix shown prompt : string)
    (mv : M value) (v : value) :
  nth_error t k = Some (Text a) ->
  nth_error t (S k) = Some (Hole mv) ->
  nth_error t (S (S k)) = Some (Text b) ->
  mv = ret v ->
  take (String.length a - String.length label) a ++ label = a ->
  starts_with suffix b = true ->
  render t = ret prompt ->
  to_string v = ret shown ->
  includes (label ++ shown ++ suffix) prompt = true.
Proof.
  intros Ha Hmv Hb. apply render_shows. now apply (consecutive_at t k).
Qed.

(** Finds the line of a template at one of the positions of its
    substitutions, given what the substitution evaluates to. *)
Ltac show_at k :=
  match goal with
  | H : render ?t = ret ?p |- includes _ ?p = true =>
      eapply (render_shows_at t k);
      [ reflexivity | reflexivity | reflexivity | reflexivity | reflexivity | reflexivity
      | exact H | ]
  end.

Ltac show_line :=
  unfold shows;
  first [ show_at 0 | show_at 2 | show_at 4 | show_at 6 | show_at 8 | show_at 10
        | show_at 12 | show_at 14 | show_at 16 | show_at 18 | show_at 20 | show_at 22
        | show_at 24 | show_at 26 | show_at 28 ].

Lemma buildTeamPrompt_inv (team : obj) (prompt : string) :
  buildTeamPrompt team = ret prompt ->
  exists membersList,
    members_list team = ret membersList /\
    render (team_template team membersList) = ret prompt.
Proof.
  unfold buildTeamPrompt.
  destruct (members_list team) as [e | membersList]; cbn [bind]; [ discriminate | ].
  intros H. now exists membersList.
Qed.

(** C9. Whenever the prompt of an employee compiles, which it does for
    every employee whose properties convert to a string, every field that
    has a default of its own shows that default, which is not empty, on
    its line when the field is absent or falsy; [skills] shows its default
    when it is not an array, and [specialization] shows the position;
    [name], [position] and [department] have no default and show the text
    [undefined] when absent.  The team prompt, which compiles whenever the
    properties of the team and what its members show convert to a string
    and no member is [null] or [undefined], does the same for its fields
    with a default; [memberCount] shows the default when the members have
    no length either, the list of members shows its default when [members]
    is not an array, and the team's [name] shows [undefined] when
    absent. *)
Theorem prompt_defaults :
  (forall (employee : obj) (prompt : string),
      buildEmployeePrompt employee = ret prompt ->
      (forall field label default suffix : string,
          In (field, label, default, suffix) employee_lines ->
          truthy (prop employee field) = false ->
          shows prompt label default suffix /\ default <> "") /\
      (isArray (prop employee "skills") = false ->
       shows prompt "- 核心技能：" "未提供" "
") /\
      (truthy (prop employee "specialization") = false ->
       forall shown : string,
         to_string (prop employee "position") = ret shown ->
         shows prompt "- 專業領域：" shown "
") /\
      (forall field label : string,
          In (field, label) employee_bare_lines ->
          prop employee field = VUndefined ->
          shows prompt label "undefined" "
")) /\
  (forall employee : obj,
      plain employee -> exists prompt, buildEmployeePrompt employee = ret prompt) /\
  (forall (team : obj) (prompt : string),
      buildTeamPrompt team = ret prompt ->
      (forall field label default suffix : string,
          In (field, label, default, suffix) team_lines ->
          truthy (prop team field) = false ->
          shows prompt label default suffix /\ default <> "") /\
      (truthy (prop team "memberCount") = false ->
       truthy (members_length (prop team "members")) = false ->
       shows prompt "- 成員數量：" "未知" "
") /\
      (isArray (prop team "members") = false ->
       shows prompt "- 成員列表：" "團隊成員資訊未提供" "
") /\
      (prop team "name" = VUndefined ->
       shows prompt "- 團隊名稱：" "undefined" "
")) /\
  (forall team : obj,
      plain team ->
      printable (members_length (prop team "members")) = true ->
      readable_members team = true ->
      printable_members team = true ->
      exists prompt, buildTeamPrompt team = ret prompt).
Proof.
  split; [ | split; [ exact buildEmployeePrompt_returns | split ] ].
  - intros employee prompt Hprompt. unfold buildEmployeePrompt in Hprompt.
    split; [ | split; [ | split ] ].
    + intros field label default suffix Hin Hfalsy.
      unfold employee_lines in Hin. cbn [In] in Hin.
      repeat match type of Hin with
             | _ \/ _ => destruct Hin as [Hin | Hin]
             | False => destruct Hin
             end;
        injection Hin as <- <- <- <-;
        (split; [ | discriminate ]);
        show_line; now rewrite (or_else_falsy _ _ Hfalsy).
    + intros Hskills. unfold employee_template in Hprompt.
      destruct (prop employee "skills"); try discriminate Hskills; show_line; reflexivity.
    + intros Hfalsy shown Hshown. show_line.
      now rewrite (or_else_falsy _ _ Hfalsy).
    + intros field label Hin Habsent.
      unfold employee_bare_lines in Hin. cbn [In] in Hin.
      repeat match type of Hin with
             | _ \/ _ => destruct Hin as [Hin | Hin]
             | False => destruct Hin
             end;
        injection Hin as <- <-; show_line; now rewrite Habsent.
  - intros team prompt Hprompt.
    apply buildTeamPrompt_inv in Hprompt as (membersList & Hmembers & Hprompt).
    split; [ | split; [ | split ] ].
    + intros field label default suffix Hin Hfalsy.
      unfold team_lines in Hin. cbn [In] in Hin.
      repeat match type of Hin with
             | _ \/ _ => destruct Hin as [Hin | Hin]
             | False => destruct Hin
             end;
        injection Hin as <- <- <- <-;
        (split; [ | discriminate ]);
        show_line; now rewrite (or_else_falsy _ _ Hfalsy).
    + intros Hcount Hlength. show_line.
      now rewrite (or_else_falsy _ _ Hcount), (or_else_falsy _ _ Hlength).
    + intros Hna. unfold members_list in Hmembers.
      destruct (prop team "members"); try discriminate Hna;
        injection Hmembers as <-; show_line; reflexivity.
    + intros Habsent. show_line. now rewrite Habsent.
  - exact buildTeamPrompt_returns.
Qed.

Lemma prompt_defaults_witness :
  (exists prompt : string,
      buildEmployeePrompt [("name", VStr "張小明")] = ret prompt /\
      shows prompt "- 團隊反饋：" "積極參與，協作良好" "
" /\
      shows prompt "- 職位：" "undefined" "
") /\
  (exists prompt : string,
      buildTeamPrompt [("name", VStr "前端開發團隊")] = ret prompt /\
      shows prompt "- 領導者：" "未指定" "
").
Proof.
  destruct prompt_defaults as (Hemployee & Hcompiles & Hteam & Hteam_compiles).
  split.
  - destruct (Hcompiles [("name", VStr "張小明")]) as [prompt Hprompt];
      [ apply plain_b_plain; reflexivity | ].
    destruct (Hemployee _ _ Hprompt) as (Hlines & _ & _ & Hbare).
    exists prompt. split; [ exact Hprompt | split ].
    + apply (Hlines "feedback"); [ | reflexivity ].
      unfold employee_lines. cbn [In]. tauto.
    + apply (Hbare "position"); [ | reflexivity ].
      unfold employee_bare_lines. cbn [In]. tauto.
  - destruct (Hteam_compiles [("name", VStr "前端開發團隊")]) as [prompt Hprompt];
      [ apply plain_b_plain; reflexivity | reflexivity | reflexivity | reflexivity | ].
    destruct (Hteam _ _ Hprompt) as (Hlines & _).
    exists prompt. split; [ exact Hprompt | ].
    apply (Hlines "leader"); [ | reflexivity ].
    unfold team_lines. cbn [In]. tauto.
Defined.

(** An employee with no [position] is shown in the prompt with the text
    [undefined] at that field, which is the default of no field. *)
Lemma prompt_position_without_default :
  prop [("name", VStr "張小明"); ("department", VStr "研發部")] "position" = VUndefined /\
  (exists prompt : string,
      buildEmployeePrompt [("name", VStr "張小明"); ("department", VStr "研發部")]
      = ret prompt /\
      includes "- 職位：undefined
" prompt = true) /\
  existsb (fun line => String.eqb (snd (fst line)) "undefined") employee_lines = false.
Proof.
  split; [ reflexivity | split; [ | reflexivity ] ].
  eexists. split; [ vm_compute; reflexivity | vm_compute; reflexivity ].
Qed.

(* ===================================================================== *)
(** ** The two patterns of the extraction *)

(** Induction on the length of a text. *)
Lemma string_tail_ind (P : string -> Prop) :
  (forall s, (forall t, (String.length t < String.length s)%nat -> P t) -> P s) ->
  forall s, P s.
Proof.
  intros Hstep s.
  assert (forall n t, (String.length t < n)%nat -> P t) as Hall.
  { induction n as [ | n IH]; intros t Ht; [ lia | ].
    apply Hstep. intros u Hu. apply IH. lia. }
  apply (Hall (S (String.length s))). lia.
Qed.

Section Matching.
Context {R : Type}.
Implicit Types (k : @cont R) (s w rest : string) (r : R).

Lemma lit_some l k s r :
  lit l k s = Some r -> exists rest, s = l ++ rest /\ k rest = Some r.
Proof.
  unfold lit. destruct (strip_prefix l s) as [rest | ] eqn:E; [ | discriminate ].
  intros H. exists rest. split; [ now apply strip_prefix_some | assumption ].
Qed.

Lemma lit_app l k rest : lit l k (l ++ rest) = k rest.
Proof.
  unfold lit. now rewrite strip_prefix_app.
Qed.

Lemma lit_mismatch (c d : ascii) k rest :
  Ascii.eqb c d = false -> lit (String c "") k (String d rest) = None.
Proof.
  intros H. unfold lit. simpl. now rewrite H.
Qed.

Lemma star_some cls k s r :
  star cls k s = Some r ->
  exists w rest, s = w ++ rest /\ all_chars cls w = true /\ k rest = Some r.
Proof.
  induction s as [ | c s IH]; simpl.
  - intros H. exists "", "". auto.
  - destruct (cls c) eqn:Hc.
    + destruct (star cls k s) as [r' | ] eqn:Hs.
      * intros H. injection H as <-.
        destruct (IH eq_refl) as (w & rest & -> & Hw & Hk).
        exists (String c w), rest. simpl. rewrite Hc. auto.
      * intros H. exists "", (String c s). auto.
    + intros H. exists "", (String c s). auto.
Qed.




Lemma spaces_some k s r :
  spaces k s = Some r ->
  exists w rest, s = w ++ rest /\ blank w = true /\ k rest = Some r.
Proof.
  induction s as [s IH] using string_tail_ind.
  assert (k s = Some r -> exists w rest, s = w ++ rest /\ blank w = true /\ k rest = Some r)
    as Hnone by (intros H; exists "", s; auto).
  destruct s as [ | a t]; cbn [spaces]; [ exact Hnone | ].
  destruct (is_space1 a) eqn:H1.
  { destruct (spaces k t) as [r' | ] eqn:Hs; [ | exact Hnone ].
    intros H. injection H as <-.
    destruct (IH t) as (w & rest & -> & Hw & Hk); [ simpl; lia | exact Hs | ].
    exists (String a w), rest. split; [ reflexivity | split; [ | exact Hk ] ].
    unfold blank in *. cbn [skip_space]. now rewrite H1. }
  destruct t as [ | b u]; [ exact Hnone | ].
  destruct (is_space2 a b) eqn:H2.
  { destruct (spaces k u) as [r' | ] eqn:Hs; [ | exact Hnone ].
    intros H. injection H as <-.
    destruct (IH u) as (w & rest & -> & Hw & Hk); [ simpl; lia | exact Hs | ].
    exists (String a (String b w)), rest. split; [ reflexivity | split; [ | exact Hk ] ].
    unfold blank in *. cbn [skip_space]. now rewrite H1, H2. }
  destruct u as [ | c v]; [ exact Hnone | ].
  destruct (is_space3 a b c) eqn:H3; [ | exact Hnone ].
  destruct (spaces k v) as [r' | ] eqn:Hs; [ | exact Hnone ].
  intros H. injection H as <-.
  destruct (IH v) as (w & rest & -> & Hw & Hk); [ simpl; lia | exact Hs | ].
  exists (String a (String b (String c w))), rest.
  split; [ reflexivity | split; [ | exact Hk ] ].
  unfold blank in *. cbn [skip_space]. now rewrite H1, H2, H3.
Qed.


Lemma search_some (m : @cont R) s r :
  search m s = Some r -> exists pre suf, s = pre ++ suf /\ m suf = Some r.
Proof.
  induction s as [ | c s IH]; simpl.
  - destruct (m "") eqn:Hm; [ | discriminate ].
    intros H. injection H as <-. exists "", "". auto.
  - destruct (m (String c s)) eqn:Hm.
    + intros H. injection H as <-. exists "", (String c s). auto.
    + intros H. destruct (IH H) as (pre & suf & -> & Hs).
      exists (String c pre), suf. auto.
Qed.


(** Braces followed by [k]: the match runs to a closing brace after
    which [k] matches. *)
Lemma braces_some k s r :
  braces k s = Some r ->
  exists mid rest, s = "{" ++ mid ++ "}" ++ rest /\ k rest = Some r.
Proof.
  unfold braces. intros H.
  apply lit_some in H as (s1 & -> & H).
  apply star_some in H as (mid & s2 & -> & _ & H).
  apply lit_some in H as (rest & -> & H).
  exists mid, rest. auto.
Qed.



(** Greedy: with no closing brace in [post], the match ends at the
    brace before [post]. *)
Lemma star_no_brace k post :
  lacks "}" post = true -> star any_char (lit "}" k) post = None.
Proof.
  induction post as [ | c post IH]; simpl; intros H.
  - reflexivity.
  - unfold lacks in H. simpl in H. apply andb_true_iff in H as [Hc Hp].
    rewrite (IH Hp). apply lit_mismatch.
    apply negb_true_iff in Hc. now rewrite Ascii.eqb_sym.
Qed.

Lemma braces_last k mid post r :
  lacks "}" post = true ->
  k post = Some r ->
  braces k ("{" ++ mid ++ "}" ++ post) = Some r.
Proof.
  intros Hp Hk. unfold braces. rewrite lit_app.
  remember ("}" ++ post) as tail eqn:Ht.
  induction mid as [ | c mid IH].
  - subst tail. change ("" ++ "}" ++ post) with (String "}" post).
    cbn [star any_char].
    rewrite (star_no_brace k post Hp).
    change (String "}" post) with ("}" ++ post). now rewrite lit_app.
  - change (String c mid ++ tail) with (String c (mid ++ tail)).
    cbn [star any_char]. now rewrite IH.
Qed.

Lemma search_skips (m : @cont R) pre suf :
  (forall c rest, Ascii.eqb c "{" = false -> m (String c rest) = None) ->
  lacks "{" pre = true ->
  search m (pre ++ suf) = search m suf.
Proof.
  intros Hm. induction pre as [ | c pre IH]; simpl; intros Hp; [ reflexivity | ].
  unfold lacks in Hp. simpl in Hp. apply andb_true_iff in Hp as [Hc Hp].
  apply negb_true_iff in Hc. rewrite (Hm _ _ Hc). now apply IH.
Qed.
End Matching.

Lemma group_braces_start {R} (k : string -> @cont R) (c : ascii) (rest : string) :
  Ascii.eqb c "{" = false -> group braces k (String c rest) = None.
Proof.
  intros Hc. unfold group, braces. apply lit_mismatch. now rewrite Ascii.eqb_sym.
Qed.

Lemma match_object_some (s g : string) :
  match_object s = Some g ->
  exists pre mid post, s = pre ++ "{" ++ mid ++ "}" ++ post /\ g = "{" ++ mid ++ "}".
Proof.
  unfold match_object. intros H.
  apply search_some in H as (pre & suf & -> & H).
  unfold group in H. apply braces_some in H as (mid & post & Hsuf & H).
  injection H as <-. exists pre, mid, post. split; [ now rewrite Hsuf | ].
  rewrite Hsuf.
  replace ("{" ++ mid ++ "}" ++ post) with (("{" ++ mid ++ "}") ++ post)
    by (now rewrite !string_app_assoc).
  apply take_matched.
Qed.

Lemma match_object_first_to_last (pre mid post : string) :
  lacks "{" pre = true ->
  lacks "}" post = true ->
  match_object (pre ++ "{" ++ mid ++ "}" ++ post) = Some ("{" ++ mid ++ "}").
Proof.
  intros Hpre Hpost. unfold match_object.
  rewrite search_skips; [ | intros c rest Hc; now apply group_braces_start | assumption ].
  assert (group braces (fun g (_ : string) => Some g) ("{" ++ mid ++ "}" ++ post)
          = Some ("{" ++ mid ++ "}")) as Hm.
  { unfold group. apply braces_last; [ assumption | ].
    f_equal.
    replace ("{" ++ mid ++ "}" ++ post) with (("{" ++ mid ++ "}") ++ post)
      by (now rewrite !string_app_assoc).
    apply take_matched. }
  change ("{" ++ mid ++ "}" ++ post) with (String "{" (mid ++ "}" ++ post)) in *.
  cbn [search]. now rewrite Hm.
Qed.

Lemma match_fenced_some (s g : string) :
  match_fenced s = Some g -> fenced_span s g.
Proof.
  unfold match_fenced. intros H.
  apply search_some in H as (pre & suf & -> & H).
  apply lit_some in H as (s1 & -> & H).
  assert (exists lang s2,
             s1 = lang ++ s2 /\ (lang = "" \/ lang = "json") /\
             spaces
               (group braces (fun g0 => spaces (lit "```" (fun _ => Some g0)))) s2
             = Some g) as (lang & s2 & -> & Hlang & H2).
  { unfold opt in H.
    match type of H with
    | match ?m with _ => _ end = _ => destruct m as [g' | ] eqn:Hj
    end.
    - injection H as ->. apply lit_some in Hj as (s2 & -> & Hj).
      exists "json", s2. auto.
    - exists "", s1. auto. }
  apply spaces_some in H2 as (w1 & s3 & -> & Hw1 & H3).
  unfold group in H3. apply braces_some in H3 as (mid & s4 & Hs3 & H4).
  apply spaces_some in H4 as (w2 & s5 & -> & Hw2 & H5).
  apply lit_some in H5 as (post & -> & H5).
  injection H5 as Hg.
  assert (g = "{" ++ mid ++ "}") as Hgm.
  { rewrite <- Hg, Hs3.
    replace ("{" ++ mid ++ "}" ++ w2 ++ "```" ++ post)
      with (("{" ++ mid ++ "}") ++ w2 ++ "```" ++ post)
      by (now rewrite !string_app_assoc).
    apply take_matched. }
  exists pre, lang, w1, mid, w2, post.
  repeat split; try assumption.
  rewrite Hs3, Hgm. now rewrite !string_app_assoc.
Qed.





(* ===================================================================== *)
(** ** What the extraction returns *)

Lemma includes_self (s : string) : includes s s = true.
Proof.
  apply includes_start. unfold starts_with.
  rewrite <- (string_app_nil_r s) at 2. now rewrite strip_prefix_app.
Qed.

(** X4. What [extractJSON] returns on a string is a contiguous part of
    that string, so it is never longer than the reply. *)
Theorem extractJSON_is_part_of_reply :
  forall reply : string,
  exists r : string,
    extractJSON (VStr reply) = ret r /\
    (exists before after : string, reply = before ++ r ++ after) /\
    includes r reply = true /\
    (String.length r <= String.length reply)%nat.
Proof.
  intros reply.
  assert (exists r, extractJSON (VStr reply) = ret r /\
                    exists before after, reply = before ++ r ++ after)
    as (r & Hr & before & after & Hparts).
  { unfold extractJSON.
    destruct (match_fenced reply) as [g | ] eqn:Hf.
    - exists g. split; [ reflexivity | ].
      apply match_fenced_some in Hf
        as (pre & lang & w1 & mid & w2 & post & Hs & _ & _ & _ & _).
      exists (pre ++ "```" ++ lang ++ w1), (w2 ++ "```" ++ post).
      rewrite Hs. now rewrite !string_app_assoc.
    - destruct (match_object reply) as [o | ] eqn:Ho.
      + exists o. split; [ reflexivity | ].
        apply match_object_some in Ho as (pre & mid & post & Hs & ->).
        exists pre, post. rewrite Hs. now rewrite !string_app_assoc.
      + exists reply. split; [ reflexivity | ].
        exists "", "". simpl. now rewrite string_app_nil_r. }
  exists r. split; [ exact Hr | ].
  split; [ now exists before, after | ].
  split.
  - rewrite Hparts. apply includes_app.
  - rewrite Hparts, !string_app_length. lia.
Qed.

Lemma lit_fence_none {R} (k : @cont R) (s : string) :
  match s with
  | String c _ => Ascii.eqb c "`" = false
  | EmptyString => True
  end ->
  lit "```" k s = None.
Proof.
  destruct s as [ | c t]; intros H; unfold lit; cbn [strip_prefix]; [ reflexivity | ].
  rewrite Ascii.eqb_sym, H. reflexivity.
Qed.

Lemma match_fenced_without_backtick (s : string) :
  lacks "`" s = true -> match_fenced s = None.
Proof.
  unfold match_fenced.
  induction s as [ | c s IH]; intros Hl.
  - reflexivity.
  - unfold lacks in Hl. simpl in Hl. apply andb_true_iff in Hl as [Hc Hs].
    apply negb_true_iff in Hc.
    cbn [search]. rewrite lit_fence_none by exact Hc. now apply IH.
Qed.

(** X5. A reply without a backtick that starts with an opening brace and
    ends with a closing brace is handed to the parser as it is. *)
Theorem extractJSON_keeps_a_bare_object :
  forall mid : string,
    lacks "`" mid = true ->
    extractJSON (VStr ("{" ++ mid ++ "}")) = ret ("{" ++ mid ++ "}").
Proof.
  intros mid Hl. unfold extractJSON.
  rewrite match_fenced_without_backtick.
  - pose proof (match_object_first_to_last "" mid "" eq_refl eq_refl) as Ho.
    rewrite string_app_nil_r in Ho. simpl in Ho. simpl. now rewrite Ho.
  - unfold lacks in *. simpl.
    clear -Hl. induction mid as [ | c mid IH]; simpl in *; [ reflexivity | ].
    apply andb_true_iff in Hl as [Hc Hm]. now rewrite Hc, IH.
Qed.

Lemma extractJSON_keeps_a_bare_object_witness :
  extractJSON (VStr (quoted "{'overallScore': 9}")) = ret (quoted "{'overallScore': 9}").
Proof.
  apply (extractJSON_keeps_a_bare_object (quoted "'overallScore': 9")).
  vm_compute. reflexivity.
Defined.

(* ===================================================================== *)
(** ** The scenarios of the specification *)

Example validateScore_samples :
  validateScore (VNum (Fin 15)) = ret (Fin 10) /\
  validateScore (VNum (Fin (-3))) = ret (Fin 1) /\
  validateScore (VStr "8.5 points") = ret (Fin (17 # 2)) /\
  validateScore (VStr "　8.5") = ret (Fin (17 # 2)) /\
  validateScore (VStr "9.99999999999999999999") = ret (Fin 10) /\
  validateScore (VStr "1e1") = ret (Fin 10) /\
  validateScore (VStr "excellent") = ret (Fin (15 # 2)) /\
  validateScore VNull = ret (Fin (15 # 2)) /\
  validateScore (VArr [VStr "6"; VStr "9"]) = ret (Fin 6) /\
  validateScore (VObj [("value", int 9)]) = ret (Fin (15 # 2)) /\
  validateScore unprintable = throw not_primitive.
Proof. vm_compute. repeat split. Qed.

(** Numbers print as the engine prints them, and a slice counts code
    units. *)
Example conversion_samples :
  to_string (VNum (num (1 # 10))) = ret "0.1" /\
  to_string (VNum (num (41 # 5))) = ret "8.2" /\
  to_string (VNum (Fin (inject_Z (10 ^ 21)))) = ret "1e+21" /\
  to_string (VNum (num (1 # 10000000))) = ret "1e-7" /\
  to_string (VArr [int 1; VNull; VStr "a"]) = ret "1,,a" /\
  to_string (VObj [("name", VStr "x")]) = ret "[object Object]" /\
  to_string (VArr [unprintable]) = throw not_primitive /\
  js_length "😀a" = 3%nat /\
  js_slice0 3 "😀ab" = "😀a".
Proof. vm_compute. repeat split. Qed.

(** A fenced object with a score out of range and a field of the wrong
    type is parsed and corrected. *)
Example fenced_reply_is_validated :
  exists r : AnalysisResult,
    parseEmployeeAnalysis
      (VStr (quoted "分析如下：
```json
{'overallScore': 15, 'strengths': 'not-an-array'}
```"))
    = ret r /\
    source r = "openai" /\
    overallScore (data r) = Fin 10 /\
    strengths (data r) = [VStr "技能表現良好"].
Proof.
  eexists. split; [ vm_compute; reflexivity | ]. repeat split.
Qed.

(** A parsed object with a score that does not convert to a string is
    read through the text path. *)
Example unprintable_score_is_read_as_text :
  exists r : AnalysisResult,
    parseEmployeeAnalysis (VStr (quoted "{'overallScore': {'toString': 1}}")) = ret r /\
    source r = "openai-parsed".
Proof.
  eexists. split; [ vm_compute; reflexivity | reflexivity ].
Qed.

(** With no API key, the analyze handler answers 200 with the mock
    analysis and saves one record. *)
Example offline_analysis_is_mock :
  let '(res, fs) :=
    post_analyze (sample_env offline_service) (sample_request "1" []) no_files in
  status res = 200%nat /\
  map (fun r => meta_source (metadata r)) (log fs) = ["mock"] /\
  map id (getAnalysisHistory "employee" (VStr "1") (Fin 10) fs) = ["analysis-0"].
Proof. vm_compute. repeat split. Qed.

(** With two fenced blocks the greedy pattern runs from the first block's
    opening brace to the last block's closing brace. *)
Example fenced_span_over_two_blocks :
  match_fenced "```json {a} ``` and ``` {b} ```" = Some "{a} ``` and ``` {b}".
Proof. vm_compute. reflexivity. Qed.

(** A metadata argument with a source of its own replaces the source of
    the result in the record. *)
Example metadata_overrides_the_source :
  map (fun r => meta_source (metadata r))
    (log (append {| a_uuid := "analysis-p"; a_now := 1700000000000%Z; a_type := "employee";
                    a_targetId := VStr "1";
                    a_analysis := {| success := true; data := text_payload "";
                                     source := "openai-parsed" |};
                    a_metadata := {| given_source := Some "mock"; given_success := None;
                                     given_timestamp := None; others := [] |} |}
            no_files))
  = ["mock"].
Proof. vm_compute. reflexivity. Qed.

(** No result of the service is counted in the [fallback] bucket of the
    statistics. *)
Lemma service_results_miss_fallback_bucket (this : OpenAIService) (employeeData : obj)
    (r : AnalysisResult) :
  analyzeEmployee this employeeData = ret r ->
  includes "fallback" (source r) = false.
Proof.
  intros Hr.
  destruct (analyzeEmployee_result this employeeData r Hr) as (_ & Hsrc & _).
  unfold source_tags in Hsrc. simpl in Hsrc.
  destruct Hsrc as [<- | [<- | [<- | []]]]; reflexivity.
Qed.
